(** * loclook: the location-lookup worker

    A shallow embedding of the worker script (a fetch handler that reads
    the platform's geolocation headers, scores their completeness and,
    on the enhanced route, asks ipapi.co for the missing fields), and
    the properties of its specification stated and settled against it.

    Layout:
    - [JS]      the fragment of the host language the worker relies on:
                dynamic values, truthiness, the string methods it calls,
                binary64 numbers with [Math.round], [parseFloat], [parseInt];
    - [Exec]    a state-and-exception monad for the one block of the worker
                that mutates a record while calls may throw;
    - the worker's functions, under their source names;
    - [Spec]    the definitions that follow the specification's wording;
    - the merge as a function on records, and the stores of a run;
    - [Convert] the conversions that the client library leans on: ToString
                and ToNumber on every value, and a value's JSON copy;
    - [Client]  the client library of [examples/client.js]: its cache in
                [localStorage], its requests and its helpers, over a
                state-and-exception monad of its own;
    - the theorems: the scorer, the extractor, routing, the enhanced
      route, what a successful merge keeps, the client's cache and
      requests, and the client in front of the worker. *)

From Stdlib Require Import ZArith List Ascii String Bool Lia QArith Qround.
From Stdlib Require Import Floats.PrimFloat Floats.SpecFloat Floats.FloatOps.
From Stdlib Require Import Floats.FloatAxioms Numbers.DecimalString.
From stdpp Require Import gmap strings fin_maps.

Set Warnings "-register-all".

Local Open Scope string_scope.
Local Open Scope Z_scope.

(* ===================================================================== *)
(** * The host language *)
(* ===================================================================== *)

Module JS.

(** ** Values

    A property of a record may hold any value of the language, and the
    worker tells [null] from [undefined] from a missing key, so records
    are finite maps from property names to dynamic values. Strings are
    sequences of one-byte characters, numbers are binary64 floats. *)

Inductive value : Type :=
| VUndefined
| VNull
| VBool (b : bool)
| VNum (n : float)
| VStr (s : string)
| VArr (elems : list value)
| VObj (props : gmap string value).

Abbreviation object := (gmap string value).

(** [o.k]: reading a property that is not there gives [undefined]. *)
Definition prop (o : object) (k : string) : value :=
  match o !! k with
  | Some v => v
  | None => VUndefined
  end.

(** [v.k] on an arbitrary value, where [v] is expected to be a record:
    a property of anything that is not a record reads as [undefined]. *)
Definition field (v : value) (k : string) : value :=
  match v with
  | VObj o => prop o k
  | _ => VUndefined
  end.

(** ToBoolean. *)
Definition truthy (v : value) : bool :=
  match v with
  | VUndefined | VNull => false
  | VBool b => b
  | VNum n => negb (is_zero n || is_nan n)
  | VStr s => negb (String.eqb s "")
  | VArr _ | VObj _ => true
  end.

(** [a || b] (both operands are pure wherever the worker uses it). *)
Definition or (a b : value) : value := if truthy a then a else b.

(** [v === 'text'] and [v !== null]. *)
Definition is_string (v : value) (text : string) : bool :=
  match v with
  | VStr s => String.eqb s text
  | _ => false
  end.

Definition is_null (v : value) : bool :=
  match v with
  | VNull => true
  | _ => false
  end.

(** ToString, as a template literal applies it. Formatting a number and
    joining an array are left out: the one value the worker interpolates
    is the record's [ip], which is text (lemma [ip_is_text] below). *)
Definition ToString (v : value) : string :=
  match v with
  | VStr s => s
  | VUndefined => "undefined"
  | VNull => "null"
  | VBool true => "true"
  | VBool false => "false"
  | VObj _ => "[object Object]"
  | VNum _ | VArr _ => ""
  end.

(** ** Strings *)

(** WhiteSpace and LineTerminator, within one-byte characters: TAB, LF,
    VT, FF, CR, SP and NBSP. *)
Definition is_space (c : ascii) : bool :=
  let n := nat_of_ascii c in
  ((9 <=? n) && (n <=? 13) || (n =? 32) || (n =? 160))%nat.

Fixpoint trimStart (s : string) : string :=
  match s with
  | String c rest => if is_space c then trimStart rest else s
  | EmptyString => EmptyString
  end.

Definition reverse (s : string) : string :=
  string_of_list_ascii (rev (list_ascii_of_string s)).

(** [s.trim()] *)
Definition trim (s : string) : string :=
  reverse (trimStart (reverse (trimStart s))).

(** [s.split(sep)] for a one-character separator: the pieces between
    the separators, so the result always has a first element. *)
Fixpoint split (sep : ascii) (s : string) : list string :=
  match s with
  | EmptyString => [EmptyString]
  | String c rest =>
      if Ascii.eqb c sep then EmptyString :: split sep rest
      else match split sep rest with
           | piece :: pieces => String c piece :: pieces
           | [] => [String c EmptyString]
           end
  end.

(** [s.includes(search)] *)
Fixpoint includes (s search : string) : bool :=
  String.prefix search s
  || match s with
     | String _ rest => includes rest search
     | EmptyString => false
     end.

(** ASCII lower-casing, as header names are compared. *)
Definition lower (c : ascii) : ascii :=
  let n := nat_of_ascii c in
  if ((65 <=? n) && (n <=? 90))%nat then ascii_of_nat (n + 32) else c.

Fixpoint toLowerCase (s : string) : string :=
  match s with
  | String c rest => String (lower c) (toLowerCase rest)
  | EmptyString => EmptyString
  end.

(** ** Numbers *)

(** The binary64 number nearest to an integer (ties to even). *)
Definition of_Z (z : Z) : float :=
  SF2Prim (binary_normalize prec emax z 0 false).

Definition of_nat (n : nat) : float := of_Z (Z.of_nat n).

(** [Math.round]: the nearest integral number, a tie going up. NaN,
    zeros, infinities and integral numbers are returned as they are; a
    negative number that rounds to zero gives [-0]. *)
Definition Math_round (x : float) : float :=
  match Prim2SF x with
  | S754_finite sign m e =>
      if 0 <=? e then x
      else
        let k := - e in
        let sm := if sign then Z.neg m else Z.pos m in
        let r := (2 * sm + 2 ^ k) / 2 ^ (k + 1) in
        if (r =? 0) && sign then neg_zero else of_Z r
  | _ => x
  end.

(** *** Numeric literals in text

    [parseFloat] reads the longest prefix that is a StrDecimalLiteral:
    an optional sign, then [Infinity] or decimal digits with an optional
    fraction and an optional exponent. *)

Definition is_digit (c : ascii) : bool :=
  let n := nat_of_ascii c in ((48 <=? n) && (n <=? 57))%nat.

Definition digit_value (c : ascii) : Z := Z.of_nat (nat_of_ascii c) - 48.

(** The leading decimal digits of a text and what follows them. *)
Fixpoint digits (s : string) : list ascii * string :=
  match s with
  | String c rest =>
      if is_digit c then let (ds, tail) := digits rest in (c :: ds, tail)
      else ([], s)
  | EmptyString => ([], EmptyString)
  end.

Definition decimal (ds : list ascii) : Z :=
  fold_left (fun acc c => 10 * acc + digit_value c) ds 0.

(** An optional sign: whether it is a minus, and what follows it. *)
Definition sign (s : string) : bool * string :=
  match s with
  | String "-" rest => (true, rest)
  | String "+" rest => (false, rest)
  | _ => (false, s)
  end.

(** An ExponentPart, if the text starts with a complete one; [0] if not. *)
Definition exponent (s : string) : Z :=
  match s with
  | String c rest =>
      if Ascii.eqb c "e" || Ascii.eqb c "E" then
        let (minus, rest') := sign rest in
        match fst (digits rest') with
        | [] => 0
        | ds => if minus then - decimal ds else decimal ds
        end
      else 0
  | EmptyString => 0
  end.

(** [m * 10 ^ e] for [m > 0], rounded once to the nearest binary64
    (ties to even). A negative exponent is a division: the quotient is
    taken with at least 64 significant bits and one more bit that says
    whether anything was left, which is all that rounding to 53 bits
    needs to know. *)
Definition scale10 (minus : bool) (m e : Z) : float :=
  let signed z := if minus then - z else z in
  if 0 <=? e then
    SF2Prim (binary_normalize prec emax (signed (m * 10 ^ e)) 0 false)
  else
    let d := 10 ^ (- e) in
    let k := Z.log2 d + 64 in
    let q := (m * 2 ^ k) / d in
    let sticky := if (m * 2 ^ k) mod d =? 0 then 0 else 1 in
    SF2Prim (binary_normalize prec emax (signed (2 * q + sticky)) (- k - 1) false).

Definition signed_zero (minus : bool) : float :=
  if minus then neg_zero else zero.

(** [parseFloat(s)] for a text [s]. *)
Definition parseFloat (s : string) : float :=
  let (minus, body) := sign (trimStart s) in
  if String.prefix "Infinity" body then
    (if minus then neg_infinity else infinity)
  else
    let (int_part, after_int) := digits body in
    let (frac_part, after_frac) :=
      match after_int with
      | String "." rest => digits rest
      | _ => ([], after_int)
      end in
    match (int_part ++ frac_part)%list with
    | [] => nan
    | ds =>
        let m := decimal ds in
        let e := exponent after_frac - Z.of_nat (List.length frac_part) in
        if m =? 0 then signed_zero minus else scale10 minus m e
    end.

(** [parseInt(s, 10)] for a text [s]: an optional sign and the leading
    decimal digits. *)
Definition parseInt (s : string) : float :=
  let (minus, body) := sign (trimStart s) in
  match fst (digits body) with
  | [] => nan
  | ds =>
      let m := decimal ds in
      if m =? 0 then signed_zero minus else scale10 minus m 0
  end.

End JS.

Import JS.

(* ===================================================================== *)
(** * What the worker is given *)
(* ===================================================================== *)

(** The request headers: a finite map from lower-cased header names to
    their text. [headers.get(name)] ignores the case of [name] and gives
    [null] (here [None]) for a header that is not there. *)
Abbreviation Headers := (gmap string string).

Definition get (headers : Headers) (name : string) : option string :=
  headers !! toLowerCase name.

(** A request, as far as the worker looks at it; [pathname] stands for
    [new URL(request.url).pathname]. *)
Record Request := {
  method : string;
  pathname : string;
  headers : Headers
}.

(** The outcome of [await fetch(url)] followed by [await response.json()]:
    the call is rejected, or a response arrives with a status and a body
    that parses to a value or makes [json()] throw. *)
Inductive JsonOutcome :=
| JsonThrows (message : string)
| JsonValue (data : value).

Record Upstream := {
  upstream_status : Z;
  upstream_json : JsonOutcome
}.

Inductive FetchOutcome :=
| Rejects (message : string)
| Resolves (response : Upstream).

(** [response.ok] *)
Definition ok (response : Upstream) : bool :=
  (200 <=? upstream_status response) && (upstream_status response <=? 299).

(** The surroundings of one request: the clock that
    [new Date().toISOString()] reads and the network behind the global
    [fetch]. *)
Record Host := {
  now : string;
  network : string -> FetchOutcome
}.

(** What the worker answers. [JSON.stringify] is kept symbolic: a body
    is a literal text or the value handed to [JSON.stringify] with its
    indentation. *)
Inductive Text :=
| Literal (s : string)
| Stringified (v : value) (indent : option Z).

Record Response := {
  status : Z;
  response_headers : gmap string string;
  body : option Text
}.

(* ===================================================================== *)
(** * Mutation and exceptions *)
(* ===================================================================== *)

(** The enhanced handler updates [locationData] in place between calls
    that may throw, and what has been written before a throw stays
    written. Its statements are computations over a store that holds
    the record and the log of outbound requests, ending normally or
    with the message of the error thrown. *)
Module Exec.

Record store := {
  locationData : object;
  requests : list string
}.

Inductive completion (A : Type) :=
| Normal (a : A)
| Throw (message : string).
Arguments Normal {A} a.
Arguments Throw {A} message.

Definition t (A : Type) : Type := store -> completion A * store.

#[global] Instance exec_ret : MRet t := fun A a st => (Normal a, st).

#[global] Instance exec_bind : MBind t := fun A B k c st =>
  match c st with
  | (Normal a, st') => k a st'
  | (Throw message, st') => (Throw message, st')
  end.

Definition throw {A} (message : string) : t A :=
  fun st => (Throw message, st).

(** [try { body } catch (e) { handler(e.message) }] *)
Definition try_catch {A} (body : t A) (handler : string -> t A) : t A :=
  fun st =>
    match body st with
    | (Normal a, st') => (Normal a, st')
    | (Throw message, st') => handler message st'
    end.

(** [locationData.k] *)
Definition read (k : string) : t value :=
  fun st => (Normal (prop (locationData st) k), st).

(** [locationData.k = v] *)
Definition write (k : string) (v : value) : t unit :=
  fun st => (Normal tt, {| locationData := <[k := v]> (locationData st);
                           requests := requests st |}).

(** The record itself, to pass it to a function. *)
Definition this : t object :=
  fun st => (Normal (locationData st), st).

(** The text V8 gives the TypeError of a property access on [null] or
    [undefined]. *)
Definition cannot_read (v : value) (k : string) : string :=
  "Cannot read properties of "
  ++ (if is_null v then "null" else "undefined")
  ++ " (reading '" ++ k ++ "')".

Definition cannot_set (v : value) (k : string) : string :=
  "Cannot set properties of "
  ++ (if is_null v then "null" else "undefined")
  ++ " (setting '" ++ k ++ "')".

(** [v.k], which throws when [v] is [null] or [undefined]. *)
Definition member (v : value) (k : string) : t value :=
  match v with
  | VNull | VUndefined => throw (cannot_read v k)
  | _ => mret (field v k)
  end.

(** [locationData.k.k' = v]. The worker runs as a module, in strict
    mode, where setting a property on something that is not a record
    throws. *)
Definition write_in (k k' : string) (v : value) : t unit :=
  target ← read k;
  match target with
  | VObj props => write k (VObj (<[k' := v]> props))
  | VNull | VUndefined => throw (cannot_set target k')
  | _ => throw ("Cannot create property '" ++ k' ++ "'")
  end.

(** [await fetch(url)]: the request is logged, then the network decides. *)
Definition await_fetch (host : Host) (url : string) : t Upstream :=
  fun st =>
    let st' := {| locationData := locationData st;
                  requests := requests st ++ [url] |} in
    match network host url with
    | Rejects message => (Throw message, st')
    | Resolves response => (Normal response, st')
    end.

(** [await response.json()] *)
Definition await_json (response : Upstream) : t value :=
  match upstream_json response with
  | JsonThrows message => throw message
  | JsonValue data => mret data
  end.

(** A computation that makes no outbound request leaves the log alone. *)
Definition silent {A} (c : t A) : Prop :=
  ∀ st, requests (snd (c st)) = requests st.

End Exec.

(* ===================================================================== *)
(** * The worker *)
(* ===================================================================== *)

(** Truthiness of what [headers.get] returns, and the two ways the
    worker defaults it. *)
Definition present (text : option string) : bool :=
  match text with
  | Some s => negb (String.eqb s "")
  | None => false
  end.

(** [a || b] on header texts *)
Definition or_else (a b : option string) : option string :=
  if present a then a else b.

(** [a || 'literal'] *)
Definition or_text (a : option string) (literal : string) : string :=
  match a with
  | Some s => if present a then s else literal
  | None => literal
  end.

(** [a || null] *)
Definition or_null (a : option string) : value :=
  match a with
  | Some s => if present a then VStr s else VNull
  | None => VNull
  end.

(** ** [calculateDataQuality] *)

(** The value of [quality] once the ladder of lines 26-31 has run, as a
    function of [percentage]. *)
Definition calculateDataQuality_quality (percentage : float) : string :=
  let quality := "unknown" in
  if (80 <=? percentage)%float then let quality := "excellent" in quality
  else if (60 <=? percentage)%float then let quality := "good" in quality
  else if (40 <=? percentage)%float then let quality := "fair" in quality
  else if (20 <=? percentage)%float then let quality := "limited" in quality
  else let quality := "minimal" in quality.

Definition calculateDataQuality (headers : Headers) : object :=
  let fields := [
    "CF-IPCountry";
    "CF-Region";
    "CF-IPCity";
    "CF-IPLatitude";
    "CF-IPLongitude";
    "CF-Timezone";
    "CF-IPPostalCode"
  ] in
  let availableFields :=
    List.length (List.filter (fun field => present (get headers field)) fields) in
  let totalFields := List.length fields in
  let percentage :=
    Math_round ((of_nat availableFields / of_nat totalFields) * 100)%float in
  let quality := calculateDataQuality_quality percentage in
  list_to_map [
    ("score", VNum percentage);
    ("level", VStr quality);
    ("availableFields", VNum (of_nat availableFields));
    ("totalFields", VNum (of_nat totalFields))
  ].

(** ** [calculateEnhancedDataQuality] *)

(** Lines 249-254, the second copy of the ladder. *)
Definition calculateEnhancedDataQuality_quality (percentage : float) : string :=
  let quality := "unknown" in
  if (80 <=? percentage)%float then let quality := "excellent" in quality
  else if (60 <=? percentage)%float then let quality := "good" in quality
  else if (40 <=? percentage)%float then let quality := "fair" in quality
  else if (20 <=? percentage)%float then let quality := "limited" in quality
  else let quality := "minimal" in quality.

Definition calculateEnhancedDataQuality (locationData : object) : object :=
  let mainFields :=
    ["country"; "region"; "city"; "latitude"; "longitude"; "timezone"; "postalCode"] in
  let availableFields :=
    List.length
      (List.filter (fun field => negb (is_null (prop locationData field))) mainFields) in
  let percentage :=
    Math_round
      ((of_nat availableFields / of_nat (List.length mainFields)) * 100)%float in
  let quality := calculateEnhancedDataQuality_quality percentage in
  list_to_map [
    ("score", VNum percentage);
    ("level", VStr quality);
    ("availableFields", VNum (of_nat availableFields));
    ("totalFields", VNum (of_nat (List.length mainFields)))
  ].

(** ** [getCORSHeaders] and [handleCORS] *)

Definition getCORSHeaders : gmap string string :=
  list_to_map [
    ("Access-Control-Allow-Origin", "*");
    ("Access-Control-Allow-Methods", "GET, POST, OPTIONS");
    ("Access-Control-Allow-Headers", "Content-Type, Authorization");
    ("Access-Control-Max-Age", "86400")
  ].

Definition handleCORS : Response :=
  {| status := 200; response_headers := getCORSHeaders; body := None |}.

(** [{ 'Content-Type': 'application/json', ...getCORSHeaders() }]: the
    keys spread last win. *)
Definition json_headers : gmap string string :=
  getCORSHeaders ∪ {[ "Content-Type" := "application/json" ]}.

(** ** [extractLocationData] *)

(** [if (locationData.k) locationData.k = parse(locationData.k)], on a
    property that holds a header's text or [null]. *)
Definition parsed (parse : string -> float) (k : string) (locationData : object) : object :=
  match prop locationData k with
  | VStr s =>
      if truthy (VStr s) then <[k := VNum (parse s)]> locationData
      else locationData
  | _ => locationData
  end.

Definition extractLocationData (host : Host) (request : Request) : object :=
  let headers := headers request in
  let ip :=
    or_text
      (or_else (get headers "CF-Connecting-IP")
         (forwarded ← get headers "X-Forwarded-For";
          first ← head (split "," forwarded);
          Some (trim first)))
      "unknown" in
  let locationData : object := list_to_map [
    ("ip", VStr ip);
    ("country", or_null (get headers "CF-IPCountry"));
    ("region", or_null (get headers "CF-Region"));
    ("regionCode", or_null (get headers "CF-Region-Code"));
    ("city", or_null (get headers "CF-IPCity"));
    ("postalCode", or_null (get headers "CF-postal-code"));
    ("timezone", or_null (get headers "CF-Timezone"));
    ("latitude", or_null (get headers "CF-IPLatitude"));
    ("longitude", or_null (get headers "CF-IPLongitude"));
    ("metroCode", or_null (get headers "CF-MetroCode"));
    ("continent", or_null (get headers "CF-IPContinent"));
    ("asn", or_null (get headers "CF-ASN"));
    ("colo", or_null (ray ← get headers "CF-Ray"; split "-" ray !! 1%nat));
    ("timestamp", VStr (now host));
    ("userAgent", or_null (get headers "User-Agent"));
    ("acceptLanguage", or_null (get headers "Accept-Language"));
    ("requestId", or_null (get headers "CF-Ray"));
    ("visitorId", or_null (get headers "CF-Visitor"));
    ("ipType", VStr (if includes ip ":" then "IPv6" else "IPv4"));
    ("dataQuality", VObj (calculateDataQuality headers))
  ] in
  let locationData := parsed parseFloat "latitude" locationData in
  let locationData := parsed parseFloat "longitude" locationData in
  let locationData := parsed parseInt "metroCode" locationData in
  let locationData := parsed parseInt "asn" locationData in
  locationData.

(** ** [handleLocationRequest]

    Nothing in [extractLocationData] or in serialising its result can
    throw, so the [catch] of this handler has nothing to catch. *)
Definition handleLocationRequest (host : Host) (request : Request) : Response :=
  let locationData := extractLocationData host request in
  {| status := 200;
     response_headers := json_headers;
     body := Some (Stringified (VObj locationData) (Some 2)) |}.

(** ** [handleEnhancedLocationRequest] *)

(** [if (!locationData.k) locationData.k = fallbackData.from] *)
Definition fill (k from : string) (fallbackData : value) : Exec.t unit :=
  current ← Exec.read k;
  if negb (truthy current) then
    v ← Exec.member fallbackData from;
    Exec.write k v
  else mret tt.

(** Lines 93-115: what is done with the parsed answer. *)
Definition merge (fallbackData : value) : Exec.t unit :=
  city ← Exec.member fallbackData "city";
  region ← Exec.member fallbackData "region";
  latitude ← Exec.member fallbackData "latitude";
  longitude ← Exec.member fallbackData "longitude";
  timezone ← Exec.member fallbackData "timezone";
  postal ← Exec.member fallbackData "postal";
  org ← Exec.member fallbackData "org";
  Exec.write "fallback" (VObj (list_to_map [
    ("source", VStr "ipapi.co");
    ("city", JS.or city VNull);
    ("region", JS.or region VNull);
    ("latitude", JS.or latitude VNull);
    ("longitude", JS.or longitude VNull);
    ("timezone", JS.or timezone VNull);
    ("postalCode", JS.or postal VNull);
    ("org", JS.or org VNull)
  ]));;
  fill "city" "city" fallbackData;;
  fill "region" "region" fallbackData;;
  fill "latitude" "latitude" fallbackData;;
  fill "longitude" "longitude" fallbackData;;
  fill "timezone" "timezone" fallbackData;;
  fill "postalCode" "postal" fallbackData;;
  Exec.write_in "dataQuality" "enhanced" (VBool true);;
  locationData ← Exec.this;
  Exec.write_in "dataQuality" "enhancedScore"
    (VObj (calculateEnhancedDataQuality locationData)).

(** Lines 88-116, the body of the inner [try]. *)
Definition enhance (host : Host) : Exec.t unit :=
  ip ← Exec.read "ip";
  fallbackResponse ← Exec.await_fetch host ("https://ipapi.co/" ++ ToString ip ++ "/json/");
  if ok fallbackResponse then
    fallbackData ← Exec.await_json fallbackResponse;
    merge fallbackData
  else mret tt.

(** Lines 86-120: the escalation, when the level calls for it, with
    its [catch]. *)
Definition escalate (host : Host) : Exec.t unit :=
  dataQuality ← Exec.read "dataQuality";
  level ← Exec.member dataQuality "level";
  if is_string level "minimal" || is_string level "limited" then
    Exec.try_catch (enhance host)
      (fun message => Exec.write "fallbackError" (VStr message))
  else mret tt.

(** The handler answers with the response and the outbound requests it
    has made. *)
Definition handleEnhancedLocationRequest (host : Host) (request : Request)
  : Response * list string :=
  let start := {| Exec.locationData := extractLocationData host request;
                  Exec.requests := [] |} in
  match escalate host start with
  | (Exec.Normal _, final) =>
      ({| status := 200;
          response_headers := json_headers;
          body := Some (Stringified (VObj (Exec.locationData final)) (Some 2)) |},
       Exec.requests final)
  | (Exec.Throw message, final) =>
      ({| status := 500;
          response_headers := json_headers;
          body := Some (Stringified
                    (VObj (list_to_map [
                       ("error", VStr "Failed to process enhanced location request");
                       ("message", VStr message)]))
                    None) |},
       Exec.requests final)
  end.

(** ** [fetch], the entry point *)

Definition fetch (host : Host) (request : Request) : Response * list string :=
  if String.eqb (method request) "OPTIONS" then (handleCORS, [])
  else if String.eqb (pathname request) "/location"
          || String.eqb (pathname request) "/" then
    (handleLocationRequest host request, [])
  else if String.eqb (pathname request) "/location-enhanced" then
    handleEnhancedLocationRequest host request
  else if String.eqb (pathname request) "/health" then
    ({| status := 200;
        response_headers := json_headers;
        body := Some (Stringified
                  (VObj (list_to_map [("status", VStr "ok");
                                      ("timestamp", VStr (now host))]))
                  None) |},
     [])
  else
    ({| status := 404;
        response_headers := getCORSHeaders;
        body := Some (Literal "Not Found") |},
     []).

(* ===================================================================== *)
(** * The specification's vocabulary *)
(* ===================================================================== *)

Module Spec.

(** [round]: the nearest integer, a half going up. *)
Definition round (q : Q) : Z := Qfloor (q + (1 # 2)).

(** A header is present when it is there and not empty. *)
Definition is_present (text : option string) : Prop :=
  ∃ s, text = Some s ∧ s ≠ "".

#[global] Instance is_present_dec text : Decision (is_present text).
Proof.
  destruct text as [s|].
  - destruct (decide (s = "")) as [->|Hs].
    + right. intros (s' & [= <-] & Hne). by apply Hne.
    + left. by exists s.
  - right. by intros (s & [=] & _).
Defined.

(** The seven designated fields, by the header the raw scorer reads
    each from. *)
Definition designated_headers : list string :=
  ["CF-IPCountry"; "CF-Region"; "CF-IPCity"; "CF-IPLatitude";
   "CF-IPLongitude"; "CF-Timezone"; "CF-IPPostalCode"].

Definition count_present (headers : Headers) : nat :=
  length (filter (fun name => is_present (get headers name)) designated_headers).

(** The seven designated fields, by attribute of the record. *)
Definition designated_attributes : list string :=
  ["country"; "region"; "city"; "latitude"; "longitude"; "timezone"; "postalCode"].

(** An attribute is set when it holds a value: neither [null] nor
    [undefined] (nor missing, which reads as [undefined]). *)
Definition is_set (v : value) : Prop := v ≠ VNull ∧ v ≠ VUndefined.

#[global] Instance is_set_dec v : Decision (is_set v).
Proof.
  destruct v; try (left; split; discriminate);
    right; intros [H1 H2]; congruence.
Defined.

Definition count_set (record : object) : nat :=
  length (filter (fun name => is_set (prop record name)) designated_attributes).

(** What the enhanced scorer's own test counts: the attributes that are
    not [null]. *)
Definition not_null (v : value) : Prop := v ≠ VNull.

#[global] Instance not_null_dec v : Decision (not_null v).
Proof. destruct v; try (left; discriminate); right; intros H; by apply H. Defined.

Definition count_not_null (record : object) : nat :=
  length (filter (fun name => not_null (prop record name)) designated_attributes).

(** The level of a score, thresholds tried from the highest down. *)
Definition level (score : Z) : string :=
  if 80 <=? score then "excellent"
  else if 60 <=? score then "good"
  else if 40 <=? score then "fair"
  else if 20 <=? score then "limited"
  else "minimal".

(** The order of the tiers. *)
Definition rank (level : string) : nat :=
  if String.eqb level "minimal" then 1
  else if String.eqb level "limited" then 2
  else if String.eqb level "fair" then 3
  else if String.eqb level "good" then 4
  else if String.eqb level "excellent" then 5
  else 0.

Definition score (availableFields totalFields : nat) : Z :=
  round (100 * inject_Z (Z.of_nat availableFields) / inject_Z (Z.of_nat totalFields)).

(** The quality assessment of the data model, for a count of available
    fields out of seven. *)
Definition assessment (availableFields : nat) : object :=
  list_to_map [
    ("score", VNum (of_Z (score availableFields 7)));
    ("level", VStr (level (score availableFields 7)));
    ("availableFields", VNum (of_nat availableFields));
    ("totalFields", VNum (of_nat 7))
  ].

(** The enhancement call has failed: a network error, a status outside
    2xx, or a body that does not parse. *)
Definition failed (outcome : FetchOutcome) : Prop :=
  match outcome with
  | Rejects _ => True
  | Resolves response =>
      ok response = false ∨ ∃ message, upstream_json response = JsonThrows message
  end.

(** The answer that carries a record: status 200 and the record as
    indented JSON. *)
Definition success (record : object) : Response :=
  {| status := 200;
     response_headers := json_headers;
     body := Some (Stringified (VObj record) (Some 2)) |}.

(** The address of the enhancement call for a record. *)
Definition lookup_url (record : object) : string :=
  "https://ipapi.co/" ++ ToString (prop record "ip") ++ "/json/".

(** The level in the record's [dataQuality]. *)
Definition level_of (record : object) : value :=
  field (prop record "dataQuality") "level".

Definition low (level : value) : Prop :=
  level = VStr "minimal" ∨ level = VStr "limited".

(** The claim about a failed enhancement, at one request: the answer
    still has status 200 and carries the baseline record with the
    failure's message added as [fallbackError], and nothing else changed. *)
Definition failure_is_recorded (host : Host) (request : Request)
    (result : Response * list string) : Prop :=
  let baseline := extractLocationData host request in
  low (level_of baseline) →
  failed (network host (lookup_url baseline)) →
  status (fst result) = 200
  ∧ ∃ message record,
      body (fst result) = Some (Stringified (VObj record) (Some 2))
      ∧ record !! "fallbackError" = Some (VStr message)
      ∧ delete "fallbackError" record = delete "fallbackError" baseline.

End Spec.

(* ===================================================================== *)
(** * The stores of a run *)
(* ===================================================================== *)

(** The store the handler starts from. *)
Definition start (host : Host) (request : Request) : Exec.store :=
  {| Exec.locationData := extractLocationData host request; Exec.requests := [] |}.

(** The store once the call has been logged. *)
Definition logged (st : Exec.store) : Exec.store :=
  {| Exec.locationData := Exec.locationData st;
     Exec.requests := (Exec.requests st ++ [Spec.lookup_url (Exec.locationData st)])%list |}.

(** The inner [try] with its [catch]. *)
Definition guarded (host : Host) : Exec.t unit :=
  Exec.try_catch (enhance host)
    (fun message => Exec.write "fallbackError" (VStr message)).

(** ** The merge as a function on records

    What lines 93-115 make of the record when nothing throws, written
    without the monad; lemma [merge_runs] shows that [merge] computes it. *)

(** The record after [if (!locationData.k) locationData.k = fallbackData.from]. *)
Definition filled (k from : string) (fallbackData : value) (record : object) : object :=
  if truthy (prop record k) then record
  else <[k := field fallbackData from]> record.

(** The record after [locationData.fallback = { source: 'ipapi.co', ... }]. *)
Definition with_fallback (fallbackData : value) (record : object) : object :=
  <["fallback" := VObj (list_to_map [
      ("source", VStr "ipapi.co");
      ("city", JS.or (field fallbackData "city") VNull);
      ("region", JS.or (field fallbackData "region") VNull);
      ("latitude", JS.or (field fallbackData "latitude") VNull);
      ("longitude", JS.or (field fallbackData "longitude") VNull);
      ("timezone", JS.or (field fallbackData "timezone") VNull);
      ("postalCode", JS.or (field fallbackData "postal") VNull);
      ("org", JS.or (field fallbackData "org") VNull)
    ])]> record.

(** The record once the six fields have been filled. *)
Definition all_filled (fallbackData : value) (record : object) : object :=
  filled "postalCode" "postal" fallbackData
    (filled "timezone" "timezone" fallbackData
       (filled "longitude" "longitude" fallbackData
          (filled "latitude" "latitude" fallbackData
             (filled "region" "region" fallbackData
                (filled "city" "city" fallbackData
                   (with_fallback fallbackData record)))))).

(** The record after [locationData.dataQuality.k = v], for an
    assessment [props] that the record holds. *)
Definition marked (k : string) (v : value) (props record : object) : object :=
  <["dataQuality" := VObj (<[k := v]> props)]> record.

Definition merged (fallbackData : value) (assessment record : object) : object :=
  let enhanced := marked "enhanced" (VBool true) assessment
                    (all_filled fallbackData record) in
  marked "enhancedScore" (VObj (calculateEnhancedDataQuality enhanced))
    (<["enhanced" := VBool true]> assessment) enhanced.

(** Where the merge takes the value of a field from. *)
Definition source_of (k : string) : string :=
  if String.eqb k "postalCode" then "postal" else k.

Definition mergeable : list string :=
  ["city"; "region"; "latitude"; "longitude"; "timezone"; "postalCode"].

(** A host whose lookup service answers every call the same way. *)
Definition answering (outcome : FetchOutcome) : Host :=
  {| now := "2026-01-01T00:00:00.000Z"; network := fun _ => outcome |}.

Definition enhanced_request (headers : Headers) : Request :=
  {| method := "GET"; pathname := "/location-enhanced"; headers := headers |}.

(* ===================================================================== *)
(** * Vocabulary for texts *)
(* ===================================================================== *)

(** The text [s] has no character [c]. *)
Definition free_of (c : ascii) (s : string) : Prop :=
  ¬ In c (list_ascii_of_string s).

(** Every character of the text is white space. *)
Definition blank (s : string) : Prop :=
  ∀ c, In c (list_ascii_of_string s) → is_space c = true.

(** The text starts with white space. *)
Definition starts_blank (s : string) : bool :=
  match s with
  | String c _ => is_space c
  | EmptyString => false
  end.

(** No white space at either end. *)
Definition unpadded (s : string) : Prop :=
  starts_blank s = false ∧ starts_blank (reverse s) = false.

(** [trimStart] on a list of characters. *)
Fixpoint lstrip (l : list ascii) : list ascii :=
  match l with
  | c :: rest => if is_space c then lstrip rest else l
  | [] => []
  end.

(* ===================================================================== *)
(** * Vocabulary for records *)
(* ===================================================================== *)

(** The keys of a fresh record. *)
Definition record_keys : list string :=
  ["ip"; "country"; "region"; "regionCode"; "city"; "postalCode"; "timezone";
   "latitude"; "longitude"; "metroCode"; "continent"; "asn"; "colo";
   "timestamp"; "userAgent"; "acceptLanguage"; "requestId"; "visitorId";
   "ipType"; "dataQuality"].

(** The attributes that carry a header's text as it is, with the header
    each comes from. *)
Definition text_fields : list (string * string) :=
  [("country", "CF-IPCountry"); ("region", "CF-Region");
   ("regionCode", "CF-Region-Code"); ("city", "CF-IPCity");
   ("postalCode", "CF-postal-code"); ("timezone", "CF-Timezone");
   ("continent", "CF-IPContinent"); ("userAgent", "User-Agent");
   ("acceptLanguage", "Accept-Language"); ("requestId", "CF-Ray");
   ("visitorId", "CF-Visitor")].

(** The attributes that are parsed, with header and parser. *)
Definition number_fields : list (string * string * (string -> float)) :=
  [("latitude", "CF-IPLatitude", parseFloat);
   ("longitude", "CF-IPLongitude", parseFloat);
   ("metroCode", "CF-MetroCode", parseInt);
   ("asn", "CF-ASN", parseInt)].

(** The six attributes that the raw scorer and the extractor read from
    the same header. *)
Definition shared_attributes : list string :=
  ["country"; "region"; "city"; "latitude"; "longitude"; "timezone"].

Definition count_shared (record : object) : nat :=
  length (filter (fun name => Spec.not_null (prop record name)) shared_attributes).

(* ===================================================================== *)
(** * Vocabulary for the outcomes of the enhancement call *)
(* ===================================================================== *)

(** The answer was read and merged. *)
Definition merged_answer (outcome : FetchOutcome) : Prop :=
  ∃ upstream fallbackData,
    outcome = Resolves upstream ∧ ok upstream = true
    ∧ upstream_json upstream = JsonValue fallbackData
    ∧ fallbackData ≠ VNull ∧ fallbackData ≠ VUndefined.

(** Something was thrown and caught. *)
Definition caught (outcome : FetchOutcome) : Prop :=
  (∃ message, outcome = Rejects message)
  ∨ ∃ upstream, outcome = Resolves upstream ∧ ok upstream = true
      ∧ ((∃ message, upstream_json upstream = JsonThrows message)
         ∨ upstream_json upstream = JsonValue VNull
         ∨ upstream_json upstream = JsonValue VUndefined).

(* ===================================================================== *)
(** * The host language, continued: conversions *)
(* ===================================================================== *)

(** What the client library leans on beyond the worker's fragment:
    ToString and ToNumber on every value, and what a value becomes when
    it is written as JSON and read back. *)
Module Convert.

(** ** Number::toString *)

(** The decimal digits of a natural number. *)
Definition decimal_text (n : Z) : string :=
  NilEmpty.string_of_uint (N.to_uint (Z.to_N n)).

(** A positive finite number [m * 2 ^ e] as a fraction. *)
Definition numerator (m : positive) (e : Z) : Z := Z.pos m * 2 ^ Z.max e 0.
Definition denominator (e : Z) : Z := 2 ^ Z.max (- e) 0.

(** [num / den < 10 ^ n] *)
Definition below_power (num den n : Z) : bool :=
  if 0 <=? n then num <? 10 ^ n * den else num * 10 ^ (- n) <? den.

(** The least [n] from [start] on with [num / den < 10 ^ n]. *)
Fixpoint magnitude (fuel : nat) (num den start : Z) : Z :=
  match fuel with
  | O => start
  | S fuel' =>
      if below_power num den start then start
      else magnitude fuel' num den (start + 1)
  end.

(** A number below the decimal magnitude of [num / den], taken from its
    binary one: [log10 2 < 30103 / 100000]. *)
Definition magnitude_start (num den : Z) : Z :=
  (Z.log2 num - Z.log2 den) * 30103 / 100000 - 1.

(** The decimals of [k] digits next to [x = num / den < 10 ^ n]: those
    [(s, n')] with [10 ^ (k - 1) <= s < 10 ^ k] for which
    [s * 10 ^ (n' - k)] reads back as [x], the nearer one first (the
    even one on a tie). Rounding up to [10 ^ k] moves the point. *)
Definition candidates (x : float) (num den n k : Z) : list (Z * Z) :=
  let up := num * 10 ^ Z.max (k - n) 0 in
  let down := den * 10 ^ Z.max (n - k) 0 in
  let low := up / down in
  let high := low + 1 in
  let fits s := (10 ^ (k - 1) <=? s) && (s <? 10 ^ k) in
  let exact s n' := PrimFloat.eqb (scale10 false s (n' - k)) x in
  let low_ok := fits low && exact low n in
  let high_c := if high =? 10 ^ k then (10 ^ (k - 1), n + 1) else (high, n) in
  let high_ok := exact (fst high_c) (snd high_c) in
  let twice := 2 * up - (2 * low + 1) * down in
  let low_first := (twice <? 0) || ((twice =? 0) && Z.even low) in
  let ordered := if low_first then [(low_ok, (low, n)); (high_ok, high_c)]
                 else [(high_ok, high_c); (low_ok, (low, n))] in
  List.map snd (List.filter fst ordered).

(** The shortest decimal that reads back as [x]: its digits [s], the
    position [n] of the point and the number [k] of digits. Seventeen
    digits are always enough for a binary64. *)
Fixpoint shortest (fuel : nat) (x : float) (num den n k : Z) : Z * Z * Z :=
  match fuel with
  | O => (0, n, k)
  | S fuel' =>
      match candidates x num den n k with
      | (s, n') :: _ => (s, n', k)
      | [] => shortest fuel' x num den n (k + 1)
      end
  end.

Fixpoint zeros (n : nat) : string :=
  match n with
  | O => EmptyString
  | S n' => String "0" (zeros n')
  end.

(** The digits [s] laid out with the point at [n]: plain up to 21
    digits before the point and down to 6 zeros after it, with an
    exponent beyond. *)
Definition layout (s n k : Z) : string :=
  let ds := decimal_text s in
  if (k <=? n) && (n <=? 21) then ds ++ zeros (Z.to_nat (n - k))
  else if (0 <? n) && (n <=? 21) then
    substring 0 (Z.to_nat n) ds ++ "."
    ++ substring (Z.to_nat n) (Z.to_nat (k - n)) ds
  else if (-6 <? n) && (n <=? 0) then "0." ++ zeros (Z.to_nat (- n)) ++ ds
  else
    let e := n - 1 in
    let exponent := (if e <? 0 then "-" else "+") ++ decimal_text (Z.abs e) in
    if k =? 1 then ds ++ "e" ++ exponent
    else substring 0 1 ds ++ "." ++ substring 1 (Z.to_nat (k - 1)) ds
         ++ "e" ++ exponent.

(** [Number::toString(x)] in radix 10. *)
Definition Number_toString (x : float) : string :=
  match Prim2SF x with
  | S754_nan => "NaN"
  | S754_zero _ => "0"
  | S754_infinity false => "Infinity"
  | S754_infinity true => "-Infinity"
  | S754_finite minus m e =>
      let num := numerator m e in
      let den := denominator e in
      let n := magnitude 8 num den (magnitude_start num den) in
      let '(s, n', k) := shortest 17 (abs x) num den n 1 in
      (if minus then "-" else "") ++ layout s n' k
  end.

(** ** ToString *)

(** [pieces.join(sep)] on texts. *)
Fixpoint join (sep : string) (pieces : list string) : string :=
  match pieces with
  | [] => EmptyString
  | [piece] => piece
  | piece :: rest => piece ++ sep ++ join sep rest
  end.

(** ToString on every value. An array is its elements joined by a
    comma, [null] and [undefined] among them counting as empty. *)
Fixpoint ToString (v : value) : string :=
  match v with
  | VUndefined => "undefined"
  | VNull => "null"
  | VBool true => "true"
  | VBool false => "false"
  | VNum n => Number_toString n
  | VStr s => s
  | VArr elems =>
      join ","
        (List.map (fun elem => match elem with
                               | VUndefined | VNull => EmptyString
                               | _ => ToString elem
                               end) elems)
  | VObj _ => "[object Object]"
  end.

(** [elems.join(sep)] on values. *)
Definition Array_join (sep : string) (elems : list value) : string :=
  join sep
    (List.map (fun elem => match elem with
                           | VUndefined | VNull => EmptyString
                           | _ => ToString elem
                           end) elems).

(** ** ToNumber *)

(** The value of a digit in a radix up to 16, if it is one. *)
Definition digit_in (radix : Z) (c : ascii) : option Z :=
  let n := Z.of_nat (nat_of_ascii c) in
  let v := if (48 <=? n) && (n <=? 57) then n - 48
           else if (97 <=? n) && (n <=? 102) then n - 87
           else if (65 <=? n) && (n <=? 70) then n - 55
           else radix in
  if v <? radix then Some v else None.

(** The number a text of digits writes in a radix, if it is all digits. *)
Fixpoint numeral (radix acc : Z) (s : string) : option Z :=
  match s with
  | EmptyString => Some acc
  | String c rest =>
      match digit_in radix c with
      | Some v => numeral radix (radix * acc + v) rest
      | None => None
      end
  end.

(** What follows [0x], [0o] or [0b]: at least one digit, nothing else. *)
Definition radix_literal (radix : Z) (s : string) : float :=
  match s with
  | EmptyString => nan
  | _ => match numeral radix 0 s with
         | Some z => of_Z z
         | None => nan
         end
  end.

(** A whole ExponentPart, or nothing. *)
Definition exponent_part (s : string) : option Z :=
  match s with
  | EmptyString => Some 0
  | String c rest =>
      if Ascii.eqb c "e" || Ascii.eqb c "E" then
        let (minus, rest') := sign rest in
        match digits rest' with
        | ([], _) => None
        | (ds, EmptyString) => Some (if minus then - decimal ds else decimal ds)
        | (_, String _ _) => None
        end
      else None
  end.

(** A text that is a StrDecimalLiteral from end to end. *)
Definition StrDecimalLiteral (s : string) : float :=
  let (minus, body) := sign s in
  if String.eqb body "Infinity" then
    (if minus then neg_infinity else infinity)
  else
    let (int_part, after_int) := digits body in
    let (frac_part, after_frac) :=
      match after_int with
      | String "." rest => digits rest
      | _ => ([], after_int)
      end in
    match (int_part ++ frac_part)%list with
    | [] => nan
    | ds =>
        match exponent_part after_frac with
        | Some e =>
            let m := decimal ds in
            if m =? 0 then signed_zero minus
            else scale10 minus m (e - Z.of_nat (List.length frac_part))
        | None => nan
        end
    end.

(** StringToNumber: white space around the text does not count, an
    empty text is [0], and a text that is not a numeric literal from
    end to end is NaN. *)
Definition StringToNumber (s : string) : float :=
  let text := trim s in
  match text with
  | EmptyString => zero
  | String "0" (String c rest) =>
      if Ascii.eqb c "x" || Ascii.eqb c "X" then radix_literal 16 rest
      else if Ascii.eqb c "o" || Ascii.eqb c "O" then radix_literal 8 rest
      else if Ascii.eqb c "b" || Ascii.eqb c "B" then radix_literal 2 rest
      else StrDecimalLiteral text
  | _ => StrDecimalLiteral text
  end.

Definition ToNumber (v : value) : float :=
  match v with
  | VUndefined => nan
  | VNull => zero
  | VBool true => one
  | VBool false => zero
  | VNum n => n
  | VStr s => StringToNumber s
  | VArr _ | VObj _ => StringToNumber (ToString v)
  end.

(** ** JSON *)

(** [JSON.parse(JSON.stringify(v))] for a value [v] of this model other
    than [undefined] itself: a property that holds [undefined] is left
    out, an element that is [undefined] becomes [null], and so does a
    number that is not finite; [-0] is written as [0]. *)
Fixpoint JSON_copy (v : value) : value :=
  match v with
  | VNum n => if is_finite n then VNum (if is_zero n then zero else n) else VNull
  | VArr elems =>
      VArr (List.map (fun elem => match elem with
                                  | VUndefined => VNull
                                  | _ => JSON_copy elem
                                  end) elems)
  | VObj props =>
      VObj (omap (fun member => match member with
                                | VUndefined => None
                                | _ => Some (JSON_copy member)
                                end) props)
  | _ => v
  end.

End Convert.

(* ===================================================================== *)
(** * The client library *)
(* ===================================================================== *)

Module Client.

(** ** What the client is given *)

(** An error, as far as the client looks at it: [error.name] and
    [error.message]. *)
Record Error := {
  name : string;
  message : string
}.

(** [new Error(message)] *)
Definition new_Error (message : string) : Error :=
  {| name := "Error"; message := message |}.

Definition TypeError (message : string) : Error :=
  {| name := "TypeError"; message := message |}.

(** A response as the client reads it: [status], [statusText] and what
    [await response.json()] gives. *)
Record Reply := {
  reply_status : Z;
  statusText : string;
  reply_json : Error + value
}.

(** [response.ok] *)
Definition reply_ok (response : Reply) : bool :=
  (200 <=? reply_status response) && (reply_status response <=? 299).

Inductive Settled :=
| Rejected (error : Error)
| Fulfilled (response : Reply).

(** One call of the global [fetch]: the address, the [headers] of its
    second argument, and the delay after which its signal aborts it. *)
Record Call := {
  url : string;
  init_headers : object;
  abort_after : value
}.

(** The surroundings of the client: the successive readings of
    [Date.now()], how the network settles a call (the earlier calls
    counted; the race between the abort timer and the network is the
    network's to decide, an aborted call being rejected with an error
    named [AbortError]), what [JSON.parse] makes of a text that was not
    written here, and whether [setItem] takes a text or throws. *)
Record Browser := {
  clock : nat -> float;
  network : nat -> Call -> Settled;
  JSON_parse : string -> Error + value;
  stores : Text -> bool
}.

(** ** State and exceptions *)

(** [localStorage], or [None] where there is none; how often the clock
    has been read; the calls made. A storage is a finite map from keys
    to texts that can be read and cleared at will; one whose very
    access throws, where the browser denies it, is not modelled. *)
Record state := {
  localStorage : option (gmap string Text);
  readings : nat;
  calls : list Call
}.

Inductive completion (A : Type) :=
| Return (a : A)
| Throw (error : Error).
Arguments Return {A} a.
Arguments Throw {A} error.

Definition M (A : Type) : Type := state -> completion A * state.

#[global] Instance client_ret : MRet M := fun A a st => (Return a, st).

#[global] Instance client_bind : MBind M := fun A B k c st =>
  match c st with
  | (Return a, st') => k a st'
  | (Throw error, st') => (Throw error, st')
  end.

Definition throw {A} (error : Error) : M A :=
  fun st => (Throw error, st).

(** [try { body } catch (error) { handler(error) }] *)
Definition try_catch {A} (body : M A) (handler : Error -> M A) : M A :=
  fun st =>
    match body st with
    | (Return a, st') => (Return a, st')
    | (Throw error, st') => handler error st'
    end.

(** [v.k], which throws when [v] is [null] or [undefined]. *)
Definition member (v : value) (k : string) : M value :=
  match v with
  | VNull | VUndefined => throw (TypeError (Exec.cannot_read v k))
  | _ => mret (field v k)
  end.

(** [typeof localStorage === 'undefined'] *)
Definition localStorage_undefined : M bool :=
  fun st => (Return (bool_decide (localStorage st = None)), st).

Definition not_defined : Error :=
  {| name := "ReferenceError"; message := "localStorage is not defined" |}.

(** [localStorage.getItem(key)] *)
Definition getItem (key : string) : M (option Text) :=
  fun st =>
    match localStorage st with
    | Some items => (Return (items !! key), st)
    | None => (Throw not_defined, st)
    end.

Definition QuotaExceededError : Error :=
  {| name := "QuotaExceededError"; message := "The quota has been exceeded." |}.

(** [localStorage.setItem(key, text)] *)
Definition setItem (browser : Browser) (key : string) (text : Text) : M unit :=
  fun st =>
    match localStorage st with
    | Some items =>
        if stores browser text then
          (Return tt, {| localStorage := Some (<[key := text]> items);
                         readings := readings st;
                         calls := calls st |})
        else (Throw QuotaExceededError, st)
    | None => (Throw not_defined, st)
    end.

(** [localStorage.removeItem(key)] *)
Definition removeItem (key : string) : M unit :=
  fun st =>
    match localStorage st with
    | Some items =>
        (Return tt, {| localStorage := Some (delete key items);
                       readings := readings st;
                       calls := calls st |})
    | None => (Throw not_defined, st)
    end.

(** [Date.now()] *)
Definition Date_now (browser : Browser) : M float :=
  fun st =>
    (Return (clock browser (readings st)),
     {| localStorage := localStorage st;
        readings := S (readings st);
        calls := calls st |}).

(** [!text] *)
Definition is_empty (text : Text) : bool :=
  match text with
  | Literal s => String.eqb s ""
  | Stringified _ _ => false
  end.

(** What [JSON.parse] makes of a text. *)
Definition parse (browser : Browser) (text : Text) : Error + value :=
  match text with
  | Literal s => JSON_parse browser s
  | Stringified v _ => inr (Convert.JSON_copy v)
  end.

Definition settle {A} (outcome : Error + A) : M A :=
  match outcome with
  | inl error => throw error
  | inr a => mret a
  end.

(** [await fetch(url, { signal, headers })]: the call is logged, then
    the network decides. *)
Definition await_fetch (browser : Browser) (call : Call) : M Reply :=
  fun st =>
    let st' := {| localStorage := localStorage st;
                  readings := readings st;
                  calls := (calls st ++ [call])%list |} in
    match network browser (length (calls st)) call with
    | Rejected error => (Throw error, st')
    | Fulfilled response => (Return response, st')
    end.

(** [{ ...v }]: the own properties of a record, the elements of an
    array or the characters of a text by their index, and nothing of
    anything else. *)
Definition spread (v : value) : object :=
  match v with
  | VObj props => props
  | VArr elems =>
      list_to_map (imap (fun i elem => (Convert.decimal_text (Z.of_nat i), elem)) elems)
  | VStr s =>
      list_to_map (imap (fun i c => (Convert.decimal_text (Z.of_nat i),
                                      VStr (String c EmptyString)))
                     (list_ascii_of_string s))
  | _ => ∅
  end.

(** ** [LocationClient] *)

Record LocationClient := {
  baseUrl : string;
  timeout : value;
  cache : bool;
  cacheKey : string;
  cacheTTL : value
}.

(** [s.replace(/\/$/, '')]: one slash at the very end is dropped. *)
Fixpoint strip_slash (s : string) : string :=
  match s with
  | String c rest =>
      match rest with
      | EmptyString => if Ascii.eqb c "/" then EmptyString else s
      | String _ _ => String c (strip_slash rest)
      end
  | EmptyString => EmptyString
  end.

(** [new LocationClient(baseUrl, options)] *)
Definition constructor (baseUrl options : value) : Error + LocationClient :=
  let options := match options with
                 | VUndefined => VObj ∅
                 | _ => options
                 end in
  match baseUrl with
  | VStr s =>
      match options with
      | VNull => inl (TypeError (Exec.cannot_read options "timeout"))
      | _ =>
          inr {| baseUrl := strip_slash s;
                 timeout := JS.or (field options "timeout") (VNum (of_Z 5000));
                 cache := negb (match field options "cache" with
                                | VBool false => true
                                | _ => false
                                end);
                 cacheKey := "cf-location-data";
                 cacheTTL := JS.or (field options "cacheTTL") (VNum (of_Z 300000)) |}
      end
  | VNull | VUndefined => inl (TypeError (Exec.cannot_read baseUrl "replace"))
  | _ => inl (TypeError "baseUrl.replace is not a function")
  end.

(** [now - timestamp > this.cacheTTL] *)
Definition expired (this : LocationClient) (now : float) (timestamp : value) : bool :=
  (Convert.ToNumber (cacheTTL this) <? now - Convert.ToNumber timestamp)%float.

(** ** [getCachedLocation] *)
Definition getCachedLocation (browser : Browser) (this : LocationClient) : M value :=
  undefined ← localStorage_undefined;
  if undefined : bool then mret VNull
  else
    try_catch
      (cached ← getItem (cacheKey this);
       match cached with
       | Some text =>
           if is_empty text then mret VNull
           else
             data ← settle (parse browser text);
             now ← Date_now browser;
             timestamp ← member data "timestamp";
             if expired this now timestamp then
               removeItem (cacheKey this);;
               mret VNull
             else member data "location"
       | None => mret VNull
       end)
      (fun error =>
         removeItem (cacheKey this);;
         mret VNull).

(** ** [setCachedLocation] *)
Definition setCachedLocation (browser : Browser) (this : LocationClient)
    (location : value) : M unit :=
  undefined ← localStorage_undefined;
  if undefined : bool then mret tt
  else
    try_catch
      (now ← Date_now browser;
       let data := VObj (list_to_map [("location", location);
                                      ("timestamp", VNum now)]) in
       setItem browser (cacheKey this) (Stringified data None))
      (fun error => mret tt).


(** [`HTTP ${response.status}: ${response.statusText}`] *)
Definition http_error (response : Reply) : Error :=
  new_Error ("HTTP " ++ Convert.ToString (VNum (of_Z (reply_status response)))
             ++ ": " ++ statusText response).

(** ** [getLocation] *)
Definition getLocation (browser : Browser) (this : LocationClient)
    (options : value) : M value :=
  let options := match options with
                 | VUndefined => VObj ∅
                 | _ => options
                 end in
  hit ← (if cache this then
           fresh ← member options "fresh";
           if negb (truthy fresh) then
             cached ← getCachedLocation browser this;
             mret (if truthy cached then Some cached else None)
           else mret None
         else mret None);
  match hit with
  | Some cached => mret cached
  | None =>
      try_catch
        (headers ← member options "headers";
         response ← await_fetch browser
           {| url := baseUrl this ++ "/location";
              init_headers := spread headers ∪ {[ "Accept" := VStr "application/json" ]};
              abort_after := timeout this |};
         if negb (reply_ok response) then throw (http_error response)
         else
           data ← settle (reply_json response);
           (if cache this then setCachedLocation browser this data else mret tt);;
           mret data)
        (fun error =>
           if String.eqb (name error) "AbortError" then
             throw (new_Error "Request timeout")
           else throw error)
  end.

(** ** [getHealth] *)
Definition getHealth (browser : Browser) (this : LocationClient) : M value :=
  try_catch
    (response ← await_fetch browser
       {| url := baseUrl this ++ "/health";
          init_headers := {[ "Accept" := VStr "application/json" ]};
          abort_after := timeout this |};
     if negb (reply_ok response) then throw (http_error response)
     else settle (reply_json response))
    (fun error =>
       if String.eqb (name error) "AbortError" then
         throw (new_Error "Health check timeout")
       else throw error).

(** ** [formatLocation] *)
Definition formatLocation (location : value) : Error + string :=
  match location with
  | VNull | VUndefined => inl (TypeError (Exec.cannot_read location "city"))
  | _ =>
      let parts := [] in
      let parts := if truthy (field location "city")
                   then (parts ++ [field location "city"])%list else parts in
      let parts := if truthy (field location "region")
                   then (parts ++ [field location "region"])%list else parts in
      let parts := if truthy (field location "country")
                   then (parts ++ [field location "country"])%list else parts in
      let text := Convert.Array_join ", " parts in
      inr (if String.eqb text "" then "Unknown Location" else text)
  end.

(** ** [isEU] *)
Definition isEU (location : value) : Error + bool :=
  let euCountries := [
    "AT"; "BE"; "BG"; "HR"; "CY"; "CZ"; "DK"; "EE"; "FI"; "FR";
    "DE"; "GR"; "HU"; "IE"; "IT"; "LV"; "LT"; "LU"; "MT"; "NL";
    "PL"; "PT"; "RO"; "SK"; "SI"; "ES"; "SE"
  ] in
  match location with
  | VNull | VUndefined => inl (TypeError (Exec.cannot_read location "country"))
  | _ => inr (existsb (is_string (field location "country")) euCountries)
  end.

End Client.

(* ===================================================================== *)
(** * The client in front of the worker *)
(* ===================================================================== *)

(** The worker's answer as the client's [fetch] hands it over: the
    status as it is, a status text of the transport's choosing, and the
    body read by [response.json()]. *)
Definition delivered (browser : Client.Browser) (statusText : string)
    (response : Response) : Client.Reply :=
  {| Client.reply_status := status response;
     Client.statusText := statusText;
     Client.reply_json :=
       match body response with
       | Some text => Client.parse browser text
       | None =>
           inl {| Client.name := "SyntaxError";
                  Client.message := "Unexpected end of JSON input" |}
       end |}.

(* ===================================================================== *)
(** * Vocabulary for the runs of the client *)
(* ===================================================================== *)

(** The state after one more reading of the clock. *)
Definition ticked (st : Client.state) : Client.state :=
  {| Client.localStorage := Client.localStorage st;
     Client.readings := S (Client.readings st);
     Client.calls := Client.calls st |}.

(** The state with other items in the storage. *)
Definition with_items (items : gmap string Text) (st : Client.state) : Client.state :=
  {| Client.localStorage := Some items;
     Client.readings := Client.readings st;
     Client.calls := Client.calls st |}.

(** The state once a call has been logged. *)
Definition called (call : Client.Call) (st : Client.state) : Client.state :=
  {| Client.localStorage := Client.localStorage st;
     Client.readings := Client.readings st;
     Client.calls := (Client.calls st ++ [call])%list |}.

(** The call that [getLocation] makes. *)
Definition location_call (this : Client.LocationClient) (options : value) : Client.Call :=
  {| Client.url := Client.baseUrl this ++ "/location";
     Client.init_headers :=
       Client.spread (field options "headers") ∪ {[ "Accept" := VStr "application/json" ]};
     Client.abort_after := Client.timeout this |}.

(** The call that [getHealth] makes. *)
Definition health_call (this : Client.LocationClient) : Client.Call :=
  {| Client.url := Client.baseUrl this ++ "/health";
     Client.init_headers := {[ "Accept" := VStr "application/json" ]};
     Client.abort_after := Client.timeout this |}.

(** The entry that [setCachedLocation] writes at a reading of the clock. *)
Definition entry (location : value) (now : float) : Text :=
  Stringified (VObj (list_to_map [("location", location); ("timestamp", VNum now)])) None.

(** The error that a failed request ends in. *)
Definition reported (timeout_message : string) (error : Client.Error) : Client.Error :=
  if String.eqb (Client.name error) "AbortError" then Client.new_Error timeout_message
  else error.

(** The texts among the values, the empty ones left out. *)
Definition texts (parts : list value) : list string :=
  flat_map (fun part => match part with
                        | VStr s => if String.eqb s "" then [] else [s]
                        | _ => []
                        end) parts.

(** The country codes that [isEU] knows. *)
Definition euCountries : list string :=
  ["AT"; "BE"; "BG"; "HR"; "CY"; "CZ"; "DK"; "EE"; "FI"; "FR";
   "DE"; "GR"; "HU"; "IE"; "IT"; "LV"; "LT"; "LU"; "MT"; "NL";
   "PL"; "PT"; "RO"; "SK"; "SI"; "ES"; "SE"].

(** A browser, a client and a state to try things on. *)
Definition quiet_browser (outcome : Client.Settled) (now : nat -> float) : Client.Browser :=
  {| Client.clock := now;
     Client.network := fun _ _ => outcome;
     Client.JSON_parse := fun _ =>
       inl {| Client.name := "SyntaxError"; Client.message := "Unexpected token" |};
     Client.stores := fun _ => true |}.

Definition empty_state : Client.state :=
  {| Client.localStorage := Some ∅; Client.readings := 0; Client.calls := [] |}.

(** ** The client's functions without the monad

    What [setCachedLocation] and the request of [getLocation] make of a
    state; the lemmas [setCachedLocation_runs] and [getLocation_runs]
    show that the functions compute them. *)

(** The state after [setCachedLocation(location)]. *)
Definition saved (browser : Client.Browser) (this : Client.LocationClient)
    (location : value) (st : Client.state) : Client.state :=
  match Client.localStorage st with
  | Some items =>
      let text := entry location (Client.clock browser (Client.readings st)) in
      if Client.stores browser text then
        with_items (<[Client.cacheKey this := text]> items) (ticked st)
      else ticked st
  | None => st
  end.

(** Lines 32-63: the request, its checks and its [catch]. *)
Definition requested (browser : Client.Browser) (this : Client.LocationClient)
    (options : value) (st : Client.state) : Client.completion value * Client.state :=
  let call := location_call this options in
  match Client.network browser (length (Client.calls st)) call with
  | Client.Rejected error =>
      (Client.Throw (reported "Request timeout" error), called call st)
  | Client.Fulfilled response =>
      if Client.reply_ok response then
        match Client.reply_json response with
        | inl error => (Client.Throw (reported "Request timeout" error), called call st)
        | inr data =>
            (Client.Return data,
             if Client.cache this then saved browser this data (called call st)
             else called call st)
        end
      else (Client.Throw (Client.http_error response), called call st)
  end.

(** [options = {}] *)
Definition or_empty (options : value) : value :=
  match options with
  | VUndefined => VObj ∅
  | _ => options
  end.

(** The cache is consulted: it is on and the caller has not asked for a
    fresh answer. *)
Definition consults (this : Client.LocationClient) (options : value) : bool :=
  Client.cache this && negb (truthy (field (or_empty options) "fresh")).

(** A client with the defaults of the constructor. *)
Definition sample_client : Client.LocationClient :=
  {| Client.baseUrl := "https://loclook.example";
     Client.timeout := VNum (of_Z 5000);
     Client.cache := true;
     Client.cacheKey := "cf-location-data";
     Client.cacheTTL := VNum (of_Z 300000) |}.

(** [getLocation] answers from the cache: the cache is consulted and
    holds something truthy. *)
Definition served_from_cache (browser : Client.Browser) (this : Client.LocationClient)
    (options : value) (st : Client.state) : Prop :=
  consults this options = true
  ∧ ∃ cached, fst (Client.getCachedLocation browser this st) = Client.Return cached
      ∧ truthy cached = true.

(** A clock that starts late in 2023 and moves by a second at each
    reading. *)
Definition ticking (n : nat) : float := of_Z (1700000000000 + 1000 * Z.of_nat n).

(** A property that is a text, [null] or [undefined]. *)
Definition textual (v : value) : Prop :=
  v = VNull ∨ v = VUndefined ∨ ∃ s, v = VStr s.

(** The text of a header that is there and not empty. *)
Definition named (headers : Headers) (name : string) : list string :=
  match get headers name with
  | Some s => if String.eqb s "" then [] else [s]
  | None => []
  end.

(** What [formatLocation] makes of the texts it has found. *)
Definition formatted (parts : list string) : string :=
  match parts with
  | [] => "Unknown Location"
  | _ => Convert.join ", " parts
  end.


(* ===================================================================== *)
(** * Properties of the host functions *)
(* ===================================================================== *)

(** Closed equations are settled by evaluation. *)
Ltac by_vm :=
  lazymatch goal with
  | |- ?a = ?b => vm_cast_no_check (@eq_refl _ b)
  end.

(** A check that holds on each of 0, 1, ..., [n - 1] holds on the range. *)
Lemma range_check (bound : nat) (check : Z → bool) :
  forallb check (map Z.of_nat (seq 0 bound)) = true →
  ∀ z, 0 ≤ z < Z.of_nat bound → check z = true.
Proof.
  rewrite forallb_forall. intros Hall z Hz. apply Hall.
  apply in_map_iff. exists (Z.to_nat z). split; [lia|].
  apply in_seq. lia.
Qed.

(** [includes] with a one-character search text finds that character. *)
Lemma includes_char (s : string) (c : ascii) :
  includes s (String c EmptyString) = true ↔ In c (list_ascii_of_string s).
Proof.
  induction s as [|a s IH]; simpl.
  - split; [discriminate | tauto].
  - destruct (ascii_dec c a) as [->|Hne].
    + split; [auto | intros _].
      destruct s; reflexivity.
    + rewrite orb_false_l, IH. split; [auto | intros [Heq|Hin]; congruence].
Qed.

(** ** The ladder *)

Lemma quality_matches_level (score : Z) :
  0 ≤ score ≤ 100 →
  calculateDataQuality_quality (of_Z score) = Spec.level score.
Proof.
  intros Hscore.
  apply String.eqb_eq.
  apply (range_check 101
           (fun z => String.eqb (calculateDataQuality_quality (of_Z z)) (Spec.level z)));
    [by_vm | lia].
Qed.

Lemma enhanced_quality_matches_level (score : Z) :
  0 ≤ score ≤ 100 →
  calculateEnhancedDataQuality_quality (of_Z score) = Spec.level score.
Proof.
  intros Hscore.
  apply String.eqb_eq.
  apply (range_check 101
           (fun z => String.eqb (calculateEnhancedDataQuality_quality (of_Z z))
                       (Spec.level z)));
    [by_vm | lia].
Qed.

Lemma quality_never_unknown (percentage : float) :
  calculateDataQuality_quality percentage ≠ "unknown".
Proof.
  unfold calculateDataQuality_quality.
  repeat match goal with |- context [if ?c then _ else _] => destruct c end;
    discriminate.
Qed.

Lemma level_rank_monotone (a b : Z) :
  a ≤ b → (Spec.rank (Spec.level a) ≤ Spec.rank (Spec.level b))%nat.
Proof.
  intros Hab. unfold Spec.level.
  repeat match goal with
         | |- context [?x <=? ?y] => destruct (Z.leb_spec x y)
         end; cbn; lia.
Qed.

(** ** Counting *)

Lemma present_iff (text : option string) :
  present text = true ↔ Spec.is_present text.
Proof.
  unfold present, Spec.is_present. destruct text as [s|].
  - rewrite negb_true_iff, String.eqb_neq. split.
    + intros Hs. by exists s.
    + by intros (s' & [= <-] & Hs).
  - split; [discriminate | by intros (s & [=] & _)].
Qed.

Lemma filter_present (headers : Headers) (names : list string) :
  List.filter (fun field => present (get headers field)) names
  = filter (fun name => Spec.is_present (get headers name)) names.
Proof.
  induction names as [|name names IH]; [reflexivity|].
  cbn [List.filter]. rewrite filter_cons, IH.
  destruct (decide (Spec.is_present (get headers name))) as [Hp|Hp].
  - apply present_iff in Hp. by rewrite Hp.
  - destruct (present (get headers name)) eqn:Hb; [|reflexivity].
    apply present_iff in Hb. contradiction.
Qed.

Lemma count_present_le (headers : Headers) : (Spec.count_present headers ≤ 7)%nat.
Proof. apply (length_filter _ Spec.designated_headers). Qed.


Lemma not_null_iff (v : value) : negb (is_null v) = true ↔ Spec.not_null v.
Proof. unfold Spec.not_null. destruct v; cbn; split; congruence. Qed.

Lemma filter_not_null (locationData : object) (names : list string) :
  List.filter (fun field => negb (is_null (prop locationData field))) names
  = filter (fun name => Spec.not_null (prop locationData name)) names.
Proof.
  induction names as [|name names IH]; [reflexivity|].
  cbn [List.filter]. rewrite filter_cons, IH.
  destruct (decide (Spec.not_null (prop locationData name))) as [Hp|Hp].
  - apply not_null_iff in Hp. by rewrite Hp.
  - destruct (negb (is_null (prop locationData name))) eqn:Hb; [|reflexivity].
    apply not_null_iff in Hb. contradiction.
Qed.

Lemma count_not_null_le (locationData : object) : (Spec.count_not_null locationData ≤ 7)%nat.
Proof. apply (length_filter _ Spec.designated_attributes). Qed.

(** ** The two scorers against the assessment of the data model

    Seven fields give eight possible counts; on each of them the
    binary64 computation [Math.round((n / 7) * 100)] and the ladder
    agree with the exact rounding and the thresholds on integers. *)

Ltac each_count n :=
  do 8 (destruct n as [|n]; [by_vm|]); exfalso; lia.

Lemma calculateDataQuality_assessment (headers : Headers) :
  calculateDataQuality headers = Spec.assessment (Spec.count_present headers).
Proof.
  unfold calculateDataQuality. cbv zeta. rewrite filter_present.
  fold Spec.designated_headers. fold (Spec.count_present headers).
  pose proof (count_present_le headers) as Hle.
  generalize dependent (Spec.count_present headers). intros n Hn.
  each_count n.
Qed.

Lemma calculateEnhancedDataQuality_assessment (locationData : object) :
  calculateEnhancedDataQuality locationData
  = Spec.assessment (Spec.count_not_null locationData).
Proof.
  unfold calculateEnhancedDataQuality. cbv zeta. rewrite filter_not_null.
  fold Spec.designated_attributes. fold (Spec.count_not_null locationData).
  pose proof (count_not_null_le locationData) as Hle.
  generalize dependent (Spec.count_not_null locationData). intros n Hn.
  each_count n.
Qed.

(** The scores that seven fields can give lie between 0 and 100. *)
Lemma score_range (n : nat) : (n ≤ 7)%nat → 0 ≤ Spec.score n 7 ≤ 100.
Proof.
  intros Hn.
  do 8 (destruct n as [|n]; [vm_compute; split; discriminate|]). exfalso; lia.
Qed.

(** Counts up to seven are told apart by their binary64 images. *)
Lemma of_nat_small_inj (n m : nat) :
  (n ≤ 7)%nat → (m ≤ 7)%nat → of_nat n = of_nat m → n = m.
Proof.
  intros Hn Hm Heq. apply (f_equal Prim2SF) in Heq.
  do 8 (destruct n as [|n];
        [do 8 (destruct m as [|m];
               [vm_compute in Heq; first [reflexivity | discriminate]|]);
         exfalso; lia|]).
  exfalso; lia.
Qed.

Lemma assessment_props (n : nat) :
  prop (Spec.assessment n) "score" = VNum (of_Z (Spec.score n 7))
  ∧ prop (Spec.assessment n) "level" = VStr (Spec.level (Spec.score n 7))
  ∧ prop (Spec.assessment n) "availableFields" = VNum (of_nat n)
  ∧ prop (Spec.assessment n) "totalFields" = VNum (of_nat 7).
Proof. repeat split. Qed.

(* ===================================================================== *)
(** * The quality scorer *)
(* ===================================================================== *)

(** C1. For every header set, the assessment of the raw scorer has
    [score = round(100 * availableFields / totalFields)], where
    [availableFields] is the number of the seven designated headers
    (country, region, city, latitude, longitude, timezone, postal code)
    that are there and not empty, and [totalFields] is 7. *)
Theorem C1_raw_score_formula (headers : Headers) :
  let assessment := calculateDataQuality headers in
  let availableFields := Spec.count_present headers in
  let totalFields := 7%nat in
  prop assessment "availableFields" = VNum (of_nat availableFields)
  ∧ prop assessment "totalFields" = VNum (of_nat totalFields)
  ∧ prop assessment "score"
    = VNum (of_Z (Spec.round (100 * inject_Z (Z.of_nat availableFields)
                              / inject_Z (Z.of_nat totalFields)))).
Proof.
  cbv zeta. rewrite calculateDataQuality_assessment.
  destruct (assessment_props (Spec.count_present headers)) as (Hs & _ & Ha & Ht).
  rewrite Hs, Ha, Ht. repeat split.
Qed.

(** C6. For every score in [0, 100] the level is given by thresholds
    tried from the highest down (80 excellent, 60 good, 40 fair, 20
    limited, otherwise minimal) and is never the default ['unknown'];
    and the level of every assessment of the raw scorer is that function
    of its score, which lies in [0, 100]. *)
Theorem C6_level_by_thresholds :
  (∀ score : Z,
     0 ≤ score ≤ 100 →
     let level := calculateDataQuality_quality (of_Z score) in
     level = (if 80 <=? score then "excellent"
              else if 60 <=? score then "good"
              else if 40 <=? score then "fair"
              else if 20 <=? score then "limited"
              else "minimal")
     ∧ level ≠ "unknown")
  ∧ (∀ headers : Headers,
       ∃ score : Z,
         0 ≤ score ≤ 100
         ∧ prop (calculateDataQuality headers) "score" = VNum (of_Z score)
         ∧ prop (calculateDataQuality headers) "level"
           = VStr (calculateDataQuality_quality (of_Z score))).
Proof.
  split.
  - intros score Hscore. cbv zeta. split.
    + apply (quality_matches_level score Hscore).
    + apply quality_never_unknown.
  - intros headers. rewrite calculateDataQuality_assessment.
    pose proof (score_range _ (count_present_le headers)) as Hrange.
    exists (Spec.score (Spec.count_present headers) 7).
    rewrite (quality_matches_level _ Hrange). repeat split; apply Hrange.
Qed.

Lemma C6_witness :
  let level := calculateDataQuality_quality (of_Z 57) in
  level = "fair" ∧ level ≠ "unknown".
Proof. apply (proj1 C6_level_by_thresholds 57). lia. Defined.

(** C7 as the specification has it fails: the ladder sends 79 to
    ['good'], not to ['fair']. *)
Lemma C7_counterexample : calculateDataQuality_quality (of_Z 79) ≠ "fair".
Proof. vm_compute. discriminate. Qed.

(** C7, amended. Over scores in [0, 100] the thresholds are monotonic
    (a higher score never gets a lower tier) and exhaustive (every score
    gets one of the five tiers); the ladder sends 79 to ['good'], 80 to
    ['excellent'] and 0 to ['minimal']. *)
Theorem C7_thresholds_monotonic_exhaustive :
  (∀ a b : Z,
     0 ≤ a → a ≤ b → b ≤ 100 →
     (Spec.rank (calculateDataQuality_quality (of_Z a))
      ≤ Spec.rank (calculateDataQuality_quality (of_Z b)))%nat)
  ∧ (∀ score : Z,
       0 ≤ score ≤ 100 →
       In (calculateDataQuality_quality (of_Z score))
          ["minimal"; "limited"; "fair"; "good"; "excellent"])
  ∧ calculateDataQuality_quality (of_Z 79) = "good"
  ∧ calculateDataQuality_quality (of_Z 80) = "excellent"
  ∧ calculateDataQuality_quality (of_Z 0) = "minimal".
Proof.
  split; [|split].
  - intros a b Ha Hab Hb.
    rewrite !quality_matches_level by lia. by apply level_rank_monotone.
  - intros score Hscore. rewrite quality_matches_level by lia.
    unfold Spec.level.
    repeat match goal with |- context [if ?c then _ else _] => destruct c end;
      cbn; tauto.
  - repeat split; by_vm.
Qed.

Lemma C7_witness :
  (Spec.rank (calculateDataQuality_quality (of_Z 14))
   ≤ Spec.rank (calculateDataQuality_quality (of_Z 86)))%nat
  ∧ In (calculateDataQuality_quality (of_Z 43))
       ["minimal"; "limited"; "fair"; "good"; "excellent"].
Proof.
  split.
  - apply (proj1 C7_thresholds_monotonic_exhaustive 14 86); lia.
  - apply (proj1 (proj2 C7_thresholds_monotonic_exhaustive) 43); lia.
Defined.

(** C10. The raw and the enhanced scorer compute the same assessment
    from the count of available fields: whenever the two counts are
    equal, score, level, availableFields and totalFields are all equal.
    They differ in the test of presence only: each is the assessment of
    the data model at its own count, the headers that are there and not
    empty for one, the attributes that are not [null] for the other. *)
Theorem C10_scorers_agree (headers : Headers) (locationData : object) :
  (prop (calculateDataQuality headers) "availableFields"
   = prop (calculateEnhancedDataQuality locationData) "availableFields" →
   calculateDataQuality headers = calculateEnhancedDataQuality locationData)
  ∧ calculateDataQuality headers = Spec.assessment (Spec.count_present headers)
  ∧ calculateEnhancedDataQuality locationData
    = Spec.assessment (Spec.count_not_null locationData).
Proof.
  rewrite calculateDataQuality_assessment, calculateEnhancedDataQuality_assessment.
  split; [|split; reflexivity].
  destruct (assessment_props (Spec.count_present headers)) as (_ & _ & -> & _).
  destruct (assessment_props (Spec.count_not_null locationData)) as (_ & _ & -> & _).
  intros [= Heq].
  apply of_nat_small_inj in Heq;
    [by rewrite Heq | apply count_present_le | apply count_not_null_le].
Qed.

Lemma C10_witness :
  calculateDataQuality {[ "cf-ipcountry" := "FR"; "cf-ipcity" := "Paris" ]}
  = calculateEnhancedDataQuality
      {[ "country" := VStr "FR"; "region" := VNull; "city" := VStr "Paris";
         "latitude" := VNull; "longitude" := VNull; "timezone" := VNull;
         "postalCode" := VNull ]}.
Proof.
  apply (proj1 (C10_scorers_agree _ _)). by_vm.
Defined.

(* ===================================================================== *)
(** * The extractor *)
(* ===================================================================== *)

(** Parsing a numeric property leaves every other property alone. *)
Lemma lookup_parsed_ne (parse : string → float) (k k' : string) (o : object) :
  k ≠ k' → parsed parse k o !! k' = o !! k'.
Proof.
  intros Hne. unfold parsed.
  destruct (prop o k); try reflexivity.
  destruct (truthy _); [by rewrite lookup_insert_ne | reflexivity].
Qed.

Ltac extracted :=
  unfold extractLocationData; cbv zeta;
  rewrite !lookup_parsed_ne by discriminate.

Lemma extract_ip (host : Host) (request : Request) :
  ∃ ip,
    extractLocationData host request !! "ip" = Some (VStr ip)
    ∧ extractLocationData host request !! "ipType"
      = Some (VStr (if includes ip ":" then "IPv6" else "IPv4"))
    ∧ ip = or_text
             (or_else (get (headers request) "CF-Connecting-IP")
                (forwarded ← get (headers request) "X-Forwarded-For";
                 first ← head (split "," forwarded);
                 Some (trim first)))
             "unknown".
Proof. eexists. split; [|split]; [extracted; reflexivity .. | reflexivity]. Qed.

Lemma ip_is_text (host : Host) (request : Request) :
  ∃ ip, prop (extractLocationData host request) "ip" = VStr ip.
Proof.
  destruct (extract_ip host request) as (ip & Hip & _).
  exists ip. unfold prop. by rewrite Hip.
Qed.

Lemma extract_dataQuality (host : Host) (request : Request) :
  extractLocationData host request !! "dataQuality"
  = Some (VObj (calculateDataQuality (headers request))).
Proof. extracted. reflexivity. Qed.

(** The keys that only the enhanced handler adds are not in a fresh
    record, and a fresh assessment is not marked as enhanced. *)
Lemma extract_fresh (host : Host) (request : Request) :
  extractLocationData host request !! "fallback" = None
  ∧ extractLocationData host request !! "fallbackError" = None
  ∧ extractLocationData host request !! "enhanced" = None.
Proof. repeat split; extracted; reflexivity. Qed.

Lemma assessment_fresh (headers : Headers) :
  calculateDataQuality headers !! "enhanced" = None
  ∧ calculateDataQuality headers !! "enhancedScore" = None.
Proof. split; reflexivity. Qed.

Lemma level_of_baseline (host : Host) (request : Request) :
  ∃ score : Z,
    0 ≤ score ≤ 100
    ∧ Spec.level_of (extractLocationData host request)
      = VStr (Spec.level score).
Proof.
  unfold Spec.level_of, prop. rewrite extract_dataQuality.
  rewrite calculateDataQuality_assessment. cbn [field].
  exists (Spec.score (Spec.count_present (headers request)) 7). split.
  - apply score_range, count_present_le.
  - apply assessment_props.
Qed.

(** C8. The record's [ipType] is ['IPv6'] exactly when the resolved
    address, the record's [ip], contains a colon, and ['IPv4'] otherwise;
    a connecting-IP header of ["2001:db8::1"] gives ['IPv6']; with no
    connecting-IP and no forwarded-for header the address is the
    literal ["unknown"] and the type is ['IPv4']. *)
Theorem C8_ipType_by_colon (host : Host) (request : Request) :
  let record := extractLocationData host request in
  ∃ ip : string,
    prop record "ip" = VStr ip
    ∧ (prop record "ipType" = VStr "IPv6" ↔ In ":"%char (list_ascii_of_string ip))
    ∧ (prop record "ipType" = VStr "IPv4" ↔ ¬ In ":"%char (list_ascii_of_string ip))
    ∧ (get (headers request) "CF-Connecting-IP" = Some "2001:db8::1" →
       ip = "2001:db8::1" ∧ prop record "ipType" = VStr "IPv6")
    ∧ (get (headers request) "CF-Connecting-IP" = None →
       get (headers request) "X-Forwarded-For" = None →
       ip = "unknown" ∧ prop record "ipType" = VStr "IPv4").
Proof.
  cbv zeta. destruct (extract_ip host request) as (ip & Hip & Htype & Hdef).
  exists ip. unfold prop. rewrite Hip, Htype.
  pose proof (includes_char ip ":") as Hcolon.
  split; [reflexivity|]. split; [|split; [|split]].
  - rewrite <- Hcolon. destruct (includes ip ":"); split; congruence.
  - rewrite <- Hcolon. destruct (includes ip ":"); split; congruence.
  - intros Hcf. rewrite Hcf in Hdef. cbn in Hdef. subst ip. by split.
  - intros Hcf Hfwd. rewrite Hcf, Hfwd in Hdef. cbn in Hdef. subst ip. by split.
Qed.

Lemma C8_witness :
  let host := {| now := "2026-01-01T00:00:00.000Z"; network := fun _ => Rejects "offline" |} in
  let v6 := {| method := "GET"; pathname := "/location";
               headers := {[ "cf-connecting-ip" := "2001:db8::1" ]} |} in
  let bare := {| method := "GET"; pathname := "/location"; headers := ∅ |} in
  prop (extractLocationData host v6) "ipType" = VStr "IPv6"
  ∧ prop (extractLocationData host bare) "ip" = VStr "unknown"
  ∧ prop (extractLocationData host bare) "ipType" = VStr "IPv4".
Proof.
  intros host v6 bare.
  destruct (C8_ipType_by_colon host v6) as (ip6 & _ & _ & _ & Hv6 & _).
  destruct (C8_ipType_by_colon host bare) as (ip & Hip & _ & _ & _ & Hbare).
  destruct (Hv6 eq_refl) as [_ H6].
  destruct (Hbare eq_refl eq_refl) as [Hu H4].
  rewrite Hip, Hu. auto.
Defined.

(* ===================================================================== *)
(** * Routing *)
(* ===================================================================== *)

(** C9 as the specification has it fails: the answer to an unknown
    path has status 404, but its body is the text ['Not Found'], not an
    empty one. *)
Lemma C9_counterexample :
  let host := {| now := "2026-01-01T00:00:00.000Z"; network := fun _ => Rejects "offline" |} in
  let request := {| method := "GET"; pathname := "/nowhere"; headers := ∅ |} in
  ¬ (status (fst (fetch host request)) = 404
     ∧ (body (fst (fetch host request)) = None
        ∨ body (fst (fetch host request)) = Some (Literal ""))).
Proof. cbv zeta. cbn. intros [_ [H|H]]; discriminate. Qed.

(** C9, amended. For every GET request whose path is not ['/'],
    ['/location'], ['/location-enhanced'] or ['/health'], the answer has
    status 404 and the body ['Not Found'] (and the CORS headers), and
    no outbound request is made. *)
Theorem C9_unknown_path (host : Host) (request : Request) :
  method request = "GET" →
  pathname request ≠ "/" →
  pathname request ≠ "/location" →
  pathname request ≠ "/location-enhanced" →
  pathname request ≠ "/health" →
  fetch host request
  = ({| status := 404;
        response_headers := getCORSHeaders;
        body := Some (Literal "Not Found") |}, []).
Proof.
  intros Hget Hroot Hloc Henh Hhealth. unfold fetch.
  rewrite Hget.
  apply String.eqb_neq in Hroot, Hloc, Henh, Hhealth.
  rewrite Hroot, Hloc, Henh, Hhealth. reflexivity.
Qed.

Lemma C9_witness :
  fetch {| now := "2026-01-01T00:00:00.000Z"; network := fun _ => Rejects "offline" |}
        {| method := "GET"; pathname := "/favicon.ico"; headers := ∅ |}
  = ({| status := 404;
        response_headers := getCORSHeaders;
        body := Some (Literal "Not Found") |}, []).
Proof. apply C9_unknown_path; [reflexivity | discriminate ..]. Defined.

(* ===================================================================== *)
(** * The enhancement: what each statement leaves alone *)
(* ===================================================================== *)

Section Silent.
Import Exec.

Lemma silent_ret {A} (a : A) : silent (mret a).
Proof. by intros st. Qed.

Lemma silent_throw {A} (message : string) : silent (@throw A message).
Proof. by intros st. Qed.

Lemma silent_bind {A B} (c : t A) (k : A → t B) :
  silent c → (∀ a, silent (k a)) → silent (c ≫= k).
Proof.
  intros Hc Hk st. specialize (Hc st).
  unfold mbind, exec_bind. destruct (c st) as [[a|message] st']; cbn in *.
  - by rewrite Hk.
  - done.
Qed.

Lemma silent_try_catch {A} (body : t A) (handler : string → t A) :
  silent body → (∀ message, silent (handler message)) →
  silent (try_catch body handler).
Proof.
  intros Hc Hk st. specialize (Hc st).
  unfold try_catch. destruct (body st) as [[a|message] st']; cbn in *.
  - done.
  - by rewrite Hk.
Qed.

Lemma silent_read (k : string) : silent (read k).
Proof. by intros st. Qed.

Lemma silent_write (k : string) (v : value) : silent (write k v).
Proof. by intros st. Qed.

Lemma silent_this : silent this.
Proof. by intros st. Qed.

Lemma silent_member (v : value) (k : string) : silent (member v k).
Proof. by destruct v; intros st. Qed.

Lemma silent_await_json (response : Upstream) : silent (await_json response).
Proof. unfold await_json. by destruct (upstream_json response); intros st. Qed.

Lemma silent_write_in (k k' : string) (v : value) : silent (write_in k k' v).
Proof.
  apply silent_bind; [apply silent_read|].
  intros []; first [apply silent_throw | apply silent_write].
Qed.
End Silent.

Create HintDb exec.
#[local] Hint Resolve silent_ret silent_throw silent_read silent_write
  silent_this silent_member silent_await_json silent_write_in : exec.

Ltac silent_steps :=
  repeat first
    [ solve [auto with exec]
    | apply silent_bind; [|intros ?]
    | lazymatch goal with
      | |- Exec.silent (if ?c then _ else _) => destruct c
      end ].

Lemma silent_fill (k from : string) (fallbackData : value) :
  Exec.silent (fill k from fallbackData).
Proof. unfold fill. silent_steps. Qed.

#[local] Hint Resolve silent_fill : exec.

Lemma silent_merge (fallbackData : value) : Exec.silent (merge fallbackData).
Proof. unfold merge. silent_steps. Qed.

#[local] Hint Resolve silent_merge : exec.

(** ** The outbound call *)

Lemma enhance_rejected (host : Host) (st : Exec.store) (message : string) :
  network host (Spec.lookup_url (Exec.locationData st)) = Rejects message →
  enhance host st = (Exec.Throw message, logged st).
Proof.
  intros Hnet. unfold enhance, mbind, Exec.exec_bind, Exec.read, Exec.await_fetch.
  fold (Spec.lookup_url (Exec.locationData st)). by rewrite Hnet.
Qed.

Lemma enhance_resolved (host : Host) (st : Exec.store) (response : Upstream) :
  network host (Spec.lookup_url (Exec.locationData st)) = Resolves response →
  enhance host st
  = if ok response
    then (Exec.await_json response ≫= merge) (logged st)
    else (Exec.Normal tt, logged st).
Proof.
  intros Hnet. unfold enhance, mbind, Exec.exec_bind, Exec.read, Exec.await_fetch.
  fold (Spec.lookup_url (Exec.locationData st)). rewrite Hnet.
  by destruct (ok response).
Qed.

Lemma enhance_unparseable (host : Host) (st : Exec.store)
    (response : Upstream) (message : string) :
  network host (Spec.lookup_url (Exec.locationData st)) = Resolves response →
  ok response = true →
  upstream_json response = JsonThrows message →
  enhance host st = (Exec.Throw message, logged st).
Proof.
  intros Hnet Hok Hjson. rewrite (enhance_resolved _ _ _ Hnet), Hok.
  unfold mbind, Exec.exec_bind, Exec.await_json. by rewrite Hjson.
Qed.

(** Whatever the network does, exactly one request goes out. *)
Lemma enhance_requests (host : Host) (st : Exec.store) :
  Exec.requests (snd (enhance host st))
  = (Exec.requests st ++ [Spec.lookup_url (Exec.locationData st)])%list.
Proof.
  destruct (network host (Spec.lookup_url (Exec.locationData st)))
    as [message|response] eqn:Hnet.
  - by rewrite (enhance_rejected _ _ _ Hnet).
  - rewrite (enhance_resolved _ _ _ Hnet). destruct (ok response); [|done].
    assert (Exec.silent (Exec.await_json response ≫= merge)) as Hsilent
      by silent_steps.
    by rewrite Hsilent.
Qed.

(** ** The handler *)

Lemma low_iff (level : value) :
  is_string level "minimal" || is_string level "limited" = true ↔ Spec.low level.
Proof.
  unfold Spec.low. destruct level; cbn; try (split; [discriminate | intros [|]; discriminate]).
  rewrite orb_true_iff, !String.eqb_eq. split; intros [|]; subst; auto; left + right; congruence.
Qed.

Lemma guarded_normal (host : Host) (st : Exec.store) :
  fst (guarded host st) = Exec.Normal tt.
Proof.
  unfold guarded, Exec.try_catch.
  by destruct (enhance host st) as [[[]|message] st'].
Qed.

Lemma guarded_requests (host : Host) (st : Exec.store) :
  Exec.requests (snd (guarded host st))
  = (Exec.requests st ++ [Spec.lookup_url (Exec.locationData st)])%list.
Proof.
  pose proof (enhance_requests host st) as Hreq.
  unfold guarded, Exec.try_catch.
  by destruct (enhance host st) as [[[]|message] st'].
Qed.

Lemma escalate_on_level (host : Host) (record : object) (log : list string) :
  (∃ assessment, record !! "dataQuality" = Some (VObj assessment)) →
  escalate host {| Exec.locationData := record; Exec.requests := log |}
  = if is_string (Spec.level_of record) "minimal"
       || is_string (Spec.level_of record) "limited"
    then guarded host {| Exec.locationData := record; Exec.requests := log |}
    else (Exec.Normal tt, {| Exec.locationData := record; Exec.requests := log |}).
Proof.
  intros [assessment Hdq].
  unfold escalate, mbind, Exec.exec_bind, Exec.read, Spec.level_of, prop.
  cbn [Exec.locationData]. rewrite Hdq. unfold Exec.member, mret, Exec.exec_ret.
  by destruct (is_string _ _ || is_string _ _).
Qed.

Lemma escalate_start (host : Host) (request : Request) :
  escalate host (start host request)
  = if is_string (Spec.level_of (extractLocationData host request)) "minimal"
       || is_string (Spec.level_of (extractLocationData host request)) "limited"
    then guarded host (start host request)
    else (Exec.Normal tt, start host request).
Proof.
  unfold start. apply escalate_on_level.
  eexists. apply extract_dataQuality.
Qed.

Lemma handler_unfold (host : Host) (request : Request) :
  handleEnhancedLocationRequest host request
  = match escalate host (start host request) with
    | (Exec.Normal _, final) =>
        (Spec.success (Exec.locationData final), Exec.requests final)
    | (Exec.Throw message, final) =>
        ({| status := 500;
            response_headers := json_headers;
            body := Some (Stringified
                      (VObj (list_to_map [
                         ("error", VStr "Failed to process enhanced location request");
                         ("message", VStr message)]))
                      None) |},
         Exec.requests final)
    end.
Proof. reflexivity. Qed.

Lemma handler_low (host : Host) (request : Request) :
  Spec.low (Spec.level_of (extractLocationData host request)) →
  handleEnhancedLocationRequest host request
  = (Spec.success (Exec.locationData (snd (guarded host (start host request)))),
     [Spec.lookup_url (extractLocationData host request)]).
Proof.
  intros Hlow. apply low_iff in Hlow.
  rewrite handler_unfold, escalate_start, Hlow.
  pose proof (guarded_normal host (start host request)) as Hnormal.
  pose proof (guarded_requests host (start host request)) as Hreq.
  destruct (guarded host (start host request)) as [outcome final].
  cbn [fst snd] in Hnormal, Hreq. rewrite Hnormal, Hreq. reflexivity.
Qed.

Lemma handler_high (host : Host) (request : Request) :
  ¬ Spec.low (Spec.level_of (extractLocationData host request)) →
  handleEnhancedLocationRequest host request
  = (Spec.success (extractLocationData host request), []).
Proof.
  intros Hhigh. rewrite <- low_iff in Hhigh. apply not_true_is_false in Hhigh.
  rewrite handler_unfold, escalate_start, Hhigh. reflexivity.
Qed.

(** ** The three ways the call can fail *)

Lemma guarded_caught (host : Host) (st st' : Exec.store) (message : string) :
  enhance host st = (Exec.Throw message, st') →
  Exec.locationData (snd (guarded host st))
  = <["fallbackError" := VStr message]> (Exec.locationData st').
Proof. intros Henh. unfold guarded, Exec.try_catch. by rewrite Henh. Qed.

Lemma guarded_passed (host : Host) (st st' : Exec.store) :
  enhance host st = (Exec.Normal tt, st') →
  snd (guarded host st) = st'.
Proof. intros Henh. unfold guarded, Exec.try_catch. by rewrite Henh. Qed.

Lemma handler_rejected (host : Host) (request : Request) (message : string) :
  Spec.low (Spec.level_of (extractLocationData host request)) →
  network host (Spec.lookup_url (extractLocationData host request)) = Rejects message →
  fst (handleEnhancedLocationRequest host request)
  = Spec.success (<["fallbackError" := VStr message]> (extractLocationData host request)).
Proof.
  intros Hlow Hnet. rewrite (handler_low _ _ Hlow). cbn [fst].
  by rewrite (guarded_caught _ _ _ _ (enhance_rejected host (start host request) _ Hnet)).
Qed.

Lemma handler_unparseable (host : Host) (request : Request)
    (upstream : Upstream) (message : string) :
  Spec.low (Spec.level_of (extractLocationData host request)) →
  network host (Spec.lookup_url (extractLocationData host request)) = Resolves upstream →
  ok upstream = true →
  upstream_json upstream = JsonThrows message →
  fst (handleEnhancedLocationRequest host request)
  = Spec.success (<["fallbackError" := VStr message]> (extractLocationData host request)).
Proof.
  intros Hlow Hnet Hok Hjson. rewrite (handler_low _ _ Hlow). cbn [fst].
  by rewrite (guarded_caught _ _ _ _
                (enhance_unparseable host (start host request) _ _ Hnet Hok Hjson)).
Qed.

Lemma handler_refused (host : Host) (request : Request) (upstream : Upstream) :
  Spec.low (Spec.level_of (extractLocationData host request)) →
  network host (Spec.lookup_url (extractLocationData host request)) = Resolves upstream →
  ok upstream = false →
  fst (handleEnhancedLocationRequest host request)
  = Spec.success (extractLocationData host request).
Proof.
  intros Hlow Hnet Hok. rewrite (handler_low _ _ Hlow). cbn [fst].
  rewrite (guarded_passed host (start host request) (logged (start host request))).
  - reflexivity.
  - by rewrite (enhance_resolved host (start host request) _ Hnet), Hok.
Qed.

(** The enhanced route never answers 500. *)
Lemma handler_status (host : Host) (request : Request) :
  status (fst (handleEnhancedLocationRequest host request)) = 200.
Proof.
  destruct (is_string (Spec.level_of (extractLocationData host request)) "minimal"
            || is_string (Spec.level_of (extractLocationData host request)) "limited")
    eqn:Hlevel.
  - apply low_iff in Hlevel. by rewrite (handler_low _ _ Hlevel).
  - rewrite handler_high; [done|]. rewrite <- low_iff. congruence.
Qed.

(* ===================================================================== *)
(** * The enhanced route *)
(* ===================================================================== *)

(** After a refusal (a status outside 2xx) the record in the answer has
    no [fallbackError], so the failure is not recorded. *)
Lemma refusal_not_recorded (host : Host) (request : Request) (upstream : Upstream) :
  Spec.low (Spec.level_of (extractLocationData host request)) →
  network host (Spec.lookup_url (extractLocationData host request)) = Resolves upstream →
  ok upstream = false →
  ¬ Spec.failure_is_recorded host request (handleEnhancedLocationRequest host request).
Proof.
  intros Hlow Hnet Hok Hclaim.
  destruct (Hclaim Hlow) as (_ & message & record & Hbody & Herror & _).
  { rewrite Hnet. by left. }
  rewrite (handler_refused host request upstream Hlow Hnet Hok) in Hbody.
  destruct (extract_fresh host request) as (_ & Hfresh & _).
  assert (record !! "fallbackError" = None) as Hnone; [|congruence].
  revert Hbody Hfresh. generalize (extractLocationData host request).
  intros baseline [= <-]. done.
Qed.

(** C2 as the specification has it fails for a status outside 2xx: the
    worker then skips the merge without throwing, so nothing is caught
    and no [fallbackError] is attached. Here the service answers 503 to
    a request without geolocation headers. *)
Lemma C2_counterexample :
  ¬ Spec.failure_is_recorded
      (answering (Resolves {| upstream_status := 503;
                              upstream_json := JsonValue (VObj ∅) |}))
      (enhanced_request ∅)
      (handleEnhancedLocationRequest
         (answering (Resolves {| upstream_status := 503;
                                 upstream_json := JsonValue (VObj ∅) |}))
         (enhanced_request ∅)).
Proof.
  apply (refusal_not_recorded _ _ {| upstream_status := 503;
                                     upstream_json := JsonValue (VObj ∅) |}).
  - left. by_vm.
  - reflexivity.
  - reflexivity.
Qed.

(** C2, amended. For every enhanced-route request whose baseline level
    is minimal or limited, the answer has status 200 whatever becomes of
    the outbound call. If the call is rejected (a network error) or its
    body does not parse, the error's message is attached as
    [fallbackError] and the baseline record is otherwise returned as it
    was. If the call is answered with a status outside 2xx, the baseline
    record is returned as it was, without a [fallbackError]. *)
Theorem C2_enhancement_failure (host : Host) (request : Request) :
  let baseline := extractLocationData host request in
  let outcome := network host (Spec.lookup_url baseline) in
  let response := fst (handleEnhancedLocationRequest host request) in
  Spec.low (Spec.level_of baseline) →
  status response = 200
  ∧ (∀ message,
       outcome = Rejects message →
       response = Spec.success (<["fallbackError" := VStr message]> baseline))
  ∧ (∀ upstream message,
       outcome = Resolves upstream →
       ok upstream = true →
       upstream_json upstream = JsonThrows message →
       response = Spec.success (<["fallbackError" := VStr message]> baseline))
  ∧ (∀ upstream,
       outcome = Resolves upstream →
       ok upstream = false →
       response = Spec.success baseline ∧ baseline !! "fallbackError" = None).
Proof.
  intros baseline outcome response Hlow. subst baseline outcome response.
  split; [apply handler_status|]. split; [|split].
  - intros message Hnet. by apply handler_rejected.
  - intros upstream message Hnet Hok Hjson. by eapply handler_unparseable.
  - intros upstream Hnet Hok. split.
    + by eapply handler_refused.
    + apply extract_fresh.
Qed.

Lemma C2_witness :
  let request := enhanced_request {[ "cf-ipcountry" := "FR" ]} in
  let offline := answering (Rejects "network down") in
  let garbled := answering (Resolves {| upstream_status := 200;
                                        upstream_json := JsonThrows "Unexpected token <" |}) in
  let limited := answering (Resolves {| upstream_status := 429;
                                        upstream_json := JsonValue (VObj ∅) |}) in
  fst (handleEnhancedLocationRequest offline request)
  = Spec.success (<["fallbackError" := VStr "network down"]>
                    (extractLocationData offline request))
  ∧ fst (handleEnhancedLocationRequest garbled request)
    = Spec.success (<["fallbackError" := VStr "Unexpected token <"]>
                      (extractLocationData garbled request))
  ∧ fst (handleEnhancedLocationRequest limited request)
    = Spec.success (extractLocationData limited request).
Proof.
  intros request offline garbled limited.
  assert (∀ host, Spec.low (Spec.level_of (extractLocationData host request)))
    as Hlow by (intros host; left; reflexivity).
  split; [|split].
  - apply (proj1 (proj2 (C2_enhancement_failure offline request (Hlow _)))).
    reflexivity.
  - apply (proj1 (proj2 (proj2 (C2_enhancement_failure garbled request (Hlow _))))
             {| upstream_status := 200; upstream_json := JsonThrows "Unexpected token <" |});
      reflexivity.
  - apply (proj2 (proj2 (proj2 (C2_enhancement_failure limited request (Hlow _))))
             {| upstream_status := 429; upstream_json := JsonValue (VObj ∅) |});
      reflexivity.
Defined.

(** C4. On the enhanced route the outbound call is made exactly when
    the baseline level is minimal or limited (and then once, to the
    address of the record's ip). When the level is fair, good or
    excellent no call is made, and the answer carries the baseline
    record, which has no [fallback], no [fallbackError] and no
    [enhanced] or [enhancedScore] field. *)
Theorem C4_escalation_gate (host : Host) (request : Request) :
  let baseline := extractLocationData host request in
  let level := Spec.level_of baseline in
  let result := handleEnhancedLocationRequest host request in
  (snd result = [Spec.lookup_url baseline] ↔ Spec.low level)
  ∧ (snd result = [] ↔ ¬ Spec.low level)
  ∧ (level = VStr "fair" ∨ level = VStr "good" ∨ level = VStr "excellent" →
     snd result = []
     ∧ fst result = Spec.success baseline
     ∧ baseline !! "fallback" = None
     ∧ baseline !! "fallbackError" = None
     ∧ baseline !! "enhanced" = None
     ∧ ∃ assessment,
         baseline !! "dataQuality" = Some (VObj assessment)
         ∧ assessment !! "enhanced" = None
         ∧ assessment !! "enhancedScore" = None).
Proof.
  intros baseline level result. subst baseline level result.
  assert (Spec.low (Spec.level_of (extractLocationData host request))
          ∨ ¬ Spec.low (Spec.level_of (extractLocationData host request)))
    as [Hlow|Hhigh].
  { rewrite <- low_iff. destruct (_ || _); [by left | by right]. }
  - rewrite (handler_low _ _ Hlow). cbn [fst snd].
    split; [tauto|]. split; [split; [discriminate | tauto]|].
    unfold Spec.low in Hlow. intros [H|[H|H]]; rewrite H in Hlow;
      destruct Hlow as [[=]|[=]].
  - rewrite (handler_high _ _ Hhigh). cbn [fst snd].
    split; [split; [discriminate | tauto]|]. split; [tauto|].
    intros _. destruct (extract_fresh host request) as (Hf & He & Hn).
    repeat (split; [done|]).
    exists (calculateDataQuality (headers request)).
    split; [apply extract_dataQuality | apply assessment_fresh].
Qed.

Lemma C4_witness :
  let host := answering (Rejects "unreachable") in
  let bare := enhanced_request ∅ in
  let rich := enhanced_request {[ "cf-ipcountry" := "FR"; "cf-region" := "IDF";
                                  "cf-ipcity" := "Paris" ]} in
  snd (handleEnhancedLocationRequest host bare) = ["https://ipapi.co/unknown/json/"]
  ∧ snd (handleEnhancedLocationRequest host rich) = []
  ∧ fst (handleEnhancedLocationRequest host rich)
    = Spec.success (extractLocationData host rich).
Proof.
  intros host bare rich. split; [|split].
  - apply (proj1 (C4_escalation_gate host bare)). left. reflexivity.
  - apply (proj2 (proj2 (C4_escalation_gate host rich))). left. reflexivity.
  - apply (proj2 (proj2 (C4_escalation_gate host rich))). left. reflexivity.
Defined.

(** C3 fails on the code for a baseline latitude or longitude that is
    a number and falsy. The header [CF-IPLatitude: 0] gives the baseline
    record the latitude 0, which is not [null]; the level is minimal, the
    service answers with a latitude of 48.5, and the merge, which tests
    [!locationData.latitude], replaces the 0 by 48.5. *)
Theorem C3_zero_latitude_overwritten :
  let host := answering (Resolves {| upstream_status := 200;
                upstream_json := JsonValue (VObj {[ "latitude" := VNum 48.5 ]}) |}) in
  let request := enhanced_request {[ "cf-iplatitude" := "0" ]} in
  let baseline := extractLocationData host request in
  let record := Exec.locationData (snd (guarded host (start host request))) in
  Spec.level_of baseline = VStr "minimal"
  ∧ prop baseline "latitude" = VNum 0
  ∧ fetch host request = (Spec.success record, ["https://ipapi.co/unknown/json/"])
  ∧ field (prop record "fallback") "latitude" = VNum 48.5
  ∧ prop record "latitude" = VNum 48.5.
Proof.
  intros host request baseline record.
  split; [by_vm|]. split; [by_vm|]. split.
  - change (fetch host request) with (handleEnhancedLocationRequest host request).
    apply (handler_low host request). left. by_vm.
  - split; by_vm.
Qed.

(** C5 fails on the code in its last part. With no geolocation header
    and an answer that holds only city "Paris" and region "IDF", the
    merged record has that city and region and the marker
    [enhanced: true]; latitude, longitude, timezone and postalCode were
    [null] and are now [undefined], the value of the properties that the
    answer lacks. The enhanced scorer tests [!== null], counts these
    four as available and reports 6 (score 86, level excellent), while 2
    of the seven attributes are set. *)
Theorem C5_scenario_E_counts_undefined :
  let host := answering (Resolves {| upstream_status := 200;
                upstream_json := JsonValue (VObj {[ "city" := VStr "Paris";
                                                    "region" := VStr "IDF" ]}) |}) in
  let request := enhanced_request ∅ in
  let baseline := extractLocationData host request in
  let record := Exec.locationData (snd (guarded host (start host request))) in
  let enhancedScore := field (prop record "dataQuality") "enhancedScore" in
  Spec.level_of baseline = VStr "minimal"
  ∧ fetch host request = (Spec.success record, ["https://ipapi.co/unknown/json/"])
  ∧ prop record "city" = VStr "Paris"
  ∧ prop record "region" = VStr "IDF"
  ∧ map (prop baseline) ["latitude"; "longitude"; "timezone"; "postalCode"]
    = [VNull; VNull; VNull; VNull]
  ∧ map (prop record) ["latitude"; "longitude"; "timezone"; "postalCode"]
    = [VUndefined; VUndefined; VUndefined; VUndefined]
  ∧ field (prop record "dataQuality") "enhanced" = VBool true
  ∧ field enhancedScore "availableFields" = VNum (of_nat 6)
  ∧ field enhancedScore "score" = VNum (of_Z 86)
  ∧ field enhancedScore "level" = VStr "excellent"
  ∧ Spec.count_set record = 2%nat.
Proof.
  intros host request baseline record enhancedScore.
  split; [by_vm|]. split.
  - change (fetch host request) with (handleEnhancedLocationRequest host request).
    apply (handler_low host request). left. by_vm.
  - repeat split; by_vm.
Qed.

(* ===================================================================== *)
(** * A successful merge *)
(* ===================================================================== *)

(** ** Running the statements one by one *)

Lemma bind_runs {A B} (c : Exec.t A) (k : A → Exec.t B) (a : A) (st st' : Exec.store) :
  c st = (Exec.Normal a, st') → (c ≫= k) st = k a st'.
Proof. intros Hc. unfold mbind, Exec.exec_bind. by rewrite Hc. Qed.

Lemma member_runs (v : value) (k : string) (st : Exec.store) :
  v ≠ VNull → v ≠ VUndefined →
  Exec.member v k st = (Exec.Normal (field v k), st).
Proof. by destruct v. Qed.

Lemma member_throws (v : value) (k : string) (st : Exec.store) :
  v = VNull ∨ v = VUndefined →
  Exec.member v k st = (Exec.Throw (Exec.cannot_read v k), st).
Proof. by intros [->| ->]. Qed.

Lemma fill_runs (k from : string) (fallbackData : value)
    (record : object) (log : list string) :
  fallbackData ≠ VNull → fallbackData ≠ VUndefined →
  fill k from fallbackData {| Exec.locationData := record; Exec.requests := log |}
  = (Exec.Normal tt,
     {| Exec.locationData := filled k from fallbackData record; Exec.requests := log |}).
Proof.
  intros Hnull Hundef. unfold fill, filled.
  rewrite (bind_runs (Exec.read k) _ _ _ _ eq_refl). cbn [Exec.locationData].
  destruct (truthy (prop record k)); cbn [negb]; [reflexivity|].
  by rewrite (bind_runs _ _ _ _ _ (member_runs _ _ _ Hnull Hundef)).
Qed.

Lemma write_in_runs (k k' : string) (v : value)
    (props record : object) (log : list string) :
  record !! k = Some (VObj props) →
  Exec.write_in k k' v {| Exec.locationData := record; Exec.requests := log |}
  = (Exec.Normal tt,
     {| Exec.locationData := <[k := VObj (<[k' := v]> props)]> record;
        Exec.requests := log |}).
Proof.
  intros Hk. unfold Exec.write_in.
  rewrite (bind_runs (Exec.read k) _ _ _ _ eq_refl). cbn [Exec.locationData].
  unfold prop. by rewrite Hk.
Qed.

(** ** The filled record, property by property *)

(** Membership of a literal in a list of literals. *)
Ltac listed :=
  unfold mergeable, Spec.designated_attributes;
  repeat first [ apply list_elem_of_here | apply list_elem_of_further ].

Ltac not_listed :=
  let H := fresh in
  intros H; unfold mergeable, Spec.designated_attributes in H;
  repeat (apply elem_of_cons in H as [[=]|H]);
  by apply elem_of_nil in H.

Lemma lookup_filled_ne (k from k' : string) (fallbackData : value) (record : object) :
  k ≠ k' → filled k from fallbackData record !! k' = record !! k'.
Proof.
  intros Hne. unfold filled.
  destruct (truthy _); [reflexivity | by rewrite lookup_insert_ne].
Qed.

Lemma prop_filled (k from : string) (fallbackData : value) (record : object) :
  prop (filled k from fallbackData record) k
  = if truthy (prop record k) then prop record k else field fallbackData from.
Proof.
  unfold filled. destruct (truthy (prop record k)) eqn:Htruthy; [reflexivity|].
  unfold prop. by rewrite lookup_insert_eq.
Qed.

Lemma prop_lookup (o o' : object) (k : string) :
  o !! k = o' !! k → prop o k = prop o' k.
Proof. unfold prop. by intros ->. Qed.

(** Outside the six fields and [fallback], filling changes nothing. *)
Lemma lookup_all_filled_other (fallbackData : value) (record : object) (k : string) :
  k ∉ mergeable → k ≠ "fallback" →
  all_filled fallbackData record !! k = record !! k.
Proof.
  intros Hk Hfallback. unfold all_filled, with_fallback.
  rewrite !lookup_filled_ne, lookup_insert_ne; first done;
    first [congruence | intros <-; apply Hk; listed].
Qed.

(** A field among the six keeps a truthy value and otherwise takes the
    answer's. *)
Lemma prop_all_filled (fallbackData : value) (record : object) (k : string) :
  k ∈ mergeable →
  prop (all_filled fallbackData record) k
  = if truthy (prop record k) then prop record k
    else field fallbackData (source_of k).
Proof.
  intros Hk. unfold mergeable in Hk. unfold all_filled.
  repeat match goal with
         | H : _ ∈ _ :: _ |- _ => apply elem_of_cons in H as [->|H]
         | H : _ ∈ [] |- _ => by apply elem_of_nil in H
         end;
    repeat (erewrite prop_lookup; [|by apply lookup_filled_ne]);
    rewrite prop_filled;
    match goal with
    | |- context [prop ?o ?k] =>
        lazymatch o with
        | record => fail
        | _ => replace (prop o k) with (prop record k); [reflexivity|]
        end
    end;
    symmetry; apply prop_lookup; unfold with_fallback;
    rewrite ?lookup_filled_ne by discriminate; by rewrite lookup_insert_ne.
Qed.

(** ** The whole merge *)

Lemma merge_runs (fallbackData : value) (assessment record : object) (log : list string) :
  fallbackData ≠ VNull → fallbackData ≠ VUndefined →
  record !! "dataQuality" = Some (VObj assessment) →
  merge fallbackData {| Exec.locationData := record; Exec.requests := log |}
  = (Exec.Normal tt,
     {| Exec.locationData := merged fallbackData assessment record;
        Exec.requests := log |}).
Proof.
  intros Hnull Hundef Hdq. unfold merge.
  do 7 rewrite (bind_runs _ _ _ _ _ (member_runs _ _ _ Hnull Hundef)).
  rewrite (bind_runs (Exec.write _ _) _ _ _ _ eq_refl).
  cbn [Exec.locationData Exec.requests]. fold (with_fallback fallbackData record).
  do 6 rewrite (bind_runs _ _ _ _ _ (fill_runs _ _ _ _ _ Hnull Hundef)).
  fold (all_filled fallbackData record).
  assert (all_filled fallbackData record !! "dataQuality" = Some (VObj assessment))
    as Hkept.
  { rewrite lookup_all_filled_other; [done | | done]. not_listed. }
  rewrite (bind_runs _ _ _ _ _ (write_in_runs _ _ _ _ _ _ Hkept)).
  rewrite (bind_runs Exec.this _ _ _ _ eq_refl). cbn [Exec.locationData].
  rewrite (write_in_runs _ _ _ _ _ _ (lookup_insert_eq _ _ _)).
  reflexivity.
Qed.

(** The answer of the enhanced route when the service answers with a
    parsed value that has properties to read. *)
Lemma handler_merged (host : Host) (request : Request)
    (upstream : Upstream) (fallbackData : value) :
  Spec.low (Spec.level_of (extractLocationData host request)) →
  network host (Spec.lookup_url (extractLocationData host request)) = Resolves upstream →
  ok upstream = true →
  upstream_json upstream = JsonValue fallbackData →
  fallbackData ≠ VNull → fallbackData ≠ VUndefined →
  fst (handleEnhancedLocationRequest host request)
  = Spec.success (merged fallbackData (calculateDataQuality (headers request))
                    (extractLocationData host request)).
Proof.
  intros Hlow Hnet Hok Hjson Hnull Hundef.
  rewrite (handler_low _ _ Hlow). cbn [fst].
  rewrite (guarded_passed host (start host request)
             {| Exec.locationData :=
                  merged fallbackData (calculateDataQuality (headers request))
                    (extractLocationData host request);
                Exec.requests := [Spec.lookup_url (extractLocationData host request)] |});
    [reflexivity|].
  rewrite (enhance_resolved host (start host request) _ Hnet), Hok.
  unfold logged, start. cbn [Exec.locationData Exec.requests app].
  erewrite bind_runs; [|unfold Exec.await_json; by rewrite Hjson].
  by apply merge_runs, extract_dataQuality.
Qed.

(** The last case: the service answers 2xx with the JSON value [null].
    Reading [fallbackData.city] throws before anything is written, and
    the message of that TypeError becomes the [fallbackError]. *)
Lemma handler_null_answer (host : Host) (request : Request) (upstream : Upstream) :
  Spec.low (Spec.level_of (extractLocationData host request)) →
  network host (Spec.lookup_url (extractLocationData host request)) = Resolves upstream →
  ok upstream = true →
  upstream_json upstream = JsonValue VNull →
  fst (handleEnhancedLocationRequest host request)
  = Spec.success
      (<["fallbackError" := VStr "Cannot read properties of null (reading 'city')"]>
         (extractLocationData host request)).
Proof.
  intros Hlow Hnet Hok Hjson. rewrite (handler_low _ _ Hlow). cbn [fst].
  rewrite (guarded_caught host (start host request) (logged (start host request))
             "Cannot read properties of null (reading 'city')"); [reflexivity|].
  rewrite (enhance_resolved host (start host request) _ Hnet), Hok.
  erewrite bind_runs; [|unfold Exec.await_json; by rewrite Hjson].
  unfold merge, mbind, Exec.exec_bind.
  by rewrite (member_throws VNull "city" _ (or_introl eq_refl)).
Qed.

(** ** What the enhanced scorer sees *)

Lemma filter_agree_on {A} (P Q : A → Prop)
    `{!∀ x, Decision (P x), !∀ x, Decision (Q x)} (l : list A) :
  (∀ x, x ∈ l → (P x ↔ Q x)) → filter P l = filter Q l.
Proof.
  induction l as [|x l IH]; intros Hiff; [reflexivity|].
  rewrite !filter_cons.
  rewrite IH by (intros y Hy; apply Hiff; by right).
  destruct (decide (P x)) as [Hp|Hp], (decide (Q x)) as [Hq|Hq];
    try reflexivity; exfalso; apply (Hiff x (list_elem_of_here _ _)) in Hp + apply (Hiff x (list_elem_of_here _ _)) in Hq; contradiction.
Qed.

Lemma count_not_null_agree (o o' : object) :
  (∀ k, k ∈ Spec.designated_attributes → o !! k = o' !! k) →
  Spec.count_not_null o = Spec.count_not_null o'.
Proof.
  intros Hsame. unfold Spec.count_not_null. f_equal.
  apply filter_agree_on. intros k Hk.
  by rewrite (prop_lookup o o' k (Hsame k Hk)).
Qed.

Lemma merged_dataQuality (fallbackData : value) (assessment record : object) :
  merged fallbackData assessment record !! "dataQuality"
  = Some (VObj (<["enhancedScore" :=
                    VObj (Spec.assessment
                            (Spec.count_not_null (merged fallbackData assessment record)))]>
                  (<["enhanced" := VBool true]> assessment))).
Proof.
  unfold merged. cbv zeta. unfold marked at 1. rewrite lookup_insert_eq.
  rewrite calculateEnhancedDataQuality_assessment. do 5 f_equal.
  apply count_not_null_agree. intros k Hk.
  unfold marked. rewrite !lookup_insert_ne by (intros <-; revert Hk; not_listed).
  reflexivity.
Qed.

Lemma merged_field (fallbackData : value) (assessment record : object) (k : string) :
  k ∈ mergeable →
  prop (merged fallbackData assessment record) k
  = if truthy (prop record k) then prop record k
    else field fallbackData (source_of k).
Proof.
  intros Hk. rewrite <- (prop_all_filled fallbackData record k Hk).
  apply prop_lookup. unfold merged, marked. cbv zeta.
  rewrite !lookup_insert_ne by (intros <-; revert Hk; not_listed).
  reflexivity.
Qed.

Lemma merged_other (fallbackData : value) (assessment record : object) (k : string) :
  k ∉ mergeable → k ≠ "fallback" → k ≠ "dataQuality" →
  merged fallbackData assessment record !! k = record !! k.
Proof.
  intros Hk Hfallback Hdq. unfold merged, marked. cbv zeta.
  rewrite !lookup_insert_ne by done. by apply lookup_all_filled_other.
Qed.

(** The text fields of a fresh record are [null] or a text that is not
    empty, so one that is not [null] is truthy. *)
Lemma or_null_truthy (text : option string) :
  or_null text ≠ VNull → truthy (or_null text) = true.
Proof.
  unfold or_null. destruct text as [s|]; [|done].
  destruct (present (Some s)) eqn:Hpresent; [|done]. intros _. exact Hpresent.
Qed.

Lemma extract_text_truthy (host : Host) (request : Request) (k : string) :
  k ∈ ["city"; "region"; "timezone"; "postalCode"] →
  prop (extractLocationData host request) k ≠ VNull →
  truthy (prop (extractLocationData host request) k) = true.
Proof.
  intros Hk.
  repeat match goal with
         | H : _ ∈ _ :: _ |- _ => apply elem_of_cons in H as [->|H]
         | H : _ ∈ [] |- _ => by apply elem_of_nil in H
         end;
    unfold prop; extracted.
  - exact (or_null_truthy (get (headers request) "CF-IPCity")).
  - exact (or_null_truthy (get (headers request) "CF-Region")).
  - exact (or_null_truthy (get (headers request) "CF-Timezone")).
  - exact (or_null_truthy (get (headers request) "CF-postal-code")).
Qed.

(* ===================================================================== *)
(** * What the merge keeps, and what the enhanced scorer counts *)
(* ===================================================================== *)

(** X1. When the escalation succeeds (the level is minimal or limited,
    the service answers 2xx and its body parses to a value with
    properties), each of city, region, latitude, longitude, timezone and
    postalCode keeps its baseline value if that value is truthy, and
    takes the answer's property otherwise ([postal] for postalCode,
    [undefined] if the answer lacks it). Every other field but
    [fallback] and [dataQuality] is as on the baseline. In particular
    the four text fields keep any value that is not [null]; latitude and
    longitude keep a number only if it is neither 0 nor NaN. *)
Theorem X1_merge_overwrites_falsy_fields (host : Host) (request : Request)
    (upstream : Upstream) (fallbackData : value) :
  let baseline := extractLocationData host request in
  Spec.low (Spec.level_of baseline) →
  network host (Spec.lookup_url baseline) = Resolves upstream →
  ok upstream = true →
  upstream_json upstream = JsonValue fallbackData →
  fallbackData ≠ VNull → fallbackData ≠ VUndefined →
  ∃ record,
    fst (handleEnhancedLocationRequest host request) = Spec.success record
    ∧ (∀ k, k ∈ mergeable →
            prop record k
            = if truthy (prop baseline k) then prop baseline k
              else field fallbackData (source_of k))
    ∧ (∀ k, k ∈ ["city"; "region"; "timezone"; "postalCode"] →
            prop baseline k ≠ VNull → prop record k = prop baseline k)
    ∧ (∀ k, k ∉ mergeable → k ≠ "fallback" → k ≠ "dataQuality" →
            record !! k = baseline !! k).
Proof.
  intros baseline Hlow Hnet Hok Hjson Hnull Hundef. subst baseline.
  eexists. split; [by eapply handler_merged|].
  split; [|split].
  - intros k Hk. by apply merged_field.
  - intros k Hk Hset. rewrite merged_field.
    + by rewrite (extract_text_truthy host request k Hk Hset).
    + revert Hk. unfold mergeable. rewrite !elem_of_cons. tauto.
  - intros k Hk Hfallback Hdq. by apply merged_other.
Qed.

Lemma X1_witness :
  let host := answering (Resolves {| upstream_status := 200;
                upstream_json := JsonValue (VObj {[ "city" := VStr "Lyon";
                                                    "region" := VStr "ARA" ]}) |}) in
  let request := enhanced_request {[ "cf-ipcity" := "Paris" ]} in
  ∃ record,
    fst (handleEnhancedLocationRequest host request) = Spec.success record
    ∧ prop record "city" = VStr "Paris"
    ∧ prop record "region" = VStr "ARA"
    ∧ prop record "latitude" = VUndefined.
Proof.
  intros host request.
  destruct (X1_merge_overwrites_falsy_fields host request
              {| upstream_status := 200;
                 upstream_json := JsonValue (VObj {[ "city" := VStr "Lyon";
                                                     "region" := VStr "ARA" ]}) |}
              (VObj {[ "city" := VStr "Lyon"; "region" := VStr "ARA" ]}))
    as (record & Hanswer & Hfields & _).
  - left. reflexivity.
  - reflexivity.
  - reflexivity.
  - reflexivity.
  - discriminate.
  - discriminate.
  - exists record. split; [exact Hanswer|].
    rewrite !Hfields by listed. repeat split; by_vm.
Defined.

(** X2. When the escalation succeeds, the record's [dataQuality] is the
    baseline assessment with [enhanced: true] and an [enhancedScore]
    that is the assessment of the data model at the number of
    designated attributes of the merged record that are not [null]; an
    attribute that holds [undefined] is counted. *)
Theorem X2_enhanced_score_counts_not_null (host : Host) (request : Request)
    (upstream : Upstream) (fallbackData : value) :
  let baseline := extractLocationData host request in
  Spec.low (Spec.level_of baseline) →
  network host (Spec.lookup_url baseline) = Resolves upstream →
  ok upstream = true →
  upstream_json upstream = JsonValue fallbackData →
  fallbackData ≠ VNull → fallbackData ≠ VUndefined →
  ∃ record assessment,
    fst (handleEnhancedLocationRequest host request) = Spec.success record
    ∧ record !! "dataQuality" = Some (VObj assessment)
    ∧ assessment !! "enhanced" = Some (VBool true)
    ∧ assessment !! "enhancedScore"
      = Some (VObj (Spec.assessment (Spec.count_not_null record)))
    ∧ (∀ k, k ≠ "enhanced" → k ≠ "enhancedScore" →
            assessment !! k = calculateDataQuality (headers request) !! k).
Proof.
  intros baseline Hlow Hnet Hok Hjson Hnull Hundef. subst baseline.
  do 2 eexists. split; [by eapply handler_merged|].
  split; [apply merged_dataQuality|]. split; [|split].
  - by rewrite lookup_insert_ne, lookup_insert_eq.
  - by rewrite lookup_insert_eq.
  - intros k Henhanced Hscore. by rewrite !lookup_insert_ne.
Qed.

Lemma X2_witness :
  let host := answering (Resolves {| upstream_status := 200;
                upstream_json := JsonValue (VObj {[ "city" := VStr "Lyon" ]}) |}) in
  let request := enhanced_request ∅ in
  ∃ record assessment,
    fst (handleEnhancedLocationRequest host request) = Spec.success record
    ∧ record !! "dataQuality" = Some (VObj assessment)
    ∧ assessment !! "enhancedScore"
      = Some (VObj (Spec.assessment (Spec.count_not_null record))).
Proof.
  intros host request.
  destruct (X2_enhanced_score_counts_not_null host request
              {| upstream_status := 200;
                 upstream_json := JsonValue (VObj {[ "city" := VStr "Lyon" ]}) |}
              (VObj {[ "city" := VStr "Lyon" ]}))
    as (record & assessment & Hanswer & Hdq & _ & Hscore & _).
  - left. reflexivity.
  - reflexivity.
  - reflexivity.
  - reflexivity.
  - discriminate.
  - discriminate.
  - exists record, assessment. auto.
Defined.

(** X3. The enhanced route answers 200 to every request: nothing
    outside the inner [try] throws, and its [catch] does not throw, so
    the 500 branch of the handler is never taken. *)
Theorem X3_enhanced_route_never_500 (host : Host) (request : Request) :
  status (fst (handleEnhancedLocationRequest host request)) = 200
  ∧ status (fst (fetch host (enhanced_request (headers request)))) = 200.
Proof.
  split; [apply handler_status|].
  change (fetch host (enhanced_request (headers request)))
    with (handleEnhancedLocationRequest host (enhanced_request (headers request))).
  apply handler_status.
Qed.

(** X4. The raw scorer and the extractor disagree on the postal
    header: the record's [postalCode] comes from [CF-postal-code], the
    scorer counts [CF-IPPostalCode]. A request that carries only a
    postal code under the first name has it in the record and a count
    of 0; under the second name it is counted and the record has none. *)
Theorem X4_postal_header_mismatch (host : Host) (code : string) :
  code ≠ "" →
  let by_record := enhanced_request {[ "cf-postal-code" := code ]} in
  let by_scorer := enhanced_request {[ "cf-ippostalcode" := code ]} in
  prop (extractLocationData host by_record) "postalCode" = VStr code
  ∧ prop (calculateDataQuality (headers by_record)) "availableFields" = VNum (of_nat 0)
  ∧ prop (extractLocationData host by_scorer) "postalCode" = VNull
  ∧ prop (calculateDataQuality (headers by_scorer)) "availableFields" = VNum (of_nat 1).
Proof.
  intros Hcode by_record by_scorer. subst by_record by_scorer.
  destruct code as [|c rest]; [done|].
  repeat split; by_vm.
Qed.

Lemma X4_witness :
  prop (extractLocationData (answering (Rejects "offline"))
          (enhanced_request {[ "cf-postal-code" := "75001" ]})) "postalCode"
  = VStr "75001"
  ∧ prop (calculateDataQuality {[ "cf-postal-code" := "75001" ]}) "availableFields"
    = VNum (of_nat 0).
Proof.
  destruct (X4_postal_header_mismatch (answering (Rejects "offline")) "75001")
    as (Hrecord & Hcount & _); [discriminate|].
  split; [exact Hrecord | exact Hcount].
Defined.

(* ===================================================================== *)
(** * Texts: [split] and [trim] *)
(* ===================================================================== *)

Lemma free_of_cons (sep c : ascii) (s : string) :
  free_of sep (String c s) ↔ c ≠ sep ∧ free_of sep s.
Proof. unfold free_of. cbn. intuition congruence. Qed.

(** Freedom from a character, decided by a search. *)
Lemma free_of_check (c : ascii) (s : string) :
  existsb (Ascii.eqb c) (list_ascii_of_string s) = false → free_of c s.
Proof.
  intros Hcheck Hin. apply not_true_iff_false in Hcheck. apply Hcheck.
  apply existsb_exists. exists c. split; [exact Hin | apply Ascii.eqb_refl].
Qed.

(** A text without the separator is one piece. *)
Lemma split_free (sep : ascii) (s : string) :
  free_of sep s → split sep s = [s].
Proof.
  induction s as [|c s IH]; [reflexivity|].
  intros [Hc Hs]%free_of_cons. cbn [split].
  apply Ascii.eqb_neq in Hc. rewrite Hc, (IH Hs). reflexivity.
Qed.

(** The first piece ends at the first separator. *)
Lemma split_cut (sep : ascii) (first rest : string) :
  free_of sep first →
  split sep (first ++ String sep rest) = first :: split sep rest.
Proof.
  induction first as [|c first IH].
  - intros _. change (EmptyString ++ String sep rest) with (String sep rest).
    cbn [split]. by rewrite Ascii.eqb_refl.
  - intros [Hc Hs]%free_of_cons.
    change (String c first ++ String sep rest)
      with (String c (first ++ String sep rest)).
    cbn [split]. apply Ascii.eqb_neq in Hc. by rewrite Hc, (IH Hs).
Qed.

(** Every text is cut this way or has no separator. *)
Lemma split_cases (sep : ascii) (s : string) :
  free_of sep s
  ∨ ∃ first rest, free_of sep first ∧ s = first ++ String sep rest.
Proof.
  induction s as [|c s IH].
  - left. unfold free_of. cbn. tauto.
  - destruct (Ascii.eqb_spec c sep) as [->|Hne].
    + right. exists EmptyString, s. split; [unfold free_of; cbn; tauto | reflexivity].
    + destruct IH as [Hfree|(first & rest & Hfree & ->)].
      * left. by apply free_of_cons.
      * right. exists (String c first), rest. split; [by apply free_of_cons | reflexivity].
Qed.

(** ** [trim] on lists of characters *)

Lemma trimStart_lstrip (s : string) :
  list_ascii_of_string (trimStart s) = lstrip (list_ascii_of_string s).
Proof.
  induction s as [|c s IH]; [reflexivity|].
  cbn. by destruct (is_space c).
Qed.

Lemma lstrip_split (l : list ascii) :
  ∃ pad, l = (pad ++ lstrip l)%list ∧ Forall (fun c => is_space c = true) pad.
Proof.
  induction l as [|c l (pad & Hl & Hpad)].
  - by exists [].
  - cbn. destruct (is_space c) eqn:Hc.
    + exists (c :: pad). split; [cbn; congruence | by constructor].
    + by exists [].
Qed.

Lemma lstrip_head (l : list ascii) (c : ascii) (rest : list ascii) :
  lstrip l = c :: rest → is_space c = false.
Proof.
  induction l as [|a l IH]; [discriminate|].
  cbn. destruct (is_space a) eqn:Ha; [exact IH | congruence].
Qed.

Lemma string_of_list_app (l m : list ascii) :
  string_of_list_ascii (l ++ m)%list
  = string_of_list_ascii l ++ string_of_list_ascii m.
Proof.
  induction l as [|c l IH]; [reflexivity|].
  cbn [app string_of_list_ascii]. rewrite IH. reflexivity.
Qed.

Lemma trim_list (s : string) :
  list_ascii_of_string (trim s)
  = rev (lstrip (rev (lstrip (list_ascii_of_string s)))).
Proof.
  unfold trim, reverse.
  by rewrite list_ascii_of_string_of_list_ascii, trimStart_lstrip,
    list_ascii_of_string_of_list_ascii, trimStart_lstrip.
Qed.

Lemma starts_blank_list (s : string) :
  starts_blank s = match list_ascii_of_string s with
                   | c :: _ => is_space c
                   | [] => false
                   end.
Proof. by destruct s. Qed.

(** [trim] removes white space from both ends and nothing else, and
    what is left has none at either end. *)
Lemma trim_spec (s : string) :
  ∃ left right,
    s = left ++ trim s ++ right ∧ blank left ∧ blank right ∧ unpadded (trim s).
Proof.
  pose proof (trim_list s) as Htrim.
  destruct (lstrip_split (list_ascii_of_string s)) as (a & Ha & Hblank_a).
  set (x := lstrip (list_ascii_of_string s)) in *.
  destruct (lstrip_split (rev x)) as (b & Hb & Hblank_b).
  set (y := lstrip (rev x)) in *.
  assert (x = (rev y ++ rev b)%list) as Hx.
  { rewrite <- rev_app_distr, <- Hb. by rewrite rev_involutive. }
  exists (string_of_list_ascii a), (string_of_list_ascii (rev b)).
  split; [|split; [|split]].
  - transitivity (string_of_list_ascii (list_ascii_of_string s));
      [symmetry; apply string_of_list_ascii_of_string|].
    rewrite Ha, Hx, !string_of_list_app, <- Htrim.
    by rewrite string_of_list_ascii_of_string.
  - intros c. rewrite list_ascii_of_string_of_list_ascii.
    apply (proj1 (List.Forall_forall _ _) Hblank_a).
  - intros c. rewrite list_ascii_of_string_of_list_ascii, <- in_rev.
    apply (proj1 (List.Forall_forall _ _) Hblank_b).
  - unfold unpadded. rewrite !starts_blank_list. unfold reverse.
    rewrite list_ascii_of_string_of_list_ascii, Htrim, rev_involutive.
    split.
    + destruct (rev y) as [|c m] eqn:Hm; [reflexivity|].
      apply (lstrip_head (list_ascii_of_string s) c (m ++ rev b)%list).
      fold x. by rewrite Hx.
    + subst y. destruct (lstrip (rev x)) as [|c m] eqn:Hy; [reflexivity|].
      by apply (lstrip_head (rev x) c m).
Qed.

(* ===================================================================== *)
(** * The extractor, field by field *)
(* ===================================================================== *)

Lemma lookup_parsed_eq (parse : string → float) (k : string) (o : object) :
  parsed parse k o !! k
  = match o !! k with
    | Some (VStr s) => if present (Some s) then Some (VNum (parse s)) else Some (VStr s)
    | other => other
    end.
Proof.
  unfold parsed, prop. destruct (o !! k) as [[]|] eqn:Hk; try done.
  cbn [truthy present]. destruct (negb _); [apply lookup_insert_eq | done].
Qed.

Lemma dom_parsed (parse : string → float) (k : string) (o : object) :
  dom (parsed parse k o) = dom o.
Proof.
  unfold parsed, prop. destruct (o !! k) as [[]|] eqn:Hk; try done.
  destruct (truthy _); [|done].
  apply dom_insert_lookup_L. by rewrite Hk.
Qed.

Ltac extracted' :=
  unfold extractLocationData; cbv zeta;
  rewrite ?lookup_parsed_ne by discriminate.

Lemma extract_text (host : Host) (request : Request) (k h : string) :
  (k, h) ∈ text_fields →
  extractLocationData host request !! k = Some (or_null (get (headers request) h)).
Proof.
  intros Hk. unfold text_fields in Hk.
  repeat (apply elem_of_cons in Hk as [[= -> ->]|Hk]);
    [extracted'; reflexivity .. | by apply elem_of_nil in Hk].
Qed.

Lemma extract_number (host : Host) (request : Request)
    (k h : string) (parse : string → float) :
  (k, h, parse) ∈ number_fields →
  extractLocationData host request !! k
  = Some (match or_null (get (headers request) h) with
          | VStr s => VNum (parse s)
          | other => other
          end).
Proof.
  intros Hk. unfold number_fields in Hk.
  repeat (apply elem_of_cons in Hk as [[= -> -> ->]|Hk]);
    [ extracted'; rewrite lookup_parsed_eq; extracted';
      match goal with
      | |- context [get ?hs ?h] =>
          change (list_to_map _ !! _) with (Some (or_null (get hs h)));
          unfold or_null; destruct (get hs h) as [s|]; [|reflexivity];
          destruct (present (Some s)) eqn:Hp; [by rewrite Hp | reflexivity]
      end ..
    | by apply elem_of_nil in Hk ].
Qed.

Lemma extract_dom (host : Host) (request : Request) :
  dom (extractLocationData host request) = list_to_set record_keys.
Proof.
  unfold extractLocationData. cbv zeta.
  rewrite !dom_parsed, dom_list_to_map_L. reflexivity.
Qed.

Lemma or_null_cases (text : option string) :
  or_null text
  = match text with
    | Some s => if String.eqb s "" then VNull else VStr s
    | None => VNull
    end.
Proof. destruct text as [s|]; [|done]. cbn. by destruct (String.eqb s ""). Qed.

(** X5. A fresh record always has the same twenty keys. An attribute
    whose header is absent or empty is [null], never missing, empty or
    zero; a text attribute otherwise holds the header's text as it is,
    and latitude, longitude, metroCode and asn hold the number that
    [parseFloat] or [parseInt] reads from it (NaN when there is none to
    read). The timestamp is the clock's reading. *)
Theorem X5_record_shape (host : Host) (request : Request) :
  let record := extractLocationData host request in
  dom record = list_to_set record_keys
  ∧ (∀ k h, (k, h) ∈ text_fields →
       prop record k
       = match get (headers request) h with
         | Some s => if String.eqb s "" then VNull else VStr s
         | None => VNull
         end)
  ∧ (∀ k h parse, (k, h, parse) ∈ number_fields →
       prop record k
       = match get (headers request) h with
         | Some s => if String.eqb s "" then VNull else VNum (parse s)
         | None => VNull
         end)
  ∧ prop record "timestamp" = VStr (now host)
  ∧ prop record "dataQuality" = VObj (calculateDataQuality (headers request)).
Proof.
  cbv zeta. split; [apply extract_dom|]. split; [|split; [|split]].
  - intros k h Hk. unfold prop.
    by rewrite (extract_text host request k h Hk), or_null_cases.
  - intros k h parse Hk. unfold prop.
    rewrite (extract_number host request k h parse Hk), or_null_cases.
    destruct (get (headers request) h) as [s|]; [|done].
    by destruct (String.eqb s "").
  - unfold prop. extracted. reflexivity.
  - unfold prop. by rewrite extract_dataQuality.
Qed.

(** ** The resolved address *)

Lemma in_append (c : ascii) (a b : string) :
  In c (list_ascii_of_string (a ++ b))
  ↔ In c (list_ascii_of_string a) ∨ In c (list_ascii_of_string b).
Proof.
  induction a as [|x a IH].
  - change (EmptyString ++ b) with b. cbn. tauto.
  - change (String x a ++ b) with (String x (a ++ b)). cbn. rewrite IH. tauto.
Qed.

Lemma trim_free (c : ascii) (s : string) : free_of c s → free_of c (trim s).
Proof.
  destruct (trim_spec s) as (l & r & Hs & _).
  unfold free_of. intros Hfree Hin. apply Hfree.
  rewrite Hs, !in_append. tauto.
Qed.

Lemma present_not_empty (s : string) : present (Some s) = true ↔ s ≠ "".
Proof. cbn. by rewrite negb_true_iff, String.eqb_neq. Qed.

(** X6. The record's [ip] is never empty. A connecting-IP header that
    is not empty is the address, whatever else the request carries.
    Without one, the address is the first comma-separated entry of the
    forwarded-for header with the white space around it removed (it has
    no comma and no white space at either end), or ["unknown"] when that
    entry is empty or blank or the header is absent. *)
Theorem X6_ip_resolution (host : Host) (request : Request) :
  let connecting := get (headers request) "CF-Connecting-IP" in
  let forwarded := get (headers request) "X-Forwarded-For" in
  ∃ ip : string,
    prop (extractLocationData host request) "ip" = VStr ip
    ∧ ip ≠ ""
    ∧ (∀ address, connecting = Some address → address ≠ "" → ip = address)
    ∧ (present connecting = false →
       ∀ first rest,
         free_of "," first →
         forwarded = Some first ∨ forwarded = Some (first ++ String "," rest) →
         ip = (if String.eqb (trim first) "" then "unknown" else trim first)
         ∧ free_of "," ip ∧ unpadded ip)
    ∧ (present connecting = false → present forwarded = false → ip = "unknown").
Proof.
  cbv zeta. destruct (extract_ip host request) as (ip & Hip & _ & Hdef).
  exists ip. unfold prop. rewrite Hip. split; [reflexivity|].
  set (connecting := get (headers request) "CF-Connecting-IP") in *.
  set (forwarded := get (headers request) "X-Forwarded-For") in *.
  assert (∀ text s, or_text text "unknown" = s → s ≠ "") as Hnonempty.
  { intros text s <-. unfold or_text. destruct text as [t|]; [|done].
    destruct (present (Some t)) eqn:Hp; [by apply present_not_empty | done]. }
  split; [by apply (Hnonempty _ _ (eq_sym Hdef))|]. split; [|split].
  - intros address Hc Hne. apply present_not_empty in Hne.
    rewrite Hdef, Hc. unfold or_else. rewrite Hne. cbn [or_text]. by rewrite Hne.
  - intros Hc first rest Hfree Hfwd.
    assert (ip = if String.eqb (trim first) "" then "unknown" else trim first)
      as Hresolved.
    { rewrite Hdef. unfold or_else. rewrite Hc.
      destruct Hfwd as [->| ->]; cbn [mbind option_bind].
      - rewrite (split_free "," first Hfree). cbn.
        by destruct (String.eqb (trim first) "").
      - rewrite (split_cut "," first rest Hfree). cbn.
        by destruct (String.eqb (trim first) ""). }
    split; [exact Hresolved|]. rewrite Hresolved.
    destruct (String.eqb (trim first) "") eqn:Hempty.
    + split; [by apply free_of_check | split; reflexivity].
    + split; [by apply trim_free|]. by destruct (trim_spec first) as (_ & _ & _ & _ & _ & Hun).
  - intros Hc Hf. rewrite Hdef. unfold or_else. rewrite Hc.
    destruct forwarded as [s|] eqn:Hs; [|reflexivity].
    apply not_true_iff_false in Hf. rewrite present_not_empty in Hf.
    assert (s = "") as -> by (destruct (String.eqb_spec s ""); tauto).
    reflexivity.
Qed.

Lemma X6_witness :
  prop (extractLocationData (answering (Rejects "offline"))
          (enhanced_request {[ "x-forwarded-for" := " 203.0.113.7 , 10.0.0.1" ]})) "ip"
  = VStr "203.0.113.7".
Proof.
  destruct (X6_ip_resolution (answering (Rejects "offline"))
              (enhanced_request {[ "x-forwarded-for" := " 203.0.113.7 , 10.0.0.1" ]}))
    as (ip & Hip & _ & _ & Hforwarded & _).
  rewrite Hip. f_equal.
  apply (Hforwarded eq_refl " 203.0.113.7 " " 10.0.0.1").
  - by apply free_of_check.
  - right. reflexivity.
Defined.

(** ** The data centre *)



(* ===================================================================== *)
(** * The scorers against the record *)
(* ===================================================================== *)

Lemma length_filter_cons {A} (P : A → Prop) `{!∀ x, Decision (P x)} (x : A) (l : list A) :
  length (filter P (x :: l))
  = ((if bool_decide (P x) then 1 else 0) + length (filter P l))%nat.
Proof.
  rewrite filter_cons.
  case_bool_decide; [by rewrite decide_True | by rewrite decide_False].
Qed.

Lemma text_not_null (text : option string) :
  Spec.not_null (or_null text) ↔ Spec.is_present text.
Proof.
  rewrite <- present_iff. unfold Spec.not_null, or_null.
  destruct text as [s|]; [|split; [congruence | discriminate]].
  destruct (present (Some s)); split; congruence.
Qed.

Lemma number_not_null (parse : string → float) (text : option string) :
  Spec.not_null (match or_null text with VStr s => VNum (parse s) | other => other end)
  ↔ Spec.is_present text.
Proof.
  rewrite <- present_iff. unfold Spec.not_null, or_null.
  destruct text as [s|]; [|split; [congruence | discriminate]].
  destruct (present (Some s)); split; congruence.
Qed.

(** An attribute of the record is not [null] exactly when its header
    is there and not empty. *)
Lemma attribute_not_null (host : Host) (request : Request) (k h : string) :
  (k, h) ∈ [("country", "CF-IPCountry"); ("region", "CF-Region");
            ("city", "CF-IPCity"); ("latitude", "CF-IPLatitude");
            ("longitude", "CF-IPLongitude"); ("timezone", "CF-Timezone");
            ("postalCode", "CF-postal-code")] →
  bool_decide (Spec.not_null (prop (extractLocationData host request) k))
  = bool_decide (Spec.is_present (get (headers request) h)).
Proof.
  intros Hk. apply bool_decide_ext. unfold prop.
  repeat (apply elem_of_cons in Hk as [[= -> ->]|Hk]);
    [ first [ erewrite extract_text by (unfold text_fields; listed);
              apply text_not_null
            | erewrite extract_number by (unfold number_fields; listed);
              apply number_not_null ] ..
    | by apply elem_of_nil in Hk ].
Qed.

Ltac attribute host request k h :=
  rewrite (attribute_not_null host request k h) by listed.

(** X8. The raw score of a request and its record tell the same story
    for six fields: the number of designated headers that are there and
    not empty is the number of country, region, city, latitude,
    longitude and timezone that are not [null] in the record, plus one
    if [CF-IPPostalCode] is there. So, unless exactly one of
    [CF-IPPostalCode] and [CF-postal-code] is there, the enhanced scorer
    applied to the fresh record gives the raw assessment. *)
Theorem X8_score_reflects_record (host : Host) (request : Request) :
  let record := extractLocationData host request in
  let postal_counted := Spec.is_present (get (headers request) "CF-IPPostalCode") in
  let postal_recorded := Spec.is_present (get (headers request) "CF-postal-code") in
  Spec.count_present (headers request)
  = (count_shared record + (if bool_decide postal_counted then 1 else 0))%nat
  ∧ Spec.count_not_null record
    = (count_shared record + (if bool_decide postal_recorded then 1 else 0))%nat
  ∧ ((postal_counted ↔ postal_recorded) →
     calculateEnhancedDataQuality record = calculateDataQuality (headers request)).
Proof.
  cbv zeta.
  assert (Spec.count_present (headers request)
          = (count_shared (extractLocationData host request)
             + (if bool_decide (Spec.is_present (get (headers request) "CF-IPPostalCode"))
                then 1 else 0))%nat) as Hraw.
  { unfold Spec.count_present, Spec.designated_headers, count_shared, shared_attributes.
    rewrite !length_filter_cons, !filter_nil.
    attribute host request "country" "CF-IPCountry". attribute host request "region" "CF-Region".
    attribute host request "city" "CF-IPCity". attribute host request "latitude" "CF-IPLatitude".
    attribute host request "longitude" "CF-IPLongitude". attribute host request "timezone" "CF-Timezone".
    cbn [length]. lia. }
  assert (Spec.count_not_null (extractLocationData host request)
          = (count_shared (extractLocationData host request)
             + (if bool_decide (Spec.is_present (get (headers request) "CF-postal-code"))
                then 1 else 0))%nat) as Hrecord.
  { unfold Spec.count_not_null, Spec.designated_attributes, count_shared, shared_attributes.
    rewrite !length_filter_cons, !filter_nil.
    attribute host request "postalCode" "CF-postal-code".
    cbn [length]. lia. }
  split; [exact Hraw|]. split; [exact Hrecord|].
  intros Hsame.
  rewrite calculateEnhancedDataQuality_assessment, calculateDataQuality_assessment.
  rewrite Hraw, Hrecord. by rewrite (bool_decide_ext _ _ Hsame).
Qed.

Lemma X8_witness :
  let request := enhanced_request {[ "cf-ipcountry" := "FR"; "cf-iplatitude" := "48.85" ]} in
  calculateEnhancedDataQuality (extractLocationData (answering (Rejects "offline")) request)
  = calculateDataQuality (headers request).
Proof.
  intros request.
  apply (proj2 (proj2 (X8_score_reflects_record (answering (Rejects "offline")) request))).
  split; intros (s & Hs & _); vm_compute in Hs; discriminate Hs.
Defined.

Lemma level_by_count (headers : Headers) :
  (Spec.count_present headers ≤ 7)%nat
  ∧ prop (calculateDataQuality headers) "level"
    = VStr (nth (Spec.count_present headers)
              ["minimal"; "minimal"; "limited"; "fair"; "fair"; "good";
               "excellent"; "excellent"] "").
Proof.
  pose proof (count_present_le headers) as Hle. split; [exact Hle|].
  rewrite calculateDataQuality_assessment.
  destruct (assessment_props (Spec.count_present headers)) as (_ & -> & _).
  generalize dependent (Spec.count_present headers). intros n Hn.
  do 8 (destruct n as [|n]; [by_vm|]). exfalso; lia.
Qed.


(* ===================================================================== *)
(** * The entry point *)
(* ===================================================================== *)

(** The answer of the enhanced route always carries a record. *)
Lemma enhanced_answer (host : Host) (request : Request) :
  ∃ record outbound,
    handleEnhancedLocationRequest host request = (Spec.success record, outbound)
    ∧ (Spec.low (Spec.level_of (extractLocationData host request)) →
       outbound = [Spec.lookup_url (extractLocationData host request)])
    ∧ (¬ Spec.low (Spec.level_of (extractLocationData host request)) →
       outbound = [] ∧ record = extractLocationData host request).
Proof.
  destruct (is_string (Spec.level_of (extractLocationData host request)) "minimal"
            || is_string (Spec.level_of (extractLocationData host request)) "limited")
    eqn:Hlevel.
  - apply low_iff in Hlevel. do 2 eexists.
    split; [apply (handler_low _ _ Hlevel)|]. split; [done|]. by intros [].
  - assert (¬ Spec.low (Spec.level_of (extractLocationData host request))) as Hhigh
      by (rewrite <- low_iff; congruence).
    do 2 eexists. split; [apply (handler_high _ _ Hhigh)|]. split; [done|]. done.
Qed.

(** The five branches of [fetch]. *)
Lemma fetch_routes (host : Host) (request : Request) :
  (method request = "OPTIONS" ∧ fetch host request = (handleCORS, []))
  ∨ (method request ≠ "OPTIONS"
     ∧ (pathname request = "/location" ∨ pathname request = "/")
     ∧ fetch host request = (Spec.success (extractLocationData host request), []))
  ∨ (method request ≠ "OPTIONS"
     ∧ pathname request = "/location-enhanced"
     ∧ fetch host request = handleEnhancedLocationRequest host request)
  ∨ (method request ≠ "OPTIONS"
     ∧ pathname request = "/health"
     ∧ fetch host request
       = ({| status := 200;
             response_headers := json_headers;
             body := Some (Stringified
                       (VObj (list_to_map [("status", VStr "ok");
                                           ("timestamp", VStr (now host))]))
                       None) |}, []))
  ∨ (method request ≠ "OPTIONS"
     ∧ pathname request ≠ "/location" ∧ pathname request ≠ "/"
     ∧ pathname request ≠ "/location-enhanced" ∧ pathname request ≠ "/health"
     ∧ fetch host request
       = ({| status := 404;
             response_headers := getCORSHeaders;
             body := Some (Literal "Not Found") |}, [])).
Proof.
  unfold fetch.
  destruct (String.eqb_spec (method request) "OPTIONS") as [Hm|Hm]; [by left|].
  right.
  destruct (String.eqb_spec (pathname request) "/location") as [Hloc|Hloc];
    [left; cbn [orb]; auto|].
  destruct (String.eqb_spec (pathname request) "/") as [Hroot|Hroot];
    [left; cbn [orb]; auto|].
  right. cbn [orb].
  destruct (String.eqb_spec (pathname request) "/location-enhanced") as [Henh|Henh];
    [left; auto|].
  right.
  destruct (String.eqb_spec (pathname request) "/health") as [Hhealth|Hhealth];
    [left; auto|].
  right. auto 10.
Qed.

(** X10. The worker answers 200 or 404 and nothing else: 404 exactly
    to a request that is not a preflight and whose path is none of the
    four routes, 200 to every other one. Only the preflight answer has
    no body. No request makes it answer 500. *)
Theorem X10_status_by_route (host : Host) (request : Request) :
  let response := fst (fetch host request) in
  let routed := pathname request = "/" ∨ pathname request = "/location"
                ∨ pathname request = "/location-enhanced"
                ∨ pathname request = "/health" in
  (status response = 404 ↔ method request ≠ "OPTIONS" ∧ ¬ routed)
  ∧ (status response = 200 ↔ method request = "OPTIONS" ∨ routed)
  ∧ (body response = None ↔ method request = "OPTIONS").
Proof.
  cbv zeta.
  destruct (fetch_routes host request)
    as [[Hm ->]|[(Hm & Hp & ->)|[(Hm & Hp & ->)|[(Hm & Hp & ->)|(Hm & H1 & H2 & H3 & H4 & ->)]]]];
    try (destruct (enhanced_answer host request) as (record & outbound & -> & _));
    cbn [fst status body handleCORS Spec.success];
    (split; [|split]); split; try tauto; try discriminate; try (intros; exfalso; tauto);
    try (intros _; tauto); try (intros [? ?]; tauto).
Qed.


(** The level is low exactly when at most two designated headers are
    there. *)
Lemma low_by_count (host : Host) (request : Request) :
  Spec.low (Spec.level_of (extractLocationData host request))
  ↔ (Spec.count_present (headers request) ≤ 2)%nat.
Proof.
  unfold Spec.level_of, prop. rewrite extract_dataQuality. cbn [field].
  destruct (level_by_count (headers request)) as (Hle & Hlevel).
  rewrite Hlevel.
  generalize dependent (Spec.count_present (headers request)). intros n Hn.
  do 8 (destruct n as [|n];
        [rewrite <- low_iff; split; intros H;
         first [lia | by_vm | vm_compute in H; discriminate H]|]).
  exfalso; lia.
Qed.

(** X12. One request to the worker causes at most one outbound
    request, and only the enhanced route causes any: the lookup of the
    record's address goes out exactly when the request is not a
    preflight, its path is ['/location-enhanced'] and at most two of
    the seven designated headers are there and not empty. *)
Theorem X12_outbound_requests (host : Host) (request : Request) :
  let outbound := snd (fetch host request) in
  let escalates := method request ≠ "OPTIONS"
                   ∧ pathname request = "/location-enhanced"
                   ∧ (Spec.count_present (headers request) ≤ 2)%nat in
  (escalates →
   outbound = [Spec.lookup_url (extractLocationData host request)])
  ∧ (¬ escalates → outbound = [])
  ∧ (length outbound ≤ 1)%nat.
Proof.
  cbv zeta.
  assert (∀ P (l : list string) x, (P → l = [x]) → (¬ P → l = []) → P ∨ ¬ P →
          (P → l = [x]) ∧ (¬ P → l = []) ∧ (length l ≤ 1)%nat) as Hpack.
  { intros P l x Hyes Hno [HP|HP]; (split; [done|split; [done|]]);
      [rewrite (Hyes HP) | rewrite (Hno HP)]; cbn; lia. }
  apply Hpack.
  - intros (Hm & Hp & Hcount). apply low_by_count with (host := host) in Hcount.
    unfold fetch. apply String.eqb_neq in Hm. rewrite Hm, Hp. cbn.
    by rewrite (handler_low _ _ Hcount).
  - intros Hnot.
    destruct (fetch_routes host request)
      as [[Hm ->]|[(Hm & Hp & ->)|[(Hm & Hp & ->)|[(Hm & Hp & ->)|(Hm & H1 & H2 & H3 & H4 & ->)]]]];
      try reflexivity.
    destruct (enhanced_answer host request) as (record & outbound & -> & _ & Hhigh).
    apply Hhigh. rewrite low_by_count. tauto.
  - destruct (String.eqb_spec (method request) "OPTIONS");
      destruct (String.eqb_spec (pathname request) "/location-enhanced");
      destruct (le_dec (Spec.count_present (headers request)) 2); tauto.
Qed.

Lemma X12_witness :
  snd (fetch (answering (Rejects "offline"))
         (enhanced_request {[ "cf-ipcountry" := "FR"; "cf-ipcity" := "Paris" ]}))
  = ["https://ipapi.co/unknown/json/"]
  ∧ snd (fetch (answering (Rejects "offline"))
           {| method := "OPTIONS"; pathname := "/location-enhanced"; headers := ∅ |})
    = [].
Proof.
  split.
  - etransitivity; [|by_vm].
    apply (proj1 (X12_outbound_requests (answering (Rejects "offline"))
                    (enhanced_request {[ "cf-ipcountry" := "FR"; "cf-ipcity" := "Paris" ]}))).
    split; [discriminate|]. split; [reflexivity|]. vm_compute. lia.
  - apply (proj1 (proj2 (X12_outbound_requests (answering (Rejects "offline"))
                    {| method := "OPTIONS"; pathname := "/location-enhanced";
                       headers := ∅ |}))).
    intros [Hm _]. by apply Hm.
Defined.

(** The extractor looks at the headers and the clock only. *)
Lemma extract_by_headers (host other : Host) (request request' : Request) :
  headers request = headers request' → now host = now other →
  extractLocationData host request = extractLocationData other request'.
Proof. intros Hh Hn. unfold extractLocationData. by rewrite Hh, Hn. Qed.

(** X13. With three or more designated headers there, the enhanced
    route does what the plain route does: the same answer and no
    outbound request. The plain route never looks at the network: two
    hosts whose clocks agree give the same answer. *)
Theorem X13_enhanced_as_plain (host : Host) (verb : string) (sent : Headers) :
  verb ≠ "OPTIONS" →
  (3 ≤ Spec.count_present sent)%nat →
  fetch host {| method := verb; pathname := "/location-enhanced"; headers := sent |}
  = fetch host {| method := verb; pathname := "/location"; headers := sent |}
  ∧ ∀ other : Host,
      now other = now host →
      fetch other {| method := verb; pathname := "/location"; headers := sent |}
      = fetch host {| method := verb; pathname := "/location"; headers := sent |}.
Proof.
  intros Hm Hcount. apply String.eqb_neq in Hm. split.
  - unfold fetch. cbn [method pathname]. rewrite Hm. cbn [String.eqb Ascii.eqb Bool.eqb orb].
    rewrite handler_high.
    + unfold handleLocationRequest, Spec.success.
      by rewrite (extract_by_headers host host
                    {| method := verb; pathname := "/location-enhanced"; headers := sent |}
                    {| method := verb; pathname := "/location"; headers := sent |}
                    eq_refl eq_refl).
    + rewrite low_by_count. cbn [headers]. lia.
  - intros other Hnow. unfold fetch. cbn [method pathname]. rewrite Hm.
    cbn [String.eqb Ascii.eqb Bool.eqb orb]. unfold handleLocationRequest.
    by rewrite (extract_by_headers other host _ _ eq_refl Hnow).
Qed.

Lemma X13_witness :
  fetch (answering (Rejects "offline"))
    {| method := "GET"; pathname := "/location-enhanced";
       headers := {[ "cf-ipcountry" := "FR"; "cf-region" := "IDF"; "cf-ipcity" := "Paris" ]} |}
  = fetch (answering (Rejects "offline"))
      {| method := "GET"; pathname := "/location";
         headers := {[ "cf-ipcountry" := "FR"; "cf-region" := "IDF"; "cf-ipcity" := "Paris" ]} |}.
Proof.
  refine (proj1 (X13_enhanced_as_plain (answering (Rejects "offline")) "GET"
                   {[ "cf-ipcountry" := "FR"; "cf-region" := "IDF"; "cf-ipcity" := "Paris" ]}
                   _ _)).
  - discriminate.
  - vm_compute. lia.
Defined.

(* ===================================================================== *)
(** * The outcomes of the enhanced route *)
(* ===================================================================== *)

(** The service answers 2xx with [null]: reading [fallbackData.city]
    throws before anything is written. *)
Lemma handler_nullish_answer (host : Host) (request : Request)
    (upstream : Upstream) (fallbackData : value) :
  Spec.low (Spec.level_of (extractLocationData host request)) →
  network host (Spec.lookup_url (extractLocationData host request)) = Resolves upstream →
  ok upstream = true →
  upstream_json upstream = JsonValue fallbackData →
  fallbackData = VNull ∨ fallbackData = VUndefined →
  fst (handleEnhancedLocationRequest host request)
  = Spec.success
      (<["fallbackError" := VStr (Exec.cannot_read fallbackData "city")]>
         (extractLocationData host request)).
Proof.
  intros Hlow Hnet Hok Hjson Hnullish. rewrite (handler_low _ _ Hlow). cbn [fst].
  rewrite (guarded_caught host (start host request) (logged (start host request))
             (Exec.cannot_read fallbackData "city")); [reflexivity|].
  rewrite (enhance_resolved host (start host request) _ Hnet), Hok.
  erewrite bind_runs; [|unfold Exec.await_json; by rewrite Hjson].
  unfold merge, mbind, Exec.exec_bind.
  by rewrite (member_throws fallbackData "city" _ Hnullish).
Qed.

Lemma merged_fallback (fallbackData : value) (assessment record : object) :
  merged fallbackData assessment record !! "fallback"
  = with_fallback fallbackData record !! "fallback".
Proof.
  unfold merged, marked. cbv zeta. rewrite !lookup_insert_ne by discriminate.
  unfold all_filled. by rewrite !lookup_filled_ne by discriminate.
Qed.

Lemma nullish_dec (v : value) : {v = VNull ∨ v = VUndefined} + {v ≠ VNull ∧ v ≠ VUndefined}.
Proof. destruct v; first [left; by auto | right; split; discriminate]. Defined.

(** X14. The record that the enhanced route answers with is of one of
    three kinds, by what the outbound call did. It has a [fallback]
    exactly when the level was low and the service answered 2xx with a
    body that parsed to something other than [null]; it has a
    [fallbackError] exactly when the level was low and the call was
    rejected, or answered 2xx with a body that did not parse or parsed
    to [null]; it never has both; and when it has neither (the level
    was not low, or the service answered with another status) it is the
    baseline record. *)
Theorem X14_enhanced_outcomes (host : Host) (request : Request) :
  let baseline := extractLocationData host request in
  let low := Spec.low (Spec.level_of baseline) in
  let outcome := network host (Spec.lookup_url baseline) in
  ∃ record,
    fst (handleEnhancedLocationRequest host request) = Spec.success record
    ∧ (is_Some (record !! "fallback") ↔ low ∧ merged_answer outcome)
    ∧ (is_Some (record !! "fallbackError") ↔ low ∧ caught outcome)
    ∧ ¬ (is_Some (record !! "fallback") ∧ is_Some (record !! "fallbackError"))
    ∧ (record !! "fallback" = None → record !! "fallbackError" = None →
       record = baseline).
Proof.
  cbv zeta. unfold merged_answer, caught.
  destruct (extract_fresh host request) as (Hfallback & Herror & _).
  assert (∀ message,
            <["fallbackError" := VStr message]> (extractLocationData host request)
              !! "fallback" = None) as Hcaught_fallback
    by (intros message; by rewrite lookup_insert_ne).
  assert (∀ message,
            is_Some (<["fallbackError" := VStr message]> (extractLocationData host request)
                       !! "fallbackError")) as Hcaught_error
    by (intros message; rewrite lookup_insert_eq; by eexists).
  destruct (is_string (Spec.level_of (extractLocationData host request)) "minimal"
            || is_string (Spec.level_of (extractLocationData host request)) "limited")
    eqn:Hlevel.
  - apply low_iff in Hlevel.
    destruct (network host (Spec.lookup_url (extractLocationData host request)))
      as [message|upstream] eqn:Hnet.
    { eexists. split; [by apply handler_rejected|].
      rewrite Hcaught_fallback. split; [|split; [|split]].
      - split; [by intros [? [=]] | by intros (_ & ? & ? & [=] & _)].
      - split; [intros _; split; [done|]; left; by eexists | done].
      - by intros [[? [=]] _].
      - intros _ Hnone. destruct (Hcaught_error message) as [? ?]. congruence. }
    destruct (ok upstream) eqn:Hok.
    2:{ eexists. split; [by eapply handler_refused|].
        rewrite Hfallback, Herror. split; [|split; [|split]].
        - split; [by intros [? [=]]|]. intros (_ & ? & ? & [= <-] & ? & _). congruence.
        - split; [by intros [? [=]]|].
          intros (_ & [[? [=]]|(? & [= <-] & ? & _)]). congruence.
        - by intros [[? [=]] _].
        - done. }
    destruct (upstream_json upstream) as [message|fallbackData] eqn:Hjson.
    { eexists. split; [by eapply handler_unparseable|].
      rewrite Hcaught_fallback. split; [|split; [|split]].
      - split; [by intros [? [=]]|].
        intros (_ & ? & ? & [= <-] & _ & ? & _). congruence.
      - split; [intros _; split; [done|] | done].
        right. exists upstream. split; [done|]. split; [done|]. left. by eexists.
      - by intros [[? [=]] _].
      - intros _ Hnone. destruct (Hcaught_error message) as [? ?]. congruence. }
    destruct (nullish_dec fallbackData) as [Hnullish|[Hnull Hundef]].
    { eexists. split; [by eapply handler_nullish_answer|].
      rewrite Hcaught_fallback. split; [|split; [|split]].
      - split; [by intros [? [=]]|].
        intros (_ & ? & ? & [= <-] & _ & Hj & ? & ?).
        rewrite Hjson in Hj. assert (fallbackData ≠ VNull ∧ fallbackData ≠ VUndefined)
          by (split; congruence). tauto.
      - split; [intros _; split; [done|] | done].
        right. exists upstream. split; [done|]. split; [done|]. right.
        destruct Hnullish as [->| ->]; auto.
      - by intros [[? [=]] _].
      - intros _ Hnone.
        destruct (Hcaught_error (Exec.cannot_read fallbackData "city")) as [? ?].
        congruence. }
    eexists. split; [by eapply handler_merged|].
    rewrite merged_fallback, merged_other, Herror;
      [|not_listed | discriminate | discriminate].
    unfold with_fallback. rewrite lookup_insert_eq.
    split; [|split; [|split]].
    + split; [intros _; split; [done|] | by eexists].
      exists upstream, fallbackData. auto.
    + split; [by intros [? [=]]|].
      intros (_ & [[? [=]]|(? & [= <-] & _ & [[? Hj]|[Hj|Hj]])]);
        rewrite Hjson in Hj; congruence.
    + by intros [_ [? [=]]].
    + discriminate.
  - assert (¬ Spec.low (Spec.level_of (extractLocationData host request))) as Hhigh
      by (rewrite <- low_iff; congruence).
    eexists. split; [by rewrite handler_high|].
    rewrite Hfallback, Herror. split; [|split; [|split]].
    + split; [by intros [? [=]] | tauto].
    + split; [by intros [? [=]] | tauto].
    + by intros [[? [=]] _].
    + done.
Qed.

(** After a merge each of the six fields is [null] only if the baseline
    value was falsy and the answer's property is [null]. *)
Lemma merged_not_null (fallbackData : value) (assessment record : object) (k : string) :
  k ∈ mergeable →
  field fallbackData (source_of k) ≠ VNull →
  Spec.not_null (prop (merged fallbackData assessment record) k).
Proof.
  intros Hk Hanswer. rewrite (merged_field _ _ _ _ Hk). unfold Spec.not_null.
  destruct (truthy (prop record k)) eqn:Htruthy; [|exact Hanswer].
  intros Hnull. by rewrite Hnull in Htruthy.
Qed.

Lemma six_or_seven (n : nat) :
  (6 ≤ n ≤ 7)%nat →
  prop (Spec.assessment n) "level" = VStr "excellent"
  ∧ (prop (Spec.assessment n) "score" = VNum (of_Z 86)
     ∨ prop (Spec.assessment n) "score" = VNum (of_Z 100)).
Proof.
  intros Hn. assert (n = 6 ∨ n = 7)%nat as [->| ->] by lia.
  - split; [by_vm | left; by_vm].
  - split; [by_vm | right; by_vm].
Qed.

(** X15. When the escalation succeeds and the answer has no explicit
    [null] among city, region, latitude, longitude, timezone and
    postal, the enhanced assessment is always at the top: at least six
    of seven fields count as available, the score is 86 or 100 and the
    level is excellent, however few of those properties the answer
    really has. *)
Theorem X15_enhanced_level_excellent (host : Host) (request : Request)
    (upstream : Upstream) (fallbackData : value) :
  let baseline := extractLocationData host request in
  Spec.low (Spec.level_of baseline) →
  network host (Spec.lookup_url baseline) = Resolves upstream →
  ok upstream = true →
  upstream_json upstream = JsonValue fallbackData →
  fallbackData ≠ VNull → fallbackData ≠ VUndefined →
  (∀ k, k ∈ mergeable → field fallbackData (source_of k) ≠ VNull) →
  ∃ record enhancedScore,
    fst (handleEnhancedLocationRequest host request) = Spec.success record
    ∧ field (prop record "dataQuality") "enhancedScore" = VObj enhancedScore
    ∧ enhancedScore = Spec.assessment (Spec.count_not_null record)
    ∧ (6 ≤ Spec.count_not_null record ≤ 7)%nat
    ∧ prop enhancedScore "level" = VStr "excellent"
    ∧ (prop enhancedScore "score" = VNum (of_Z 86)
       ∨ prop enhancedScore "score" = VNum (of_Z 100)).
Proof.
  intros baseline Hlow Hnet Hok Hjson Hnull Hundef Hanswer. subst baseline.
  set (record := merged fallbackData (calculateDataQuality (headers request))
                   (extractLocationData host request)).
  assert (6 ≤ Spec.count_not_null record ≤ 7)%nat as Hcount.
  { split; [|apply count_not_null_le].
    unfold Spec.count_not_null, Spec.designated_attributes.
    rewrite !length_filter_cons, filter_nil.
    assert (∀ k, k ∈ mergeable → bool_decide (Spec.not_null (prop record k)) = true)
      as Hset.
    { intros k Hk. apply bool_decide_eq_true. apply merged_not_null; auto. }
    rewrite (Hset "region"), (Hset "city"), (Hset "latitude"), (Hset "longitude"),
      (Hset "timezone"), (Hset "postalCode") by listed.
    cbn [length]. lia. }
  exists record, (Spec.assessment (Spec.count_not_null record)).
  split; [by eapply handler_merged|].
  split; [|split; [reflexivity|split; [exact Hcount|by apply six_or_seven]]].
  unfold prop at 1. subst record. rewrite merged_dataQuality. cbn [field].
  unfold prop. by rewrite lookup_insert_eq.
Qed.

Lemma X15_witness :
  let host := answering (Resolves {| upstream_status := 200;
                upstream_json := JsonValue (VObj {[ "error" := VBool true ]}) |}) in
  let request := enhanced_request ∅ in
  ∃ record enhancedScore,
    fst (handleEnhancedLocationRequest host request) = Spec.success record
    ∧ field (prop record "dataQuality") "enhancedScore" = VObj enhancedScore
    ∧ prop enhancedScore "level" = VStr "excellent".
Proof.
  intros host request.
  destruct (X15_enhanced_level_excellent host request
              {| upstream_status := 200;
                 upstream_json := JsonValue (VObj {[ "error" := VBool true ]}) |}
              (VObj {[ "error" := VBool true ]}))
    as (record & enhancedScore & Hanswer & Hscore & _ & _ & Hlevel & _).
  - left. by_vm.
  - reflexivity.
  - reflexivity.
  - reflexivity.
  - discriminate.
  - discriminate.
  - intros k Hk. unfold mergeable in Hk.
    repeat (apply elem_of_cons in Hk as [->|Hk]); [discriminate .. | by apply elem_of_nil in Hk].
  - exists record, enhancedScore. auto.
Defined.

(** X16. The [fallback] of a successful escalation has eight keys:
    [source], which is ['ipapi.co'], and city, region, latitude,
    longitude, timezone, postalCode and org, each holding the answer's
    property ([postal] for postalCode) if that is truthy and [null]
    otherwise. A value the service reports as 0, as an empty text or as
    [false] is therefore recorded as [null], and no property of
    [fallback] is ever [undefined]. *)
Theorem X16_fallback_contents (host : Host) (request : Request)
    (upstream : Upstream) (fallbackData : value) :
  let baseline := extractLocationData host request in
  Spec.low (Spec.level_of baseline) →
  network host (Spec.lookup_url baseline) = Resolves upstream →
  ok upstream = true →
  upstream_json upstream = JsonValue fallbackData →
  fallbackData ≠ VNull → fallbackData ≠ VUndefined →
  ∃ record fallback,
    fst (handleEnhancedLocationRequest host request) = Spec.success record
    ∧ record !! "fallback" = Some (VObj fallback)
    ∧ dom fallback
      = list_to_set ["source"; "city"; "region"; "latitude"; "longitude";
                     "timezone"; "postalCode"; "org"]
    ∧ prop fallback "source" = VStr "ipapi.co"
    ∧ (∀ k, k ∈ "org" :: mergeable →
         prop fallback k
         = if truthy (field fallbackData (source_of k))
           then field fallbackData (source_of k) else VNull)
    ∧ (∀ k, k ∈ dom fallback → prop fallback k ≠ VUndefined).
Proof.
  intros baseline Hlow Hnet Hok Hjson Hnull Hundef. subst baseline.
  do 2 eexists. split; [by eapply handler_merged|].
  split; [rewrite merged_fallback; apply lookup_insert_eq|].
  assert (∀ v, JS.or v VNull ≠ VUndefined) as Hdefined.
  { intros v. unfold JS.or. destruct (truthy v) eqn:Hv; [|discriminate].
    intros Hu. by rewrite Hu in Hv. }
  split; [by rewrite dom_list_to_map_L|]. split; [reflexivity|]. split.
  - intros k Hk. unfold mergeable in Hk.
    repeat (apply elem_of_cons in Hk as [->|Hk]);
      [reflexivity .. | by apply elem_of_nil in Hk].
  - intros k Hk. rewrite dom_list_to_map_L in Hk.
    apply elem_of_list_to_set in Hk. cbn [fmap list_fmap fst] in Hk.
    repeat (apply elem_of_cons in Hk as [->|Hk]);
      [first [discriminate | apply Hdefined] .. | by apply elem_of_nil in Hk].
Qed.

Lemma X16_witness :
  let host := answering (Resolves {| upstream_status := 200;
                upstream_json := JsonValue (VObj {[ "city" := VStr "Quito";
                                                    "latitude" := VNum 0 ]}) |}) in
  let request := enhanced_request ∅ in
  ∃ record fallback,
    fst (handleEnhancedLocationRequest host request) = Spec.success record
    ∧ record !! "fallback" = Some (VObj fallback)
    ∧ prop fallback "city" = VStr "Quito"
    ∧ prop fallback "latitude" = VNull.
Proof.
  intros host request.
  destruct (X16_fallback_contents host request
              {| upstream_status := 200;
                 upstream_json := JsonValue (VObj {[ "city" := VStr "Quito";
                                                     "latitude" := VNum 0 ]}) |}
              (VObj {[ "city" := VStr "Quito"; "latitude" := VNum 0 ]}))
    as (record & fallback & Hanswer & Hfallback & _ & _ & Hvalues & _).
  - left. by_vm.
  - reflexivity.
  - reflexivity.
  - reflexivity.
  - discriminate.
  - discriminate.
  - exists record, fallback. split; [exact Hanswer|]. split; [exact Hfallback|].
    rewrite !Hvalues by (unfold mergeable; listed). split; by_vm.
Defined.

(* ===================================================================== *)
(** * The client's cache *)
(* ===================================================================== *)

(** [getCachedLocation], statement by statement. *)
Lemma getCachedLocation_runs (browser : Client.Browser) (this : Client.LocationClient)
    (st : Client.state) :
  Client.getCachedLocation browser this st
  = match Client.localStorage st with
    | None => (Client.Return VNull, st)
    | Some items =>
        match items !! Client.cacheKey this with
        | None => (Client.Return VNull, st)
        | Some text =>
            if Client.is_empty text then (Client.Return VNull, st)
            else
              match Client.parse browser text with
              | inl _ =>
                  (Client.Return VNull, with_items (delete (Client.cacheKey this) items) st)
              | inr data =>
                  let now := Client.clock browser (Client.readings st) in
                  match data with
                  | VNull | VUndefined =>
                      (Client.Return VNull,
                       with_items (delete (Client.cacheKey this) items) (ticked st))
                  | _ =>
                      if Client.expired this now (field data "timestamp") then
                        (Client.Return VNull,
                         with_items (delete (Client.cacheKey this) items) (ticked st))
                      else (Client.Return (field data "location"), ticked st)
                  end
              end
        end
    end.
Proof.
  destruct st as [storage n log].
  unfold Client.getCachedLocation, Client.localStorage_undefined, mbind,
    Client.client_bind, Client.try_catch, Client.getItem.
  cbn [Client.localStorage Client.readings Client.calls].
  destruct storage as [items|]; [|reflexivity].
  rewrite bool_decide_eq_false_2 by discriminate.
  cbn [Client.localStorage Client.readings Client.calls].
  destruct (items !! Client.cacheKey this) as [text|]; [|reflexivity].
  destruct (Client.is_empty text); [reflexivity|].
  unfold Client.settle.
  destruct (Client.parse browser text) as [error|data]; [reflexivity|].
  destruct data; cbn -[Client.expired]; try reflexivity;
    match goal with
    | |- context [Client.expired ?a ?b ?c] => destruct (Client.expired a b c)
    end; reflexivity.
Qed.

(** [setCachedLocation] never throws. *)
Lemma setCachedLocation_runs (browser : Client.Browser) (this : Client.LocationClient)
    (location : value) (st : Client.state) :
  Client.setCachedLocation browser this location st
  = (Client.Return tt, saved browser this location st).
Proof.
  destruct st as [storage n log].
  unfold Client.setCachedLocation, saved, entry, Client.localStorage_undefined, mbind,
    Client.client_bind, Client.try_catch, Client.Date_now, Client.setItem.
  cbn [Client.localStorage Client.readings Client.calls].
  destruct storage as [items|]; [|reflexivity].
  rewrite bool_decide_eq_false_2 by discriminate.
  cbn [Client.localStorage Client.readings Client.calls].
  match goal with
  | |- context [Client.stores browser ?t] => destruct (Client.stores browser t)
  end; reflexivity.
Qed.

Lemma reported_new_Error (timeout_message message : string) :
  reported timeout_message (Client.new_Error message) = Client.new_Error message.
Proof. reflexivity. Qed.

(** The [try] of [getLocation] with its [catch], for options that are
    not [null]. *)
Lemma request_runs (browser : Client.Browser) (this : Client.LocationClient)
    (options : value) (st : Client.state) :
  options ≠ VNull → options ≠ VUndefined →
  Client.try_catch
    (headers ← Client.member options "headers";
     response ← Client.await_fetch browser
       {| Client.url := Client.baseUrl this ++ "/location";
          Client.init_headers :=
            Client.spread headers ∪ {[ "Accept" := VStr "application/json" ]};
          Client.abort_after := Client.timeout this |};
     if negb (Client.reply_ok response) then Client.throw (Client.http_error response)
     else
       data ← Client.settle (Client.reply_json response);
       (if Client.cache this then Client.setCachedLocation browser this data
        else mret tt);;
       mret data)
    (fun error =>
       if String.eqb (Client.name error) "AbortError" then
         Client.throw (Client.new_Error "Request timeout")
       else Client.throw error) st
  = requested browser this options st.
Proof.
  intros Hnull Hundefined.
  assert (Client.member options "headers" = mret (field options "headers")) as ->
    by (by destruct options).
  unfold requested, location_call, Client.try_catch, mbind, Client.client_bind,
    mret, Client.client_ret, Client.await_fetch, reported.
  destruct (Client.network browser _ _) as [error|response].
  - unfold Client.throw. by destruct (String.eqb (Client.name error) "AbortError").
  - destruct (Client.reply_ok response); cbn [negb]; [|reflexivity].
    destruct (Client.reply_json response) as [error|data]; cbn [Client.settle].
    + unfold Client.throw. by destruct (String.eqb (Client.name error) "AbortError").
    + unfold mret, Client.client_ret.
      destruct (Client.cache this); [|reflexivity].
      by rewrite setCachedLocation_runs.
Qed.

(** [getLocation], for options that are not [null]: the cache if it is
    consulted and holds something truthy, the request otherwise. *)
Lemma getLocation_runs (browser : Client.Browser) (this : Client.LocationClient)
    (options : value) (st : Client.state) :
  options ≠ VNull →
  Client.getLocation browser this options st
  = if consults this options then
      match Client.getCachedLocation browser this st with
      | (Client.Return cached, st') =>
          if truthy cached then (Client.Return cached, st')
          else requested browser this (or_empty options) st'
      | (Client.Throw error, st') => (Client.Throw error, st')
      end
    else requested browser this (or_empty options) st.
Proof.
  intros Hnull.
  assert (or_empty options ≠ VNull ∧ or_empty options ≠ VUndefined) as [Hn Hu]
    by (by destruct options).
  unfold Client.getLocation, consults. fold (or_empty options).
  set (request := Client.try_catch _ _).
  assert (∀ st', request st' = requested browser this (or_empty options) st') as Hrequest
    by (intros st'; by apply request_runs).
  assert (Client.member (or_empty options) "fresh" = mret (field (or_empty options) "fresh"))
    as -> by (by destruct (or_empty options)).
  unfold mbind, Client.client_bind, mret, Client.client_ret.
  destruct (Client.cache this); cbn [andb]; [|apply Hrequest].
  destruct (truthy (field (or_empty options) "fresh")); cbn [negb]; [apply Hrequest|].
  destruct (Client.getCachedLocation browser this st) as [[cached|error] st']; [|reflexivity].
  destruct (truthy cached); [reflexivity|apply Hrequest].
Qed.

(** ** Numbers that are not numbers *)






(** X17. Reading the cache never throws and never calls the network,
    whatever the storage holds. It reads the clock at most once and
    touches no item but the client's own. What it leaves under its key
    is an empty text, or an entry that it has just parsed, found not
    expired and served: an entry that does not parse, that parses to
    [null] or that has expired is removed, and the answer is then
    [null], as it is where there is no storage. *)
Theorem X17_cache_read_heals (browser : Client.Browser) (this : Client.LocationClient)
    (st : Client.state) :
  ∃ v st',
    Client.getCachedLocation browser this st = (Client.Return v, st')
    ∧ Client.calls st' = Client.calls st
    ∧ (Client.readings st ≤ Client.readings st' ≤ S (Client.readings st))%nat
    ∧ match Client.localStorage st with
      | None => v = VNull ∧ st' = st
      | Some items =>
          ∃ items',
            Client.localStorage st' = Some items'
            ∧ (items' = items ∨ items' = delete (Client.cacheKey this) items)
            ∧ match items' !! Client.cacheKey this with
              | None => v = VNull
              | Some text =>
                  items' = items
                  ∧ (Client.is_empty text = true ∧ v = VNull
                     ∨ ∃ data,
                         Client.parse browser text = inr data
                         ∧ Spec.is_set data
                         ∧ Client.expired this
                             (Client.clock browser (Client.readings st))
                             (field data "timestamp") = false
                         ∧ v = field data "location")
              end
      end.
Proof.
  rewrite getCachedLocation_runs.
  destruct (Client.localStorage st) as [items|] eqn:Hstorage.
  2: { exists VNull, st. repeat split; lia. }
  assert (∀ st0, Client.localStorage st0 = Some items →
            Client.calls st0 = Client.calls st →
            (Client.readings st ≤ Client.readings st0 ≤ S (Client.readings st))%nat →
            ∃ v st',
              (Client.Return VNull,
               with_items (delete (Client.cacheKey this) items) st0)
              = (Client.Return v, st')
              ∧ Client.calls st' = Client.calls st
              ∧ (Client.readings st ≤ Client.readings st' ≤ S (Client.readings st))%nat
              ∧ ∃ items',
                  Client.localStorage st' = Some items'
                  ∧ (items' = items ∨ items' = delete (Client.cacheKey this) items)
                  ∧ match items' !! Client.cacheKey this with
                    | None => v = VNull
                    | Some text =>
                        items' = items
                        ∧ (Client.is_empty text = true ∧ v = VNull
                           ∨ ∃ data,
                               Client.parse browser text = inr data
                               ∧ Spec.is_set data
                               ∧ Client.expired this
                                   (Client.clock browser (Client.readings st))
                                   (field data "timestamp") = false
                               ∧ v = field data "location")
                    end) as Hremoved.
  { intros st0 _ Hcalls Hreadings. eexists _, _. split; [reflexivity|].
    split; [exact Hcalls|]. split; [exact Hreadings|].
    exists (delete (Client.cacheKey this) items). split; [reflexivity|].
    split; [by right|]. by rewrite lookup_delete_eq. }
  destruct (items !! Client.cacheKey this) as [text|] eqn:Hentry.
  2: { exists VNull, st. rewrite Hstorage. repeat split; try lia.
       exists items. by rewrite Hentry; auto. }
  destruct (Client.is_empty text) eqn:Hempty.
  { exists VNull, st. rewrite Hstorage. repeat split; try lia.
    exists items. rewrite Hentry. repeat split; auto. }
  destruct (Client.parse browser text) as [error|data] eqn:Hparse.
  { apply Hremoved; [done..|lia]. }
  cbv zeta.
  assert (Client.localStorage (ticked st) = Some items) as Hticked by done.
  destruct (decide (Spec.is_set data)) as [Hset|Hunset].
  - destruct (Client.expired this _ (field data "timestamp")) eqn:Hexpired.
    + destruct data; (apply Hremoved; [done|done|cbn; lia]).
    + exists (field data "location"), (ticked st).
      split; [by destruct data; destruct Hset|].
      split; [done|]. split; [cbn; lia|].
      exists items. rewrite Hentry. repeat split; auto.
      right. by exists data.
  - assert (data = VNull ∨ data = VUndefined) as [-> | ->].
    { destruct data; auto; exfalso; apply Hunset; split; discriminate. }
    all: apply Hremoved; [done|done|cbn; lia].
Qed.



(** ** Writing and reading back *)

(** A property of a record that was written as JSON and read back. *)
Lemma JSON_copy_field (props : object) (k : string) :
  field (Convert.JSON_copy (VObj props)) k = Convert.JSON_copy (prop props k).
Proof.
  cbn [Convert.JSON_copy field]. unfold prop. rewrite lookup_omap.
  by destruct (props !! k) as [[]|].
Qed.







(* ===================================================================== *)
(** * The client's request *)
(* ===================================================================== *)

(** The cache read always returns, and leaves the log of calls alone;
    the storage afterwards is the one before, with or without the
    client's entry. *)
Lemma getCachedLocation_returns (browser : Client.Browser) (this : Client.LocationClient)
    (st : Client.state) :
  ∃ v st',
    Client.getCachedLocation browser this st = (Client.Return v, st')
    ∧ Client.calls st' = Client.calls st
    ∧ match Client.localStorage st with
      | Some items =>
          Client.localStorage st' = Some items
          ∨ Client.localStorage st' = Some (delete (Client.cacheKey this) items)
      | None => Client.localStorage st' = None
      end.
Proof.
  rewrite getCachedLocation_runs.
  destruct (Client.localStorage st) as [items|] eqn:Hstorage.
  2: { exists VNull, st. by rewrite Hstorage. }
  destruct (items !! Client.cacheKey this) as [text|].
  2: { exists VNull, st. rewrite Hstorage. auto. }
  destruct (Client.is_empty text).
  { exists VNull, st. rewrite Hstorage. auto. }
  destruct (Client.parse browser text) as [error|data].
  { eexists _, _. split; [reflexivity|]. cbn. auto. }
  cbv zeta.
  destruct data;
    try destruct (Client.expired this _ _);
    (eexists _, _; split; [reflexivity|]; cbn; rewrite ?Hstorage; auto).
Qed.

Lemma saved_calls (browser : Client.Browser) (this : Client.LocationClient)
    (location : value) (st : Client.state) :
  Client.calls (saved browser this location st) = Client.calls st.
Proof.
  unfold saved. destruct (Client.localStorage st); [|done].
  by destruct (Client.stores browser _).
Qed.

(** The request makes one call. *)
Lemma requested_calls (browser : Client.Browser) (this : Client.LocationClient)
    (options : value) (st : Client.state) :
  Client.calls (snd (requested browser this options st))
  = (Client.calls st ++ [location_call this options])%list.
Proof.
  unfold requested.
  destruct (Client.network browser _ _) as [error|response]; [done|].
  destruct (Client.reply_ok response); [|done].
  destruct (Client.reply_json response) as [error|data]; [done|].
  destruct (Client.cache this); [|done].
  cbn [snd]. by rewrite saved_calls.
Qed.

(** A request that fails writes nothing. *)
Lemma requested_throws (browser : Client.Browser) (this : Client.LocationClient)
    (options : value) (st : Client.state) (error : Client.Error) :
  fst (requested browser this options st) = Client.Throw error →
  snd (requested browser this options st) = called (location_call this options) st
  ∧ error
    = match Client.network browser (length (Client.calls st))
              (location_call this options) with
      | Client.Rejected cause => reported "Request timeout" cause
      | Client.Fulfilled response =>
          if Client.reply_ok response then
            match Client.reply_json response with
            | inl cause => reported "Request timeout" cause
            | inr _ => error
            end
          else Client.http_error response
      end
  ∧ (∀ response data,
       Client.network browser (length (Client.calls st)) (location_call this options)
       = Client.Fulfilled response →
       Client.reply_ok response = true →
       Client.reply_json response ≠ inr data).
Proof.
  unfold requested.
  destruct (Client.network browser _ _) as [cause|response].
  { cbn. intros [= <-]. by repeat split. }
  destruct (Client.reply_ok response) eqn:Hok.
  2: { cbn. intros [= <-]. repeat split. intros ? ? [= <-]. congruence. }
  destruct (Client.reply_json response) as [cause|data] eqn:Hjson; [|done].
  cbn. intros [= <-]. repeat split. intros ? ? [= <-]. congruence.
Qed.

(** What is reported is never named [AbortError]. *)
Lemma reported_name (timeout_message : string) (error : Client.Error) :
  Client.name (reported timeout_message error) ≠ "AbortError".
Proof.
  unfold reported.
  destruct (String.eqb (Client.name error) "AbortError") eqn:Hname; [done|].
  by apply String.eqb_neq.
Qed.

(** An index is never the name of a header. *)
Lemma decimal_text_digits (n : Z) : Convert.decimal_text n ≠ "Accept".
Proof. unfold Convert.decimal_text. by destruct (N.to_uint (Z.to_N n)). Qed.

Lemma indexed_no_Accept {A} (wrap : A → value) (elems : list A) :
  (list_to_map (imap (fun i elem => (Convert.decimal_text (Z.of_nat i), wrap elem)) elems)
     : object) !! "Accept" = None.
Proof.
  apply not_elem_of_list_to_map_1. intros Hin.
  apply list_elem_of_fmap in Hin as ([k v] & Hk & Hin).
  apply elem_of_lookup_imap in Hin as (i & elem & [= -> _] & _).
  by apply (decimal_text_digits (Z.of_nat i)).
Qed.

(** X20. One [getLocation] makes at most one call. With options that
    are not [null] it makes none when the cache is consulted (it is on
    and [options.fresh] is falsy) and holds something truthy, which is
    then the answer; in every other case it makes exactly one, to the
    base address followed by [/location], with the client's timeout
    and with [Accept: application/json] unless the caller's own
    headers have an [Accept]. *)
Theorem X20_one_call_unless_cached (browser : Client.Browser)
    (this : Client.LocationClient) (options : value) (st : Client.state) :
  options ≠ VNull →
  let result := Client.getLocation browser this options st in
  let call := location_call this (or_empty options) in
  (served_from_cache browser this options st →
   fst result = fst (Client.getCachedLocation browser this st)
   ∧ Client.calls (snd result) = Client.calls st)
  ∧ (¬ served_from_cache browser this options st →
     Client.calls (snd result) = (Client.calls st ++ [call])%list)
  ∧ Client.url call = Client.baseUrl this ++ "/location"
  ∧ Client.abort_after call = Client.timeout this
  ∧ Client.init_headers call !! "Accept"
    = Some (match field (or_empty options) "headers" with
            | VObj headers => default (VStr "application/json") (headers !! "Accept")
            | _ => VStr "application/json"
            end).
Proof.
  intros Hnull result call.
  assert (Client.init_headers call !! "Accept"
          = Some (match field (or_empty options) "headers" with
                  | VObj headers => default (VStr "application/json") (headers !! "Accept")
                  | _ => VStr "application/json"
                  end)) as Haccept.
  { unfold call, location_call. cbn [Client.init_headers].
    rewrite lookup_union.
    destruct (field (or_empty options) "headers") as [| |b|x|s|elems|headers];
      cbn [Client.spread]; rewrite ?lookup_empty; try done.
    - by rewrite (indexed_no_Accept (fun c => VStr (String c EmptyString))).
    - by rewrite (indexed_no_Accept (fun elem => elem)).
    - by destruct (headers !! "Accept"). }
  unfold result, served_from_cache. rewrite (getLocation_runs _ _ _ _ Hnull).
  destruct (getCachedLocation_returns browser this st) as (v & st' & -> & Hcalls & _).
  cbn [fst].
  split; [|split; [|done]].
  - intros (-> & cached & [= <-] & ->). by split.
  - intros Hnot. destruct (consults this options).
    + destruct (truthy v) eqn:Hv.
      * exfalso. apply Hnot. split; [done|]. by exists v.
      * by rewrite requested_calls, Hcalls.
    + by rewrite requested_calls.
Qed.

Lemma X20_witness :
  let browser := quiet_browser (Client.Rejected (Client.new_Error "offline")) ticking in
  Client.calls (snd (Client.getLocation browser sample_client VUndefined empty_state))
  = ([] ++ [location_call sample_client (or_empty VUndefined)])%list.
Proof.
  intros browser.
  refine (proj1 (proj2 (X20_one_call_unless_cached browser sample_client VUndefined
                          empty_state _)) _).
  - discriminate.
  - intros (_ & cached & Hcached & Htruthy).
    vm_compute in Hcached. injection Hcached as <-. discriminate Htruthy.
Defined.

(** ** Failures *)

(** The status of a response prints as its decimal digits. *)
Lemma status_text (status : Z) :
  100 <= status <= 599 →
  Convert.ToString (VNum (of_Z status)) = Convert.decimal_text status.
Proof.
  intros Hrange.
  assert (forallb (fun s => String.eqb (Convert.ToString (VNum (of_Z s)))
                              (Convert.decimal_text s))
            (List.map (fun n => 100 + Z.of_nat n) (seq 0 500)) = true) as Hall by by_vm.
  apply String.eqb_eq.
  apply (proj1 (forallb_forall _ _) Hall).
  apply in_map_iff. exists (Z.to_nat (status - 100)). split; [lia|].
  apply in_seq. lia.
Qed.

(** [getLocation] with [null] for its options. *)
Lemma getLocation_null (browser : Client.Browser) (this : Client.LocationClient)
    (st : Client.state) :
  ∃ k, Client.getLocation browser this VNull st
       = (Client.Throw (Client.TypeError (Exec.cannot_read VNull k)), st).
Proof.
  unfold Client.getLocation, mbind, Client.client_bind, Client.try_catch.
  destruct (Client.cache this); cbn; by eexists.
Qed.

(** X21. A [getLocation] that fails reports why and caches nothing. The
    error is never named [AbortError]: an abort is reported as a plain
    error with the message ['Request timeout'], every other rejection
    of the call or of [json()] as it is, and a response outside 2xx as
    ['HTTP <status>: <statusText>'] whatever its body holds. The
    storage afterwards is the one before, but for an entry of the
    client that the cache read has dropped. With [null] options the
    failure is a TypeError and no call is made. *)
Theorem X21_failures_reported (browser : Client.Browser) (this : Client.LocationClient)
    (options : value) (st : Client.state) (error : Client.Error) :
  let result := Client.getLocation browser this options st in
  let call := location_call this (or_empty options) in
  fst result = Client.Throw error →
  Client.name error ≠ "AbortError"
  ∧ match Client.localStorage st with
    | Some items =>
        Client.localStorage (snd result) = Some items
        ∨ Client.localStorage (snd result) = Some (delete (Client.cacheKey this) items)
    | None => Client.localStorage (snd result) = None
    end
  ∧ (options = VNull →
     Client.name error = "TypeError" ∧ Client.calls (snd result) = Client.calls st)
  ∧ (options ≠ VNull →
     Client.calls (snd result) = (Client.calls st ++ [call])%list
     ∧ match Client.network browser (length (Client.calls st)) call with
       | Client.Rejected cause => error = reported "Request timeout" cause
       | Client.Fulfilled response =>
           if Client.reply_ok response then
             ∃ cause, Client.reply_json response = inl cause
                      ∧ error = reported "Request timeout" cause
           else
             error = Client.http_error response
             ∧ Client.name error = "Error"
             ∧ (100 <= Client.reply_status response <= 599 →
                Client.message error
                = "HTTP " ++ Convert.decimal_text (Client.reply_status response)
                  ++ ": " ++ Client.statusText response)
       end).
Proof.
  intros result call Hthrows.
  assert (options = VNull ∨ options ≠ VNull) as [->|Hnull]
    by (destruct options; auto; right; discriminate).
  { destruct (getLocation_null browser this st) as (k & Hrun).
    unfold result in *. rewrite Hrun in *. cbn [fst snd] in *.
    injection Hthrows as <-.
    split; [done|]. split; [by destruct (Client.localStorage st); auto|].
    split; done. }
  unfold result in *. rewrite (getLocation_runs _ _ _ _ Hnull) in *.
  destruct (getCachedLocation_returns browser this st) as (v & st' & Hread & Hcalls & Hitems).
  assert (∀ st0,
            Client.calls st0 = Client.calls st →
            Client.localStorage st0 = Client.localStorage st
            ∨ (∃ items, Client.localStorage st = Some items
                 ∧ Client.localStorage st0 = Some (delete (Client.cacheKey this) items)) →
            fst (requested browser this (or_empty options) st0) = Client.Throw error →
            Client.name error ≠ "AbortError"
            ∧ match Client.localStorage st with
              | Some items =>
                  Client.localStorage (snd (requested browser this (or_empty options) st0))
                  = Some items
                  ∨ Client.localStorage (snd (requested browser this (or_empty options) st0))
                    = Some (delete (Client.cacheKey this) items)
              | None =>
                  Client.localStorage (snd (requested browser this (or_empty options) st0))
                  = None
              end
            ∧ (options = VNull →
               Client.name error = "TypeError"
               ∧ Client.calls (snd (requested browser this (or_empty options) st0))
                 = Client.calls st)
            ∧ (options ≠ VNull →
               Client.calls (snd (requested browser this (or_empty options) st0))
               = (Client.calls st ++ [call])%list
               ∧ match Client.network browser (length (Client.calls st)) call with
                 | Client.Rejected cause => error = reported "Request timeout" cause
                 | Client.Fulfilled response =>
                     if Client.reply_ok response then
                       ∃ cause, Client.reply_json response = inl cause
                                ∧ error = reported "Request timeout" cause
                     else
                       error = Client.http_error response
                       ∧ Client.name error = "Error"
                       ∧ (100 <= Client.reply_status response <= 599 →
                          Client.message error
                          = "HTTP " ++ Convert.decimal_text (Client.reply_status response)
                            ++ ": " ++ Client.statusText response)
                 end)) as Hrequest.
  { intros st0 Hcalls0 Hitems0 Hthrows0.
    destruct (requested_throws _ _ _ _ _ Hthrows0) as (-> & Herror & Hdata).
    rewrite Hcalls0 in Herror, Hdata. fold call in Herror, Hdata.
    cbn [called Client.localStorage Client.calls].
    assert (Client.name error ≠ "AbortError") as Hname.
    { destruct (Client.network browser _ call) as [cause|response].
      - rewrite Herror. apply reported_name.
      - destruct (Client.reply_ok response) eqn:Hok.
        + destruct (Client.reply_json response) as [cause|data] eqn:Hjson.
          * rewrite Herror. apply reported_name.
          * by destruct (Hdata response data eq_refl Hok).
        + by rewrite Herror. }
    split; [exact Hname|].
    split.
    { destruct Hitems0 as [->|(items & -> & ->)]; [|by right].
      by destruct (Client.localStorage st); auto. }
    split; [done|]. intros _. split; [by rewrite Hcalls0|].
    destruct (Client.network browser _ call) as [cause|response]; [done|].
    destruct (Client.reply_ok response) eqn:Hok.
    - destruct (Client.reply_json response) as [cause|data] eqn:Hjson.
      + by exists cause.
      + by destruct (Hdata response data eq_refl Hok).
    - split; [done|]. split; [by rewrite Herror|].
      intros Hrange. rewrite Herror. cbn [Client.http_error Client.new_Error Client.message].
      by rewrite (status_text _ Hrange). }
  rewrite Hread in *.
  destruct (consults this options).
  - destruct (truthy v); [done|].
    apply Hrequest; [done| |done].
    destruct (Client.localStorage st) as [items|]; [|by left].
    destruct Hitems as [->| ->]; [by left|right; by exists items].
  - apply Hrequest; [done|by left|done].
Qed.

Lemma X21_witness :
  let response := {| Client.reply_status := 404;
                     Client.statusText := "Not Found";
                     Client.reply_json := inr (VObj ∅) |} in
  let browser := quiet_browser (Client.Fulfilled response) ticking in
  let result := Client.getLocation browser sample_client VUndefined empty_state in
  Client.name (Client.new_Error "HTTP 404: Not Found") ≠ "AbortError"
  ∧ Client.calls (snd result)
    = ([] ++ [location_call sample_client (or_empty VUndefined)])%list.
Proof.
  intros response browser result.
  destruct (X21_failures_reported browser sample_client VUndefined empty_state
              (Client.new_Error "HTTP 404: Not Found")) as (Hname & _ & _ & Hcall).
  - by_vm.
  - split; [exact Hname|]. apply Hcall. discriminate.
Defined.

(** ** Success *)



(* ===================================================================== *)
(** * The client in front of the worker *)
(* ===================================================================== *)

(** A text or [null] is written and read back as it is. *)
Lemma JSON_copy_or_null (text : option string) :
  Convert.JSON_copy (or_null text) = or_null text.
Proof. rewrite or_null_cases. destruct text as [s|]; [|done]. by destruct (String.eqb s ""). Qed.

(** So is an assessment. *)
Lemma JSON_copy_assessment (headers : Headers) :
  Convert.JSON_copy (VObj (calculateDataQuality headers))
  = VObj (calculateDataQuality headers).
Proof.
  rewrite calculateDataQuality_assessment.
  pose proof (count_present_le headers) as Hle.
  generalize dependent (Spec.count_present headers). intros n Hn.
  do 8 (destruct n as [|n]; [by_vm|]). exfalso; lia.
Qed.

(** No property of a fresh record holds [undefined]. *)
Lemma or_null_defined (text : option string) : or_null text ≠ VUndefined.
Proof.
  rewrite or_null_cases. destruct text as [s|]; [|done]. by destruct (String.eqb s "").
Qed.

Ltac text_attribute :=
  eexists; split;
  [ apply extract_text; unfold text_fields; listed | apply or_null_defined ].

Ltac number_attribute :=
  eexists; split;
  [ apply extract_number; unfold number_fields; listed
  | rewrite or_null_cases; destruct (get _ _) as [s|];
    [by destruct (String.eqb s "")|done] ].

Ltac other_attribute :=
  eexists; split; [ extracted; reflexivity | first [ apply or_null_defined | done ] ].

Lemma extract_values (host : Host) (request : Request) (k : string) :
  k ∈ record_keys →
  ∃ v, extractLocationData host request !! k = Some v ∧ v ≠ VUndefined.
Proof.
  intros Hk. unfold record_keys in Hk.
  repeat (apply elem_of_cons in Hk as [->|Hk]);
    [ other_attribute | text_attribute | text_attribute | text_attribute
    | text_attribute | text_attribute | text_attribute
    | number_attribute | number_attribute | number_attribute
    | text_attribute | number_attribute | other_attribute | other_attribute
    | text_attribute | text_attribute | text_attribute | text_attribute
    | other_attribute | other_attribute
    | by apply elem_of_nil in Hk ].
Qed.

Lemma extract_defined (host : Host) (request : Request) (k : string) (v : value) :
  extractLocationData host request !! k = Some v → v ≠ VUndefined.
Proof.
  intros Hv.
  assert (k ∈ dom (extractLocationData host request)) as Hk
    by (apply elem_of_dom; by exists v).
  rewrite extract_dom in Hk. apply elem_of_list_to_set in Hk.
  destruct (extract_values host request k Hk) as (v' & Hv' & Hdefined).
  congruence.
Qed.

(** The record as the client reads it: the same keys, each property
    written and read back. *)
Lemma copied_record (host : Host) (request : Request) :
  ∃ data,
    Convert.JSON_copy (VObj (extractLocationData host request)) = VObj data
    ∧ dom data = list_to_set record_keys
    ∧ ∀ k, prop data k = Convert.JSON_copy (prop (extractLocationData host request) k).
Proof.
  pose proof (extract_dom host request) as Hdom.
  pose proof (extract_defined host request) as Hdefined.
  generalize dependent (extractLocationData host request). intros record Hdom Hdefined.
  eexists. split; [reflexivity|]. split.
  - rewrite <- Hdom. apply set_eq. intros k.
    rewrite !elem_of_dom, lookup_omap.
    destruct (record !! k) as [v|] eqn:Hv; cbn.
    + pose proof (Hdefined _ _ Hv). split; [by eauto|].
      intros _. by destruct v.
    + split; by intros [? ?].
  - intros k. apply (JSON_copy_field record k).
Qed.

(** X23. The client in front of the worker. When [getLocation] does not
    answer from the cache and its call reaches the worker as a request
    [request] that is not a preflight, the outcome is the worker's:
    - on the path ['/location'] or ['/'] the client returns the record
      written as JSON and read back. It has the record's twenty keys;
      the text attributes, [ip], [ipType], [timestamp] and
      [dataQuality] are as the worker built them; a number attribute
      holds the number that was parsed if that is finite, and [null]
      where the worker's record holds NaN or an infinity. No property
      of what the client returns holds a number that is not finite.
    - on a path that the worker does not route (a base address with a
      path prefix leads to one), the client throws
      ['HTTP 404: <statusText>']. *)
Theorem X23_client_of_worker (browser : Client.Browser) (this : Client.LocationClient)
    (options : value) (st : Client.state) (host : Host) (request : Request)
    (statusText : string) :
  let call := location_call this (or_empty options) in
  let record := extractLocationData host request in
  let result := fst (Client.getLocation browser this options st) in
  options ≠ VNull →
  ¬ served_from_cache browser this options st →
  method request ≠ "OPTIONS" →
  Client.network browser (length (Client.calls st)) call
  = Client.Fulfilled (delivered browser statusText (fst (fetch host request))) →
  (pathname request = "/location" ∨ pathname request = "/" →
   ∃ data,
     result = Client.Return (VObj data)
     ∧ VObj data = Convert.JSON_copy (VObj record)
     ∧ dom data = list_to_set record_keys
     ∧ (∀ k h, (k, h) ∈ text_fields → prop data k = prop record k)
     ∧ (∀ k, k ∈ ["ip"; "ipType"; "timestamp"; "dataQuality"] →
          prop data k = prop record k)
     ∧ (∀ k h parse, (k, h, parse) ∈ number_fields →
          prop data k
          = match get (headers request) h with
            | Some s => if String.eqb s "" then VNull
                        else Convert.JSON_copy (VNum (parse s))
            | None => VNull
            end)
     ∧ (∀ k x, prop data k = VNum x → is_finite x = true))
  ∧ (pathname request ≠ "/location" → pathname request ≠ "/" →
     pathname request ≠ "/location-enhanced" → pathname request ≠ "/health" →
     result = Client.Throw (Client.new_Error ("HTTP 404: " ++ statusText))).
Proof.
  intros call record result Hnull Hunserved Hmethod Hnetwork.
  assert (result = fst (requested browser this (or_empty options)
                          (snd (Client.getCachedLocation browser this st)))
          ∨ result = fst (requested browser this (or_empty options) st)) as Hresult.
  { unfold result. rewrite (getLocation_runs _ _ _ _ Hnull).
    destruct (getCachedLocation_returns browser this st) as (v & st' & Hread & _).
    destruct (consults this options) eqn:Hconsults; [|by right].
    rewrite Hread. destruct (truthy v) eqn:Hv; [|by left].
    exfalso. apply Hunserved. split; [done|]. exists v. by rewrite Hread. }
  assert (∀ st0, Client.calls st0 = Client.calls st →
            fst (requested browser this (or_empty options) st0)
            = let response := delivered browser statusText (fst (fetch host request)) in
              if Client.reply_ok response then
                match Client.reply_json response with
                | inl error => Client.Throw (reported "Request timeout" error)
                | inr data => Client.Return data
                end
              else Client.Throw (Client.http_error response)) as Hrequested.
  { intros st0 Hcalls. unfold requested. fold call. rewrite Hcalls, Hnetwork. cbv zeta.
    destruct (Client.reply_ok _); [|done]. by destruct (Client.reply_json _). }
  assert (result
          = let response := delivered browser statusText (fst (fetch host request)) in
            if Client.reply_ok response then
              match Client.reply_json response with
              | inl error => Client.Throw (reported "Request timeout" error)
              | inr data => Client.Return data
              end
            else Client.Throw (Client.http_error response)) as ->.
  { destruct Hresult as [-> | ->]; apply Hrequested; [|done].
    by destruct (getCachedLocation_returns browser this st) as (v & st' & -> & ? & _). }
  clear Hresult Hrequested. cbv zeta.
  destruct (fetch_routes host request)
    as [[Hm _]|[(_ & Hpath & ->)|[(_ & Hpath & _)|[(_ & Hpath & _)|(_ & H1 & H2 & H3 & H4 & ->)]]]];
    [done| | | |].
  - split; [intros _|intros H1 H2; by destruct Hpath].
    destruct (copied_record host request) as (data & Hdata & Hdom & Hprops).
    exists data. fold record in Hdata, Hprops.
    split; [by rewrite <- Hdata|]. split; [done|]. split; [done|].
    split; [|split; [|split]].
    + intros k h Hk. rewrite Hprops. unfold prop, record.
      rewrite (extract_text _ _ _ _ Hk). apply JSON_copy_or_null.
    + intros k Hk. rewrite Hprops. unfold prop, record.
      destruct (extract_ip host request) as (ip & Hip & Htype & _).
      repeat (apply elem_of_cons in Hk as [->|Hk]); [..|by apply elem_of_nil in Hk].
      * by rewrite Hip.
      * by rewrite Htype.
      * extracted. reflexivity.
      * rewrite extract_dataQuality. apply JSON_copy_assessment.
    + intros k h parse Hk. rewrite Hprops. unfold prop, record.
      rewrite (extract_number _ _ _ _ _ Hk), or_null_cases.
      destruct (get (headers request) h) as [s|]; [|done].
      by destruct (String.eqb s "").
    + intros k x. rewrite Hprops.
      destruct (prop record k) as [| |b|n|s|elems|props]; cbn [Convert.JSON_copy]; try done.
      destruct (is_finite n) eqn:Hn; [|done]. intros [= <-].
      destruct (is_zero n); [by_vm|done].
  - split; [intros [H|H]; rewrite H in Hpath; done|].
    intros _ _ H. by destruct H.
  - split; [intros [H|H]; rewrite H in Hpath; done|].
    intros _ _ _ H. by destruct H.
  - split; [by intros [H|H]|]. intros _ _ _ _. reflexivity.
Qed.

Lemma X23_witness :
  let host := answering (Rejects "offline") in
  let request := {| method := "GET"; pathname := "/location";
                    headers := {[ "cf-ipcity" := "Paris";
                                  "cf-iplatitude" := "north" ]} |} in
  let base := quiet_browser (Client.Rejected (Client.new_Error "offline")) ticking in
  let browser :=
    quiet_browser (Client.Fulfilled (delivered base "OK" (fst (fetch host request))))
      ticking in
  ∃ data,
    fst (Client.getLocation browser sample_client VUndefined empty_state)
    = Client.Return (VObj data)
    ∧ prop data "city" = VStr "Paris"
    ∧ prop data "latitude" = VNull.
Proof.
  intros host request base browser.
  destruct (X23_client_of_worker browser sample_client VUndefined empty_state
              host request "OK") as [Hrouted _].
  - discriminate.
  - intros (_ & cached & Hcached & Htruthy).
    vm_compute in Hcached. injection Hcached as <-. discriminate Htruthy.
  - discriminate.
  - by_vm.
  - destruct Hrouted as (data & Hresult & _ & _ & Htext & _ & Hnumber & _); [by left|].
    exists data. split; [exact Hresult|]. split.
    + rewrite (Htext "city" "CF-IPCity") by (unfold text_fields; listed). by_vm.
    + rewrite (Hnumber "latitude" "CF-IPLatitude" parseFloat)
        by (unfold number_fields; listed).
      by_vm.
Defined.

(* ===================================================================== *)
(** * The client's helpers *)
(* ===================================================================== *)

Lemma append_not_empty (a b : string) : a ≠ "" → (a ++ b) ≠ "".
Proof. by destruct a. Qed.

Lemma eqb_empty_append (a b : string) : a ≠ "" → String.eqb (a ++ b) "" = false.
Proof. intros Ha. apply String.eqb_neq. by apply append_not_empty. Qed.

(** The parts that [formatLocation] collects are the truthy ones, in
    order. *)
Lemma formatLocation_parts (location : value) :
  location ≠ VNull → location ≠ VUndefined →
  Client.formatLocation location
  = let parts := List.filter truthy [field location "city"; field location "region";
                                     field location "country"] in
    let text := Convert.Array_join ", " parts in
    inr (if String.eqb text "" then "Unknown Location" else text).
Proof.
  intros Hnull Hundefined. unfold Client.formatLocation. cbn [List.filter].
  destruct location; try done;
    by destruct (truthy (field _ "city")), (truthy (field _ "region")),
         (truthy (field _ "country")).
Qed.

(** Among texts and nothings, the truthy ones are the texts that are
    not empty. *)
Lemma truthy_texts (parts : list value) :
  Forall textual parts →
  List.map (fun elem => match elem with
                        | VUndefined | VNull => EmptyString
                        | _ => Convert.ToString elem
                        end) (List.filter truthy parts)
  = texts parts
  ∧ Forall (fun s => s ≠ "") (texts parts).
Proof.
  induction 1 as [|v parts Hv _ [IH1 IH2]]; [done|].
  destruct Hv as [->|[->|[s ->]]]; [done..|].
  cbn [List.filter truthy texts flat_map].
  destruct (String.eqb_spec s "") as [->|Hs]; cbn [negb app]; [done|].
  split; [cbn; by f_equal|]. by constructor.
Qed.

Lemma join_not_empty (sep s : string) (rest : list string) :
  s ≠ "" → Convert.join sep (s :: rest) ≠ "".
Proof.
  intros Hs. cbn [Convert.join]. destruct rest; [done|]. by apply append_not_empty.
Qed.

Lemma formatLocation_texts (location : value) :
  location ≠ VNull → location ≠ VUndefined →
  textual (field location "city") → textual (field location "region") →
  textual (field location "country") →
  Client.formatLocation location
  = inr (formatted (texts [field location "city"; field location "region";
                           field location "country"])).
Proof.
  intros Hnull Hundefined Hcity Hregion Hcountry.
  rewrite (formatLocation_parts _ Hnull Hundefined). cbv zeta.
  unfold Convert.Array_join.
  destruct (truthy_texts [field location "city"; field location "region";
                          field location "country"]) as [-> Hparts];
    [constructor; [done|constructor; [done|constructor; [done|constructor]]]|].
  destruct (texts _) as [|s rest]; [done|].
  apply Forall_cons in Hparts as [Hs _].
  unfold formatted. f_equal.
  by rewrite (proj2 (String.eqb_neq _ _) (join_not_empty ", " s rest Hs)).
Qed.


(** X25. The client's helpers on what the worker sends. On the JSON
    copy of the record of a request, [formatLocation] gives the texts
    of the headers [CF-IPCity], [CF-Region] and [CF-IPCountry] that are
    there and not empty, in that order and separated by [', '], or
    ['Unknown Location'] when none is; [isEU] never throws, and is
    true exactly when [CF-IPCountry] is one of the twenty-seven codes,
    letter for letter. *)
Theorem X25_helpers_on_worker_data (host : Host) (request : Request) :
  let data := Convert.JSON_copy (VObj (extractLocationData host request)) in
  Client.formatLocation data
  = inr (formatted (named (headers request) "CF-IPCity"
                    ++ named (headers request) "CF-Region"
                    ++ named (headers request) "CF-IPCountry"))
  ∧ (∃ answer, Client.isEU data = inr answer)
  ∧ (Client.isEU data = inr true
     ↔ ∃ code, code ∈ euCountries ∧ get (headers request) "CF-IPCountry" = Some code).
Proof.
  intros data. unfold data.
  destruct (copied_record host request) as (copy & -> & _ & Hprops).
  assert (∀ k h, (k, h) ∈ text_fields →
            field (VObj copy) k = or_null (get (headers request) h)) as Htext.
  { intros k h Hk. cbn [field]. rewrite Hprops. unfold prop.
    rewrite (extract_text _ _ _ _ Hk). apply JSON_copy_or_null. }
  assert (∀ text, textual (or_null text)) as Htextual.
  { intros text. rewrite or_null_cases. destruct text as [s|]; [|by left].
    destruct (String.eqb s ""); [by left|right; right; by exists s]. }
  assert (∀ name, texts [or_null (get (headers request) name)]
                  = named (headers request) name) as Hnamed.
  { intros name. unfold named. rewrite or_null_cases.
    destruct (get (headers request) name) as [s|]; [|done].
    cbn. by destruct (String.eqb s "") eqn:Hs; cbn; rewrite ?Hs. }
  split; [|split].
  - rewrite formatLocation_texts; try done.
    + rewrite (Htext "city" "CF-IPCity"), (Htext "region" "CF-Region"),
        (Htext "country" "CF-IPCountry") by (unfold text_fields; listed).
      rewrite <- !Hnamed. cbn [texts flat_map]. by rewrite !app_nil_r.
    + rewrite (Htext "city" "CF-IPCity") by (unfold text_fields; listed). apply Htextual.
    + rewrite (Htext "region" "CF-Region") by (unfold text_fields; listed). apply Htextual.
    + rewrite (Htext "country" "CF-IPCountry") by (unfold text_fields; listed).
      apply Htextual.
  - by eexists.
  - assert (Client.isEU (VObj copy)
            = inr (existsb (is_string (or_null (get (headers request) "CF-IPCountry")))
                     euCountries)) as ->.
    { unfold Client.isEU.
      by rewrite (Htext "country" "CF-IPCountry") by (unfold text_fields; listed). }
    rewrite or_null_cases. split.
    + intros Htrue.
      assert (∀ b : bool, @inr Client.Error bool b = inr true → b = true) as Hinr
        by (intros b; congruence).
      apply Hinr in Htrue. clear Hinr.
      apply existsb_exists in Htrue as (code & Hin & Hcode).
      exists code. split; [by apply list_elem_of_In|].
      destruct (get (headers request) "CF-IPCountry") as [s|]; [|done].
      destruct (String.eqb s ""); [done|].
      cbn in Hcode. by apply String.eqb_eq in Hcode as ->.
    + intros (code & Hin & ->). f_equal. apply existsb_exists. exists code.
      split; [by apply list_elem_of_In|].
      assert (code ≠ "") as Hcode.
      { intros ->. unfold euCountries in Hin.
        repeat (apply elem_of_cons in Hin as [[=]|Hin]). by apply elem_of_nil in Hin. }
      rewrite (proj2 (String.eqb_neq _ _) Hcode). cbn. apply String.eqb_refl.
Qed.

(** ** [getHealth] *)

(** X26. A health check makes exactly one call, to the base address
    followed by [/health], and touches neither the storage nor the
    clock. An abort is reported as ['Health check timeout'], and no
    error that it throws is named [AbortError]; a response outside 2xx
    is an error whatever its body. In front of the worker it returns
    the worker's health record: the status ['ok'] and the worker's
    clock reading. *)
Theorem X26_health_check (browser : Client.Browser) (this : Client.LocationClient)
    (st : Client.state) :
  let call := health_call this in
  let outcome := Client.network browser (length (Client.calls st)) call in
  let result := Client.getHealth browser this st in
  snd result = called call st
  ∧ Client.url call = Client.baseUrl this ++ "/health"
  ∧ (∀ error, fst result = Client.Throw error → Client.name error ≠ "AbortError")
  ∧ (∀ cause, outcome = Client.Rejected cause →
       fst result = Client.Throw (reported "Health check timeout" cause))
  ∧ (∀ response, outcome = Client.Fulfilled response →
       Client.reply_ok response = false →
       fst result = Client.Throw (Client.http_error response))
  ∧ (∀ host request statusText,
       method request ≠ "OPTIONS" → pathname request = "/health" →
       outcome = Client.Fulfilled (delivered browser statusText (fst (fetch host request))) →
       fst result
       = Client.Return (VObj (list_to_map [("status", VStr "ok");
                                           ("timestamp", VStr (now host))]))).
Proof.
  intros call outcome result.
  assert (result
          = (match outcome with
             | Client.Rejected cause =>
                 Client.Throw (reported "Health check timeout" cause)
             | Client.Fulfilled response =>
                 if Client.reply_ok response then
                   match Client.reply_json response with
                   | inl cause => Client.Throw (reported "Health check timeout" cause)
                   | inr data => Client.Return data
                   end
                 else Client.Throw (Client.http_error response)
             end, called call st)) as ->.
  { unfold result, Client.getHealth, Client.try_catch, mbind, Client.client_bind,
      Client.await_fetch, reported, outcome, call, health_call, called.
    destruct (Client.network browser _ _) as [cause|response].
    - unfold Client.throw. by destruct (String.eqb (Client.name cause) "AbortError").
    - destruct (Client.reply_ok response); cbn [negb]; [|reflexivity].
      destruct (Client.reply_json response) as [cause|data]; cbn [Client.settle]; [|done].
      unfold Client.throw. by destruct (String.eqb (Client.name cause) "AbortError"). }
  cbn [fst snd]. split; [done|]. split; [done|]. split; [|split; [|split]].
  - intros error. destruct outcome as [cause|response].
    + intros [= <-]. apply reported_name.
    + destruct (Client.reply_ok response).
      * destruct (Client.reply_json response) as [cause|data]; [|done].
        intros [= <-]. apply reported_name.
      * by intros [= <-].
  - by intros cause ->.
  - by intros response -> ->.
  - intros host request statusText Hmethod Hpath ->.
    destruct (fetch_routes host request)
      as [[Hm _]|[(_ & Hp & _)|[(_ & Hp & _)|[(_ & _ & ->)|(_ & _ & _ & _ & Hp & _)]]]];
      [done| | | |done].
    + destruct Hp as [Hp|Hp]; rewrite Hp in Hpath; done.
    + rewrite Hp in Hpath; done.
    + by_vm.
Qed.

(** ** The constructor *)

Lemma strip_slash_stem (stem : string) : Client.strip_slash (stem ++ "/") = stem.
Proof.
  induction stem as [|c rest IH]; [done|].
  change (String c rest ++ "/") with (String c (rest ++ "/")).
  cbn [Client.strip_slash]. rewrite IH. by destruct rest.
Qed.

Lemma strip_slash_none (s : string) :
  (∀ stem, s ≠ stem ++ "/") → Client.strip_slash s = s.
Proof.
  induction s as [|c rest IH]; [done|]. intros Hstem.
  cbn [Client.strip_slash]. destruct rest as [|c' rest'].
  - destruct (Ascii.eqb_spec c "/") as [->|Hc]; [|done].
    by destruct (Hstem "").
  - f_equal. apply IH. intros stem Heq. apply (Hstem (String c stem)).
    by rewrite Heq.
Qed.

(** X27. The constructor keeps the base address without one slash at
    its end, so that the addresses it builds have no double slash. A
    [timeout] or [cacheTTL] that is falsy (missing, [0], NaN, an empty
    text, [null]) is replaced by the default, 5000 and 300000: both
    are always truthy, and the cache cannot be switched off through
    them. The cache is on unless [options.cache] is the boolean
    [false] itself. Options that are [null] make the constructor
    throw a TypeError. *)
Theorem X27_constructor_defaults (address : string) (options : value) :
  (options = VNull →
   ∃ error, Client.constructor (VStr address) options = inl error
            ∧ Client.name error = "TypeError")
  ∧ (options ≠ VNull →
     ∃ this,
       Client.constructor (VStr address) options = inr this
       ∧ (∀ stem, address = stem ++ "/" → Client.baseUrl this = stem)
       ∧ ((∀ stem, address ≠ stem ++ "/") → Client.baseUrl this = address)
       ∧ Client.cacheKey this = "cf-location-data"
       ∧ (Client.cache this = false ↔ field (or_empty options) "cache" = VBool false)
       ∧ Client.timeout this
         = (if truthy (field (or_empty options) "timeout")
            then field (or_empty options) "timeout" else VNum (of_Z 5000))
       ∧ Client.cacheTTL this
         = (if truthy (field (or_empty options) "cacheTTL")
            then field (or_empty options) "cacheTTL" else VNum (of_Z 300000))
       ∧ truthy (Client.timeout this) = true
       ∧ truthy (Client.cacheTTL this) = true
       ∧ Client.url (location_call this VUndefined) = Client.baseUrl this ++ "/location").
Proof.
  split.
  - intros ->. by eexists.
  - intros Hnull.
    assert (Client.constructor (VStr address) options
            = inr {| Client.baseUrl := Client.strip_slash address;
                     Client.timeout :=
                       JS.or (field (or_empty options) "timeout") (VNum (of_Z 5000));
                     Client.cache :=
                       negb match field (or_empty options) "cache" with
                            | VBool false => true
                            | _ => false
                            end;
                     Client.cacheKey := "cf-location-data";
                     Client.cacheTTL :=
                       JS.or (field (or_empty options) "cacheTTL")
                         (VNum (of_Z 300000)) |}) as ->
      by (by destruct options).
    eexists. split; [reflexivity|]. cbn [Client.baseUrl Client.timeout Client.cache
      Client.cacheKey Client.cacheTTL location_call Client.url].
    split; [by intros stem ->; apply strip_slash_stem|].
    split; [apply strip_slash_none|]. split; [done|].
    split.
    { destruct (field (or_empty options) "cache") as [| |[]| | | |]; cbn; split; done. }
    unfold JS.or.
    split; [done|]. split; [done|].
    split; [by destruct (truthy (field (or_empty options) "timeout")) eqn:H|].
    split; [by destruct (truthy (field (or_empty options) "cacheTTL")) eqn:H|done].
Qed.

(* ===================================================================== *)
(** * JSON, twice *)
(* ===================================================================== *)









(** ** Requests that skip the cache *)

(** X29. A request that skips the cache read. With [options.fresh]
    truthy, or with the cache off, [getLocation] goes to the network
    without looking at the storage or the clock: it makes its one
    call, and a failure leaves everything but the log of calls as it
    was, an expired or corrupt entry included. With the cache off a
    success changes nothing either. With the cache on, a fresh success
    is written to the cache like any other: in a storage that takes
    the text, the entry for the new data replaces whatever was under
    the client's key. *)
Theorem X29_fresh_request_skips_cache (browser : Client.Browser)
    (this : Client.LocationClient) (options : value) (st : Client.state) :
  options ≠ VNull →
  truthy (field (or_empty options) "fresh") = true ∨ Client.cache this = false →
  let call := location_call this (or_empty options) in
  let result := Client.getLocation browser this options st in
  Client.calls (snd result) = (Client.calls st ++ [call])%list
  ∧ (∀ error, fst result = Client.Throw error → snd result = called call st)
  ∧ (Client.cache this = false → snd result = called call st)
  ∧ (∀ data items,
       fst result = Client.Return data →
       Client.cache this = true →
       Client.localStorage st = Some items →
       Client.stores browser (entry data (Client.clock browser (Client.readings st)))
       = true →
       Client.localStorage (snd result)
       = Some (<[Client.cacheKey this
                 := entry data (Client.clock browser (Client.readings st))]> items)
       ∧ Client.readings (snd result) = S (Client.readings st)).
Proof.
  intros Hnull Hskip call result.
  assert (consults this options = false) as Hconsults.
  { unfold consults. destruct Hskip as [-> | ->]; [|done].
    by destruct (Client.cache this). }
  unfold result. rewrite (getLocation_runs _ _ _ _ Hnull), Hconsults.
  split; [apply requested_calls|]. split; [|split].
  - intros error Herror. by destruct (requested_throws _ _ _ _ _ Herror) as (-> & _).
  - intros Hcache. unfold requested. fold call. rewrite Hcache.
    destruct (Client.network browser _ call) as [cause|response]; [done|].
    destruct (Client.reply_ok response); [|done].
    by destruct (Client.reply_json response).
  - intros data items Hdata Hcache Hstorage Hstores. revert Hdata.
    unfold requested. fold call. rewrite Hcache.
    destruct (Client.network browser _ call) as [cause|response]; [done|].
    destruct (Client.reply_ok response); [|done].
    destruct (Client.reply_json response) as [cause|data']; [done|].
    cbn [fst snd]. intros [= ->]. unfold saved.
    cbn [called Client.localStorage Client.readings]. by rewrite Hstorage, Hstores.
Qed.

Lemma X29_witness :
  let response := {| Client.reply_status := 503;
                     Client.statusText := "Service Unavailable";
                     Client.reply_json := inr VNull |} in
  let browser := quiet_browser (Client.Fulfilled response) ticking in
  let options := VObj {[ "fresh" := VBool true ]} in
  let stale : gmap string Text := {[ "cf-location-data" := Literal "stale" ]} in
  let st := with_items stale empty_state in
  let result := Client.getLocation browser sample_client options st in
  snd result = called (location_call sample_client (or_empty options)) st.
Proof.
  intros response browser options stale st result.
  refine (proj1 (proj2 (X29_fresh_request_skips_cache browser sample_client options st
                          _ _))
            (Client.new_Error "HTTP 503: Service Unavailable") _).
  - discriminate.
  - left. by_vm.
  - by_vm.
Defined.
